(** * Digital achievement ledger: the certificate workflow

    A shallow embedding of the certificate issuance, revocation and public
    verification path of the ledger backend:

    - [utils]      : [truncate], [GenerateCertificateNumber], [GenerateQRToken]
    - [repository] : the SQL statements of [certificateRepository], run
                     against the tables declared in [migrations/001_init.sql]
    - [service]    : [certificateService] ([Create], [Revoke], [Verify], ...)
    - [handler]    : the HTTP status chosen by [CertificateHandler]

    Go strings are byte sequences and are modelled by [string] (a list of
    8-bit [ascii]); Go [int] is a 64-bit integer modelled by [Z] with its
    wrap-around written out in [GoInt]. *)

From Stdlib Require Import ZArith NArith List String Ascii Bool Lia.
From Stdlib Require Import Permutation Sorted DecimalString DecimalN.
Import ListNotations.

Local Open Scope string_scope.
Local Open Scope list_scope.

(* ================================================================== *)
(** * Part I: the embedding                                            *)
(* ================================================================== *)

(** ** Go primitives *)

Module GoInt.
(** [int] on the 64-bit targets the service is built for. *)
Definition min_int : Z := (- 2 ^ 63)%Z.
Definition max_int : Z := (2 ^ 63 - 1)%Z.

Definition wrap (z : Z) : Z := ((z + 2 ^ 63) mod 2 ^ 64 - 2 ^ 63)%Z.

Definition add (a b : Z) : Z := wrap (a + b).
Definition sub (a b : Z) : Z := wrap (a - b).

Definition in_range (z : Z) : Prop := (min_int <= z <= max_int)%Z.
End GoInt.

(** [len(s)]: the number of bytes of [s]. *)
Definition len (s : string) : Z := Z.of_nat (String.length s).

(** [s[:hi]]. Go panics ("slice bounds out of range") unless
    [0 <= hi <= len(s)]; the panic is [None]. *)
Definition slice_to (s : string) (hi : Z) : option string :=
  if ((0 <=? hi)%Z && (hi <=? len s)%Z)%bool
  then Some (substring 0 (Z.to_nat hi) s)
  else None.

Module fmt.
(** The decimal digits of a natural number, as [%d] prints them. *)
Definition digits (n : N) : string := NilZero.string_of_uint (N.to_uint n).

Fixpoint zeros (k : nat) : string :=
  match k with
  | O => EmptyString
  | S k' => String "0"%char (zeros k')
  end.

Definition pad_zeros (width : nat) (s : string) : string :=
  (zeros (width - String.length s) ++ s)%string.

(** [%d] *)
Definition verb_d (z : Z) : string :=
  if (z <? 0)%Z then ("-" ++ digits (Z.to_N (- z)))%string
  else digits (Z.to_N z).

(** [%0<width>d]: the zero flag pads the digits up to the width; a sign
    takes one column of the width. *)
Definition verb_0d (width : nat) (z : Z) : string :=
  if (z <? 0)%Z
  then ("-" ++ pad_zeros (width - 1) (digits (Z.to_N (- z))))%string
  else pad_zeros width (digits (Z.to_N z)).
End fmt.

Module hex.
Definition hextable : string := "0123456789abcdef".

Definition digit (n : N) : ascii :=
  match String.get (N.to_nat n) hextable with
  | Some c => c
  | None => "0"%char
  end.

(** [hex.EncodeToString]: two lower-case digits per byte, high nibble
    first. *)
Fixpoint EncodeToString (src : list Byte.byte) : string :=
  match src with
  | [] => EmptyString
  | b :: rest =>
      let v := Byte.to_N b in
      String (digit (N.shiftr v 4))
        (String (digit (N.land v 15)) (EncodeToString rest))
  end.
End hex.

(** ** Values shared by the model *)

(** [uuid.UUID]: the 128-bit value; [uuid.Nil] is all zero. *)
Definition UUID := N.
Definition uuid_Nil : UUID := 0%N.

(** [time.Time], reduced to what the workflow observes: the calendar year
    ([Time.Year()], [EXTRACT(YEAR FROM ...)]) and the position of the
    instant inside that year. *)
Record Time := mkTime { Year : Z; Nanos : Z }.

(** The zero [time.Time]: January 1 of year 1. *)
Definition Time_zero : Time := mkTime 1 0.

Definition Time_leb (a b : Time) : bool :=
  ((Year a <? Year b) || ((Year a =? Year b) && (Nanos a <=? Nanos b)))%Z.

(** ** Errors *)

(** The constraints declared on the two certificate tables, under the names
    PostgreSQL gives them. *)
Inductive constraint :=
| certificates_pkey
| certificates_certificate_number_key
| certificates_qr_token_key
| certificates_student_id_fkey
| certificates_issued_by_fkey
| certificate_achievements_pkey
| certificate_achievements_certificate_id_fkey
| certificate_achievements_achievement_id_fkey.

(** What [database/sql] hands back. *)
Inductive sql_error :=
| ErrNoRows                                  (* sql.ErrNoRows *)
| UniqueViolation (c : constraint)           (* SQLSTATE 23505 *)
| ForeignKeyViolation (c : constraint)       (* SQLSTATE 23503 *)
| UndefinedColumn (column : string)          (* SQLSTATE 42703 *)
| DatatypeMismatch (column : string)         (* SQLSTATE 42804 *)
| ConnectionFailure.                         (* the store is unreachable *)

(** Go [error] values of the workflow. The three sentinels are the package
    variables of [service]; [errors_New] is an error made on the spot. *)
Inductive error :=
| ErrCertificateNotFound
| ErrCertificateRevoked
| ErrStudentNotFound
| errors_New (msg : string)
| sql_err (e : sql_error)
| rand_err                                   (* crypto/rand.Read failed *)
| runtime_panic (msg : string).

Definition constraint_eq_dec (a b : constraint) : {a = b} + {a <> b}.
Proof. decide equality. Defined.

Definition sql_error_eq_dec (a b : sql_error) : {a = b} + {a <> b}.
Proof. decide equality; solve [apply constraint_eq_dec | apply string_dec]. Defined.

Definition error_eq_dec (a b : error) : {a = b} + {a <> b}.
Proof. decide equality; solve [apply sql_error_eq_dec | apply string_dec]. Defined.

(** [errors.Is(err, target)] for the unwrapped errors used here. *)
Definition errors_Is (err target : error) : bool :=
  if error_eq_dec err target then true else false.

Inductive Result (A : Type) :=
| Ok (a : A)
| Err (e : error).
Arguments Ok {A} a.
Arguments Err {A} e.

(** ** package model *)

Module User.
Record t := mk { ID : UUID; Name : string }.
End User.

Module Student.
Record t := mk {
  ID : UUID;
  NISN : string;
  FullName : string;
  BirthPlace : string;
  Class : string
}.
End Student.

Module Achievement.
Record t := mk {
  ID : UUID;
  StudentID : UUID;
  CompetitionName : string;
  Organizer : string;
  Rank : string;
  Year : Z;
  CreatedAt : Time
}.
End Achievement.

Module AchievementAttachment.
Record t := mk {
  ID : UUID;
  AchievementID : UUID;
  FileURL : string
}.
End AchievementAttachment.

Module AchievementWithAttachments.
Record t := mk {
  Achievement : Achievement.t;
  Attachments : list AchievementAttachment.t
}.
End AchievementWithAttachments.

Module Certificate.
Record t := mk {
  ID : UUID;
  StudentID : UUID;
  CertificateNumber : string;
  IssuedAt : Time;
  IssuedBy : option UUID;
  ValidUntil : option Time;
  QRToken : string;
  PDFURL : option string;
  Status : string;                         (* active | revoked *)
  Notes : string;
  CreatedAt : Time;
  (* Join fields *)
  StudentName : option string;
  StudentNISN : option string;
  IssuedByName : option string
}.

Definition with_ValidUntil (v : option Time) (c : t) : t :=
  mk (ID c) (StudentID c) (CertificateNumber c) (IssuedAt c) (IssuedBy c)
     v (QRToken c) (PDFURL c) (Status c) (Notes c) (CreatedAt c)
     (StudentName c) (StudentNISN c) (IssuedByName c).

Definition with_PDFURL (v : option string) (c : t) : t :=
  mk (ID c) (StudentID c) (CertificateNumber c) (IssuedAt c) (IssuedBy c)
     (ValidUntil c) (QRToken c) v (Status c) (Notes c) (CreatedAt c)
     (StudentName c) (StudentNISN c) (IssuedByName c).

Definition with_Status (v : string) (c : t) : t :=
  mk (ID c) (StudentID c) (CertificateNumber c) (IssuedAt c) (IssuedBy c)
     (ValidUntil c) (QRToken c) (PDFURL c) v (Notes c) (CreatedAt c)
     (StudentName c) (StudentNISN c) (IssuedByName c).

Definition with_joins (sn nisn ibn : option string) (c : t) : t :=
  mk (ID c) (StudentID c) (CertificateNumber c) (IssuedAt c) (IssuedBy c)
     (ValidUntil c) (QRToken c) (PDFURL c) (Status c) (Notes c)
     (CreatedAt c) sn nisn ibn.
End Certificate.

Module CertificateDetail.
Record t := mk {
  Certificate : Certificate.t;
  Student : option Student.t;
  Achievements : list AchievementWithAttachments.t
}.
End CertificateDetail.

Module CreateCertificateRequest.
Record t := mk {
  StudentID : string;
  AchievementIDs : list string;
  ValidUntil : string;                     (* YYYY-MM-DD, optional *)
  Notes : string
}.
End CreateCertificateRequest.

Module VerifyResponse.
Record t := mk {
  IsValid : bool;
  Certificate : option Certificate.t;
  Student : option Student.t;
  Achievements : list Achievement.t;
  Message : string
}.
End VerifyResponse.

(** ** The store: the tables of [migrations/001_init.sql]

    A table is the list of its rows in insertion order. The rows are the Go
    structs the repository scans them into (the join fields of a stored
    certificate are unset); column types and lengths are not modelled. *)

Record DB := mkDB {
  users : list User.t;
  students : list Student.t;
  achievements : list Achievement.t;
  achievement_attachments : list AchievementAttachment.t;
  certificates : list Certificate.t;
  certificate_achievements : list (UUID * UUID)
    (* (certificate_id, achievement_id) *)
}.

Definition with_certificates (cs : list Certificate.t) (d : DB) : DB :=
  mkDB (users d) (students d) (achievements d) (achievement_attachments d)
       cs (certificate_achievements d).

Definition with_certificate_achievements (l : list (UUID * UUID)) (d : DB) : DB :=
  mkDB (users d) (students d) (achievements d) (achievement_attachments d)
       (certificates d) l.

(** ** Effects

    Everything the workflow reads from outside is held by an oracle indexed
    by the number of effects performed so far: whether a database round trip
    fails upstream, the clock ([time.Now()] and the server's [NOW()]), the
    identifiers drawn by [uuid.New()], the bytes of [crypto/rand], and the
    order in which the executor hands over the rows of a scan before any
    [ORDER BY] is applied. *)

Record Oracle := mkOracle {
  upstream_down : nat -> bool;
  clock : nat -> Time;
  fresh_uuid : nat -> UUID;
  entropy : nat -> option (nat -> Byte.byte);
  scan_order : nat -> nat
}.

Record World := mkWorld {
  db : DB;
  oracle : Oracle;
  tick : nat
}.

Definition M (A : Type) : Type := World -> Result A * World.

Definition ret {A} (a : A) : M A := fun w => (Ok a, w).

Definition raise {A} (e : error) : M A := fun w => (Err e, w).

Definition bind {A B} (m : M A) (k : A -> M B) : M B :=
  fun w =>
    match m w with
    | (Ok a, w') => k a w'
    | (Err e, w') => (Err e, w')
    end.

(** [if err != nil { <handler> }] around a call. *)
Definition try {A} (m : M A) (handler : error -> M A) : M A :=
  fun w =>
    match m w with
    | (Ok a, w') => (Ok a, w')
    | (Err e, w') => handler e w'
    end.

(** A call whose error is dropped: [Some] the value, or [None]. *)
Definition ignore_err {A} (m : M A) : M (option A) :=
  fun w =>
    match m w with
    | (Ok a, w') => (Ok (Some a), w')
    | (Err _, w') => (Ok None, w')
    end.

(** [defer cleanup()] in front of [body]: the cleanup runs on every way out
    and its own result is dropped. *)
Definition defer {A} (cleanup : M unit) (body : M A) : M A :=
  fun w =>
    match body w with
    | (r, w') => (r, snd (cleanup w'))
    end.

Notation "x <- c1 ;; c2" := (bind c1 (fun x => c2))
  (at level 61, c1 at next level, right associativity).
Notation "c1 ;;; c2" := (bind c1 (fun _ => c2))
  (at level 61, right associativity).

Definition lift {A} (r : Result A) : M A := fun w => (r, w).

Definition get_db : M DB := fun w => (Ok (db w), w).

Definition put_db (d : DB) : M unit :=
  fun w => (Ok tt, mkWorld d (oracle w) (tick w)).

(** One effect: read the oracle at the current tick and move on. *)
Definition next {A} (f : Oracle -> nat -> A) : M A :=
  fun w => (Ok (f (oracle w) (tick w)), mkWorld (db w) (oracle w) (S (tick w))).

Fixpoint mapM {A B} (f : A -> M B) (l : list A) : M (list B) :=
  match l with
  | [] => ret []
  | a :: l' => b <- f a ;; bs <- mapM f l' ;; ret (b :: bs)
  end.

Definition time_Now : M Time := next clock.

Definition uuid_New : M UUID := next fresh_uuid.

(** [rand.Read(b)] for a buffer of [n] bytes. *)
Definition rand_Read (n : nat) : M (list Byte.byte) :=
  r <- next entropy ;;
  match r with
  | Some f => ret (map f (seq 0 n))
  | None => raise rand_err
  end.

(** Library functions the workflow calls and this repository does not
    define: [uuid.Parse], [time.Parse] (layout first) and the text
    ([err.Error()]) of the errors made by the driver and by [crypto/rand]. *)
Class Libraries := {
  uuid_Parse : string -> option UUID;
  time_Parse : string -> string -> option Time;
  driver_text : sql_error -> string;
  rand_text : string
}.

(** ** SQL over the store *)

Module pg.

(** Columns of [certificates], from the [CREATE TABLE]. *)
Definition certificates_columns : list string :=
  [ "id"; "student_id"; "certificate_number"; "issued_at"; "issued_by";
    "valid_until"; "qr_token"; "pdf_url"; "status"; "notes"; "created_at" ].

Inductive sqlval :=
| VNull
| VText (s : string)
| VUUID (u : UUID)
| VTime (t : Time).

Definition sqlfail {A} (e : sql_error) : Result A := Err (sql_err e).

Definition has_column (cols : list string) (col : string) : bool :=
  existsb (String.eqb col) cols.

(** [SET col = v] on one row of [certificates]. *)
Definition assign (col : string) (v : sqlval) (c : Certificate.t)
  : Result Certificate.t :=
  let mk := Certificate.mk in
  let '(Certificate.mk id sid num iat iby vu tok pdf st notes cat sn nisn ibn) := c in
  if col =? "id" then
    match v with
    | VUUID u => Ok (mk u sid num iat iby vu tok pdf st notes cat sn nisn ibn)
    | _ => sqlfail (DatatypeMismatch col)
    end
  else if col =? "student_id" then
    match v with
    | VUUID u => Ok (mk id u num iat iby vu tok pdf st notes cat sn nisn ibn)
    | _ => sqlfail (DatatypeMismatch col)
    end
  else if col =? "certificate_number" then
    match v with
    | VText s => Ok (mk id sid s iat iby vu tok pdf st notes cat sn nisn ibn)
    | _ => sqlfail (DatatypeMismatch col)
    end
  else if col =? "issued_at" then
    match v with
    | VTime t => Ok (mk id sid num t iby vu tok pdf st notes cat sn nisn ibn)
    | _ => sqlfail (DatatypeMismatch col)
    end
  else if col =? "issued_by" then
    match v with
    | VUUID u => Ok (mk id sid num iat (Some u) vu tok pdf st notes cat sn nisn ibn)
    | VNull => Ok (mk id sid num iat None vu tok pdf st notes cat sn nisn ibn)
    | _ => sqlfail (DatatypeMismatch col)
    end
  else if col =? "valid_until" then
    match v with
    | VTime t => Ok (mk id sid num iat iby (Some t) tok pdf st notes cat sn nisn ibn)
    | VNull => Ok (mk id sid num iat iby None tok pdf st notes cat sn nisn ibn)
    | _ => sqlfail (DatatypeMismatch col)
    end
  else if col =? "qr_token" then
    match v with
    | VText s => Ok (mk id sid num iat iby vu s pdf st notes cat sn nisn ibn)
    | _ => sqlfail (DatatypeMismatch col)
    end
  else if col =? "pdf_url" then
    match v with
    | VText s => Ok (mk id sid num iat iby vu tok (Some s) st notes cat sn nisn ibn)
    | VNull => Ok (mk id sid num iat iby vu tok None st notes cat sn nisn ibn)
    | _ => sqlfail (DatatypeMismatch col)
    end
  else if col =? "status" then
    match v with
    | VText s => Ok (mk id sid num iat iby vu tok pdf s notes cat sn nisn ibn)
    | _ => sqlfail (DatatypeMismatch col)
    end
  else if col =? "notes" then
    match v with
    | VText s => Ok (mk id sid num iat iby vu tok pdf st s cat sn nisn ibn)
    | _ => sqlfail (DatatypeMismatch col)
    end
  else if col =? "created_at" then
    match v with
    | VTime t => Ok (mk id sid num iat iby vu tok pdf st notes t sn nisn ibn)
    | _ => sqlfail (DatatypeMismatch col)
    end
  else sqlfail (UndefinedColumn col).

Fixpoint assign_all (sets : list (string * sqlval)) (c : Certificate.t)
  : Result Certificate.t :=
  match sets with
  | [] => Ok c
  | (col, v) :: rest =>
      match assign col v c with
      | Ok c' => assign_all rest c'
      | Err e => Err e
      end
  end.

Fixpoint update_rows (sets : list (string * sqlval)) (id : UUID)
         (rows : list Certificate.t) : Result (list Certificate.t) :=
  match rows with
  | [] => Ok []
  | c :: rest =>
      match (if (Certificate.ID c =? id)%N then assign_all sets c else Ok c) with
      | Ok c' =>
          match update_rows sets id rest with
          | Ok rest' => Ok (c' :: rest')
          | Err e => Err e
          end
      | Err e => Err e
      end
  end.

(** [UPDATE certificates SET <sets> WHERE id = $id]. The statement is
    analysed before it runs: a column that the table does not have is an
    error whatever the rows are. The statements of the repository assign
    no key column, so no constraint is checked again. *)
Definition update_certificates (sets : list (string * sqlval)) (id : UUID)
           (d : DB) : Result DB :=
  match find (fun s => negb (has_column certificates_columns (fst s))) sets with
  | Some (col, _) => sqlfail (UndefinedColumn col)
  | None =>
      match update_rows sets id (certificates d) with
      | Ok rows => Ok (with_certificates rows d)
      | Err e => Err e
      end
  end.

(** The row that
    [INSERT INTO certificates (id, student_id, certificate_number,
     issued_at, issued_by, valid_until, qr_token, status, notes,
     created_at) VALUES (:id, ..., :notes, NOW())]
    stores: [pdf_url] is not listed and stays NULL. *)
Definition inserted_row (c : Certificate.t) (now : Time) : Certificate.t :=
  Certificate.mk (Certificate.ID c) (Certificate.StudentID c)
    (Certificate.CertificateNumber c) (Certificate.IssuedAt c)
    (Certificate.IssuedBy c) (Certificate.ValidUntil c)
    (Certificate.QRToken c) None (Certificate.Status c)
    (Certificate.Notes c) now None None None.

Definition has_user (d : DB) (u : UUID) : bool :=
  existsb (fun r => (User.ID r =? u)%N) (users d).

Definition has_student (d : DB) (u : UUID) : bool :=
  existsb (fun r => (Student.ID r =? u)%N) (students d).

Definition has_achievement (d : DB) (u : UUID) : bool :=
  existsb (fun r => (Achievement.ID r =? u)%N) (achievements d).

Definition has_certificate (d : DB) (u : UUID) : bool :=
  existsb (fun r => (Certificate.ID r =? u)%N) (certificates d).

(** The unique indexes are checked as the row is inserted, the foreign
    keys when the statement ends. *)
Definition insert_certificate (c : Certificate.t) (now : Time) (d : DB)
  : Result DB :=
  if has_certificate d (Certificate.ID c)
  then sqlfail (UniqueViolation certificates_pkey)
  else if existsb (fun r => Certificate.CertificateNumber r
                            =? Certificate.CertificateNumber c) (certificates d)
  then sqlfail (UniqueViolation certificates_certificate_number_key)
  else if existsb (fun r => Certificate.QRToken r
                            =? Certificate.QRToken c) (certificates d)
  then sqlfail (UniqueViolation certificates_qr_token_key)
  else if negb (has_student d (Certificate.StudentID c))
  then sqlfail (ForeignKeyViolation certificates_student_id_fkey)
  else if match Certificate.IssuedBy c with
          | Some u => negb (has_user d u)
          | None => false
          end
  then sqlfail (ForeignKeyViolation certificates_issued_by_fkey)
  else Ok (with_certificates (certificates d ++ [inserted_row c now]) d).

(** [INSERT INTO certificate_achievements (certificate_id, achievement_id)
     VALUES ($1, $2)] *)
Definition insert_certificate_achievement (cid aid : UUID) (d : DB)
  : Result DB :=
  if existsb (fun p => (fst p =? cid)%N && (snd p =? aid)%N)
             (certificate_achievements d)
  then sqlfail (UniqueViolation certificate_achievements_pkey)
  else if negb (has_certificate d cid)
  then sqlfail (ForeignKeyViolation certificate_achievements_certificate_id_fkey)
  else if negb (has_achievement d aid)
  then sqlfail (ForeignKeyViolation certificate_achievements_achievement_id_fkey)
  else Ok (with_certificate_achievements
             (certificate_achievements d ++ [(cid, aid)]) d).

Definition student_by_id (d : DB) (u : UUID) : option Student.t :=
  find (fun r => (Student.ID r =? u)%N) (students d).

Definition user_by_id (d : DB) (u : UUID) : option User.t :=
  find (fun r => (User.ID r =? u)%N) (users d).

(** [LEFT JOIN students s ON c.student_id = s.id] and, when [with_issuer],
    [LEFT JOIN users u ON c.issued_by = u.id]: the join columns of the
    scanned struct. *)
Definition joined (with_issuer : bool) (d : DB) (c : Certificate.t)
  : Certificate.t :=
  let s := student_by_id d (Certificate.StudentID c) in
  Certificate.with_joins
    (option_map Student.FullName s)
    (option_map Student.NISN s)
    (if with_issuer
     then match Certificate.IssuedBy c with
          | Some u => option_map User.Name (user_by_id d u)
          | None => None
          end
     else None)
    c.

(** A [Get]: the first row, or [sql.ErrNoRows]. *)
Definition first_row {A} (rows : list A) : Result A :=
  match rows with
  | r :: _ => Ok r
  | [] => sqlfail ErrNoRows
  end.

Definition certificate_by_id (id : UUID) (d : DB) : Result Certificate.t :=
  first_row (map (joined true d)
               (filter (fun c => (Certificate.ID c =? id)%N) (certificates d))).

Definition certificate_by_token (token : string) (d : DB)
  : Result Certificate.t :=
  first_row (map (joined false d)
               (filter (fun c => Certificate.QRToken c =? token) (certificates d))).

Definition select_student (id : UUID) (d : DB) : Result Student.t :=
  first_row (filter (fun r => (Student.ID r =? id)%N) (students d)).

(** [FROM achievements a JOIN certificate_achievements ca
     ON a.id = ca.achievement_id WHERE ca.certificate_id = $1] *)
Definition joined_achievements (cid : UUID) (d : DB) : list Achievement.t :=
  flat_map
    (fun a =>
       map (fun _ => a)
         (filter (fun ca => (fst ca =? cid)%N && (snd ca =? Achievement.ID a)%N)
            (certificate_achievements d)))
    (achievements d).

Fixpoint insert_at {A} (i : nat) (x : A) (l : list A) : list A :=
  match i, l with
  | O, _ => x :: l
  | S _, [] => [x]
  | S i', y :: l' => y :: insert_at i' x l'
  end.

(** The [k]-th arrangement of [l]: every order of the rows is [permute k]
    for some [k], and [permute 0] is the table order. *)
Fixpoint permute {A} (k : nat) (l : list A) : list A :=
  match l with
  | [] => []
  | x :: l' =>
      insert_at (k mod S (List.length l')) x (permute (k / S (List.length l')) l')
  end.

Fixpoint insert_by_year (a : Achievement.t) (l : list Achievement.t)
  : list Achievement.t :=
  match l with
  | [] => [a]
  | b :: l' =>
      if (Achievement.Year b <=? Achievement.Year a)%Z
      then a :: b :: l'
      else b :: insert_by_year a l'
  end.

(** [ORDER BY a.year DESC] *)
Definition order_by_year_desc (l : list Achievement.t) : list Achievement.t :=
  fold_right insert_by_year [] l.

(** The achievements query of [FindByIDWithDetail]. The query names one
    sort key; rows with the same year come in the order the executor
    produced them ([order]). *)
Definition select_achievements (cid : UUID) (order : nat) (d : DB)
  : Result (list Achievement.t) :=
  Ok (order_by_year_desc (permute order (joined_achievements cid d))).

Definition select_attachments (aid : UUID) (d : DB)
  : Result (list AchievementAttachment.t) :=
  Ok (filter (fun r => (AchievementAttachment.AchievementID r =? aid)%N)
        (achievement_attachments d)).

(** [SELECT COUNT( * ) FROM certificates
     WHERE EXTRACT(YEAR FROM issued_at) = $1] *)
Definition count_by_year (year : Z) (d : DB) : Result Z :=
  Ok (Z.of_nat
        (List.length
           (filter (fun c => (Year (Certificate.IssuedAt c) =? year)%Z)
              (certificates d)))).

End pg.

(** ** database/sql

    A round trip takes one tick; it fails when the oracle says the store is
    unreachable at that tick, and otherwise runs the statement, which may
    read the server clock and the executor's row order of the same tick. *)

Record Ctx := mkCtx { server_now : Time; row_order : nat }.

Definition round_trip {A} (stmt : Ctx -> Result A) : M A :=
  fun w =>
    let o := oracle w in
    let n := tick w in
    let w' := mkWorld (db w) o (S n) in
    if upstream_down o n
    then (Err (sql_err ConnectionFailure), w')
    else (stmt (mkCtx (clock o n) (scan_order o n)), w').

(** [db.GetContext] / [db.SelectContext] / [db.QueryRowContext]. *)
Definition db_query {A} (q : Ctx -> DB -> Result A) : M A :=
  fun w => round_trip (fun cx => q cx (db w)) w.

(** [db.ExecContext]: the statement runs in its own transaction. *)
Definition db_exec (s : Ctx -> DB -> Result DB) : M unit :=
  d <- db_query s ;; put_db d.

(** [*sqlx.Tx]: the working copy the statements of an open transaction
    see; the store itself changes at [Commit]. *)
Definition Tx := DB.

Definition BeginTxx : M Tx := db_query (fun _ d => Ok d).

Definition tx_exec (tx : Tx) (s : Ctx -> DB -> Result DB) : M Tx :=
  round_trip (fun cx => s cx tx).

Definition Commit (tx : Tx) : M unit :=
  round_trip (fun _ => Ok tt) ;;; put_db tx.

(** [tx.Rollback()]: the working copy is dropped. On a committed
    transaction it returns [sql.ErrTxDone]; the deferred call reads neither
    result, and the store is the same either way. *)
Definition Rollback (tx : Tx) : M unit := ret tt.

(** ** package utils *)

Module utils.

(** [truncate] of [qrcode.go]; [None] is the run-time panic of the slice
    expression. *)
Definition truncate (s : string) (max : Z) : option string :=
  if (len s <=? max)%Z then Some s
  else
    match slice_to s (GoInt.sub max 3) with
    | Some head => Some (head ++ "...")%string
    | None => None
    end.

(** The widths [GenerateCertificatePDF] passes for the competition name,
    the organizer, the category and the level. *)
Definition column_widths : list Z := [30; 22; 14; 14]%Z.

Definition GenerateCertificateNumber (increment : Z) : M string :=
  now <- time_Now ;;
  let year := Year now in
  ret ("421.2/SKP/" ++ fmt.verb_d year ++ "/" ++ fmt.verb_0d 4 increment)%string.

Definition GenerateQRToken : M string :=
  b <- rand_Read 16 ;;
  ret (hex.EncodeToString b).

End utils.

(** ** package repository: [certificateRepository] *)

Module repository.
Import pg.

Definition FindByID (id : UUID) : M (option Certificate.t) :=
  try (cert <- db_query (fun _ => certificate_by_id id) ;; ret (Some cert))
      (fun err =>
         if errors_Is err (sql_err ErrNoRows) then ret None else raise err).

Definition FindByIDWithDetail (id : UUID) : M (option CertificateDetail.t) :=
  cert <- FindByID id ;;
  match cert with
  | None => ret None
  | Some cert =>
      student <- db_query (fun _ => select_student (Certificate.StudentID cert)) ;;
      achievements <- db_query (fun cx => select_achievements id (row_order cx)) ;;
      achievementsWithAtt <-
        mapM (fun a =>
                attachments <-
                  ignore_err
                    (db_query (fun _ => select_attachments (Achievement.ID a))) ;;
                ret (AchievementWithAttachments.mk a
                       (match attachments with Some l => l | None => [] end)))
             achievements ;;
      ret (Some (CertificateDetail.mk cert (Some student) achievementsWithAtt))
  end.

Definition FindByQRToken (token : string) : M (option Certificate.t) :=
  try (cert <- db_query (fun _ => certificate_by_token token) ;; ret (Some cert))
      (fun err =>
         if errors_Is err (sql_err ErrNoRows) then ret None else raise err).

(** The loop over [achievementIDs] inside the transaction. *)
Fixpoint insert_relations (cid : UUID) (achievementIDs : list UUID) (tx : Tx)
  : M Tx :=
  match achievementIDs with
  | [] => ret tx
  | achID :: rest =>
      tx' <- tx_exec tx (fun _ => insert_certificate_achievement cid achID) ;;
      insert_relations cid rest tx'
  end.

Definition Create (cert : Certificate.t) (achievementIDs : list UUID) : M unit :=
  tx <- BeginTxx ;;
  defer (Rollback tx)
    (tx1 <- tx_exec tx (fun cx => insert_certificate cert (server_now cx)) ;;
     tx2 <- insert_relations (Certificate.ID cert) achievementIDs tx1 ;;
     Commit tx2).

Definition UpdatePDFURL (id : UUID) (pdfURL : string) : M unit :=
  db_exec (fun _ => update_certificates [("pdf_url", VText pdfURL)] id).

Definition Revoke (id : UUID) : M unit :=
  now <- time_Now ;;
  db_exec (fun _ =>
             update_certificates
               [("status", VText "revoked"); ("updated_at", VTime now)] id).

Definition CountByYear (year : Z) : M Z :=
  db_query (fun _ => count_by_year year).

End repository.

(** ** package service: [certificateService] *)

Module service.
Section WithLibraries.
Context {L : Libraries}.

Definition GetByID (id : string) : M CertificateDetail.t :=
  match uuid_Parse id with
  | None => raise (errors_New "ID tidak valid")
  | Some uid =>
      detail <- repository.FindByIDWithDetail uid ;;
      match detail with
      | None => raise ErrCertificateNotFound
      | Some detail => ret detail
      end
  end.

Fixpoint parse_achievement_ids (ids : list string) : M (list UUID) :=
  match ids with
  | [] => ret []
  | idStr :: rest =>
      match uuid_Parse idStr with
      | None => raise (errors_New ("achievement_id tidak valid: " ++ idStr)%string)
      | Some uid => uids <- parse_achievement_ids rest ;; ret (uid :: uids)
      end
  end.

(** [Create], up to the point where the store is written: the
    identifiers are parsed, the number and the token are drawn and the
    certificate is assembled. *)
Definition Create_build (req : CreateCertificateRequest.t) (issuedBy : string)
  : M (Certificate.t * list UUID) :=
  match uuid_Parse (CreateCertificateRequest.StudentID req) with
  | None => raise (errors_New "student_id tidak valid")
  | Some studentUID =>
      if (List.length (CreateCertificateRequest.AchievementIDs req) =? 0)%nat
      then raise (errors_New "minimal 1 prestasi harus dipilih")
      else
        achievementUIDs <-
          parse_achievement_ids (CreateCertificateRequest.AchievementIDs req) ;;
        now <- time_Now ;;
        let year := Year now in
        count <- repository.CountByYear year ;;
        certNumber <- utils.GenerateCertificateNumber (GoInt.add count 1) ;;
        qrToken <- utils.GenerateQRToken ;;
        let issuedByUID :=
          match uuid_Parse issuedBy with
          | Some u => u
          | None => uuid_Nil
          end in
        id <- uuid_New ;;
        issuedAt <- time_Now ;;
        let cert :=
          Certificate.mk id studentUID certNumber issuedAt (Some issuedByUID)
            None qrToken None "active" (CreateCertificateRequest.Notes req)
            Time_zero None None None in
        if CreateCertificateRequest.ValidUntil req =? ""
        then ret (cert, achievementUIDs)
        else
          match time_Parse "2006-01-02" (CreateCertificateRequest.ValidUntil req) with
          | None =>
              raise (errors_New "format valid_until tidak valid, gunakan YYYY-MM-DD")
          | Some t => ret (Certificate.with_ValidUntil (Some t) cert, achievementUIDs)
          end
  end.

(** [Create], from the write on. The PDF is rendered and uploaded by a
    detached goroutine ([generateAndUploadPDF] below) whose outcome the
    caller never sees. *)
Definition Create_store (built : Certificate.t * list UUID)
  : M (option CertificateDetail.t) :=
  let (cert, achievementUIDs) := built in
  repository.Create cert achievementUIDs ;;;
  detail <- repository.FindByIDWithDetail (Certificate.ID cert) ;;
  ret detail.

Definition Create (req : CreateCertificateRequest.t) (issuedBy : string)
  : M (option CertificateDetail.t) :=
  built <- Create_build req issuedBy ;;
  Create_store built.

(** [generateAndUploadPDF]; [uploaded] is the URL the object storage
    returned, or [None] when rendering or the upload failed. *)
Definition generateAndUploadPDF (detail : CertificateDetail.t)
           (uploaded : option string) : M unit :=
  match uploaded with
  | None => ret tt
  | Some pdfURL =>
      ignore_err
        (repository.UpdatePDFURL
           (Certificate.ID (CertificateDetail.Certificate detail)) pdfURL) ;;;
      ret tt
  end.

Definition Revoke (id : string) : M unit :=
  match uuid_Parse id with
  | None => raise (errors_New "ID tidak valid")
  | Some uid =>
      cert <- repository.FindByID uid ;;
      match cert with
      | None => raise ErrCertificateNotFound
      | Some cert =>
          if Certificate.Status cert =? "revoked"
          then raise (errors_New "sertifikat sudah dicabut sebelumnya")
          else repository.Revoke uid
      end
  end.

Definition Verify (token : string) : M VerifyResponse.t :=
  cert <- repository.FindByQRToken token ;;
  match cert with
  | None =>
      ret (VerifyResponse.mk false None None []
             "Sertifikat tidak ditemukan. Dokumen ini mungkin tidak sah.")
  | Some cert =>
      if Certificate.Status cert =? "revoked"
      then
        ret (VerifyResponse.mk false (Some cert) None []
               "Sertifikat ini telah dicabut dan tidak berlaku.")
      else
        detail <- repository.FindByIDWithDetail (Certificate.ID cert) ;;
        match detail with
        | None => raise (runtime_panic "nil pointer dereference")
        | Some detail =>
            let achievements :=
              map AchievementWithAttachments.Achievement
                  (CertificateDetail.Achievements detail) in
            ret (VerifyResponse.mk true (Some cert)
                   (CertificateDetail.Student detail) achievements
                   "Sertifikat valid dan sah dikeluarkan oleh sekolah.")
        end
  end.

End WithLibraries.
End service.

(** ** package handler: [CertificateHandler] *)

Module handler.

Record Response := mkResponse {
  StatusCode : Z;
  Success : bool;
  Message : string
}.

Definition StatusOK : Z := 200.
Definition StatusCreated : Z := 201.
Definition StatusBadRequest : Z := 400.
Definition StatusNotFound : Z := 404.
Definition StatusUnprocessableEntity : Z := 422.
Definition StatusInternalServerError : Z := 500.

Section WithLibraries.
Context {L : Libraries}.

(** [err.Error()] *)
Definition Error (e : error) : string :=
  match e with
  | ErrCertificateNotFound => "sertifikat tidak ditemukan"
  | ErrCertificateRevoked => "sertifikat telah dicabut"
  | ErrStudentNotFound => "siswa tidak ditemukan"
  | errors_New msg => msg
  | sql_err e => driver_text e
  | rand_err => rand_text
  | runtime_panic msg => msg
  end.

(** A handler answers, unless the call below it panicked. *)
Definition respond {A} (call : M A) (on_ok : A -> Response)
           (on_err : error -> Response) : M Response :=
  fun w =>
    match call w with
    | (Ok a, w') => (Ok (on_ok a), w')
    | (Err (runtime_panic msg), w') => (Err (runtime_panic msg), w')
    | (Err err, w') => (Ok (on_err err), w')
    end.

(** The error branch of [Create]. *)
Definition Create_failed (err : error) : Response :=
  if errors_Is err ErrStudentNotFound
  then mkResponse StatusNotFound false (Error err)
  else mkResponse StatusBadRequest false (Error err).

Definition Create (req : CreateCertificateRequest.t) (issuedBy : string)
  : M Response :=
  if (CreateCertificateRequest.StudentID req =? "")
     || (List.length (CreateCertificateRequest.AchievementIDs req) =? 0)%nat
  then ret (mkResponse StatusBadRequest false "Validasi gagal")
  else
    respond (service.Create req issuedBy)
      (fun _ => mkResponse StatusCreated true "Sertifikat berhasil diterbitkan")
      Create_failed.

(** The error branch of [Revoke]. *)
Definition Revoke_failed (err : error) : Response :=
  if errors_Is err ErrCertificateNotFound
  then mkResponse StatusNotFound false (Error err)
  else mkResponse StatusBadRequest false (Error err).

Definition Revoke (id : string) : M Response :=
  respond (service.Revoke id)
    (fun _ => mkResponse StatusOK true "Sertifikat berhasil dicabut")
    Revoke_failed.

Definition Verify (token : string) : M Response :=
  respond (service.Verify token)
    (fun result =>
       if negb (VerifyResponse.IsValid result)
       then mkResponse StatusUnprocessableEntity false
              (VerifyResponse.Message result)
       else mkResponse StatusOK true (VerifyResponse.Message result))
    (fun _ =>
       mkResponse StatusInternalServerError false "Gagal memverifikasi sertifikat").

End WithLibraries.
End handler.

(** ** Notions used to state the properties *)

(** The store answers every round trip. *)
Definition healthy (w : World) : Prop :=
  forall n, upstream_down (oracle w) n = false.

(** [w] one effect later. *)
Definition bump (w : World) : World :=
  mkWorld (db w) (oracle w) (S (tick w)).

(** [w'] has the oracle of [w] and, when [strict], its store: what a
    computation that only reads (or, not [strict], may write) leaves in
    place. *)
Definition kept (strict : bool) (w w' : World) : Prop :=
  oracle w' = oracle w /\ (strict = true -> db w' = db w).

Definition keeps {A} (strict : bool) (m : M A) : Prop :=
  forall w, kept strict w (snd (m w)).

(** *** Characters of a UTF-8 string *)

(** Bytes [10xxxxxx] continue the character begun before them. *)
Definition is_continuation_byte (c : ascii) : bool :=
  let n := N_of_ascii c in ((128 <=? n) && (n <? 192))%N.

Fixpoint characters (s : string) : nat :=
  match s with
  | EmptyString => O
  | String c rest =>
      if is_continuation_byte c then characters rest else S (characters rest)
  end.

(** The first [n] characters of [s], each with all of its bytes. *)
Fixpoint first_characters (n : nat) (s : string) : string :=
  match s with
  | EmptyString => EmptyString
  | String c rest =>
      if is_continuation_byte c then String c (first_characters n rest)
      else
        match n with
        | O => EmptyString
        | S n' => String c (first_characters n' rest)
        end
  end.

(** Every character of [s] is one byte. *)
Fixpoint single_byte (s : string) : bool :=
  match s with
  | EmptyString => true
  | String c rest => (N_of_ascii c <? 128)%N && single_byte rest
  end.

Fixpoint repeat_string (n : nat) (s : string) : string :=
  match n with
  | O => EmptyString
  | S n' => (s ++ repeat_string n' s)%string
  end.

(** *** Certificate numbers *)

(** Certificates already issued in calendar year [Y]. *)
Definition issued_in_year (d : DB) (Y : Z) : Z :=
  Z.of_nat
    (List.length
       (filter (fun c => (Year (Certificate.IssuedAt c) =? Y)%Z) (certificates d))).

(** An integer in decimal, as the standard library prints it. *)
Definition decimal (z : Z) : string := NilZero.string_of_int (Z.to_int z).

(** [n] in decimal, zero-padded on the left to [width] digits. *)
Definition zero_padded (width : nat) (n : Z) : string :=
  let d := decimal n in
  (fmt.zeros (width - String.length d) ++ d)%string.

(** ["<office-code>/SKP/<year>/<seq>"] for the office code [421.2]. *)
Definition number_for (Y seq : Z) : string :=
  ("421.2/SKP/" ++ decimal Y ++ "/" ++ zero_padded 4 seq)%string.

(** *** Rows *)

Definition certificate_with_id (d : DB) (id : UUID) : option Certificate.t :=
  find (fun c => (Certificate.ID c =? id)%N) (certificates d).

Definition certificate_with_token (d : DB) (token : string)
  : option Certificate.t :=
  find (fun c => Certificate.QRToken c =? token) (certificates d).

(** [c'] carries the stored columns of [c] (the join fields aside). *)
Definition same_columns (c c' : Certificate.t) : Prop :=
  Certificate.with_joins None None None c'
  = Certificate.with_joins None None None c.

(** What must hold of a stored certificate [c] and its later state [c']:
    the number and the token are those of [c], and a revoked [c] is still
    revoked. *)
Definition carried_over (c c' : Certificate.t) : Prop :=
  Certificate.CertificateNumber c' = Certificate.CertificateNumber c
  /\ Certificate.QRToken c' = Certificate.QRToken c
  /\ (Certificate.Status c = "revoked" -> Certificate.Status c' = "revoked").

(** Every certificate of [d] is in [d'], carried over. *)
Definition preserved (d d' : DB) : Prop :=
  forall id c,
    certificate_with_id d id = Some c ->
    exists c', certificate_with_id d' id = Some c' /\ carried_over c c'.

(** [a] is on certificate [cid]. *)
Definition linked (d : DB) (cid : UUID) (a : Achievement.t) : Prop :=
  In a (achievements d) /\ In (cid, Achievement.ID a) (certificate_achievements d).

Fixpoint distinct (l : list UUID) : bool :=
  match l with
  | [] => true
  | x :: rest => negb (existsb (N.eqb x) rest) && distinct rest
  end.

(** The constraints of the schema that reading a certificate relies on:
    [certificates.id] is a primary key and [certificates.student_id]
    references a student. *)
Definition constraints_hold (d : DB) : bool :=
  distinct (map Certificate.ID (certificates d))
  && forallb (fun c => pg.has_student d (Certificate.StudentID c)) (certificates d).

(** [status] is one of the two states of the data model. *)
Definition statuses_known (d : DB) : bool :=
  forallb (fun c => (Certificate.Status c =? "active")
                    || (Certificate.Status c =? "revoked"))
          (certificates d).

(** *** The transaction of [Create] going through *)

(** Every round trip of [Create(cert, achievementIDs)] reaches the store
    (BEGIN, the certificate, one per join row, COMMIT) and every insert is
    accepted: the certificate row by the constraints of [certificates],
    stamped with the server clock of its round trip, and each join row by
    the primary key and the achievement foreign key of
    [certificate_achievements]. *)
Definition accepted (cert : Certificate.t) (achievementIDs : list UUID)
           (w : World) : Prop :=
  (forall k, (k <= List.length achievementIDs + 2)%nat ->
             upstream_down (oracle w) (tick w + k) = false)
  /\ (exists d, pg.insert_certificate cert (clock (oracle w) (S (tick w))) (db w)
                = Ok d)
  /\ distinct achievementIDs = true
  /\ forallb (pg.has_achievement (db w)) achievementIDs = true
  /\ forallb (fun a =>
                negb (existsb (fun p => (fst p =? Certificate.ID cert)%N
                                        && (snd p =? a)%N)
                              (certificate_achievements (db w))))
             achievementIDs = true.

(** *** Orders on achievements *)

Definition year_desc (a b : Achievement.t) : Prop :=
  (Achievement.Year b <= Achievement.Year a)%Z.

(** Year descending, then creation order. *)
Definition year_desc_then_creation (a b : Achievement.t) : Prop :=
  (Achievement.Year b < Achievement.Year a)%Z
  \/ (Achievement.Year a = Achievement.Year b
      /\ Time_leb (Achievement.CreatedAt a) (Achievement.CreatedAt b) = true).

(** *** Runs of the mutating operations *)

Section Steps.
Context {L : Libraries}.

Inductive operation :=
| repo_Create (cert : Certificate.t) (achievementIDs : list UUID)
| repo_UpdatePDFURL (id : UUID) (pdfURL : string)
| repo_Revoke (id : UUID)
| svc_Create (req : CreateCertificateRequest.t) (issuedBy : string)
| svc_uploaded (detail : CertificateDetail.t) (uploaded : option string)
| svc_Revoke (id : string).

Definition perform (o : operation) (w : World) : World :=
  match o with
  | repo_Create cert ids => snd (repository.Create cert ids w)
  | repo_UpdatePDFURL id url => snd (repository.UpdatePDFURL id url w)
  | repo_Revoke id => snd (repository.Revoke id w)
  | svc_Create req issuedBy => snd (service.Create req issuedBy w)
  | svc_uploaded detail uploaded =>
      snd (service.generateAndUploadPDF detail uploaded w)
  | svc_Revoke id => snd (service.Revoke id w)
  end.

(** [run ops w]: the world after the operations, first to last. *)
Definition run (ops : list operation) (w : World) : World :=
  fold_left (fun w o => perform o w) ops w.
End Steps.

(** ** Scenarios

    Concrete libraries, stores and oracles on which the properties below
    are exercised. *)

Module Scenario.

Fixpoint hex_value (s : string) (acc : N) : option N :=
  match s with
  | EmptyString => Some acc
  | String c rest =>
      let n := N_of_ascii c in
      if ((48 <=? n) && (n <=? 57))%N then hex_value rest (acc * 16 + (n - 48))%N
      else if ((97 <=? n) && (n <=? 102))%N then hex_value rest (acc * 16 + (n - 87))%N
      else None
  end.

(** Stands in for [uuid.Parse]: a non-empty run of lower-case hexadecimal
    digits is read as the identifier of that value. *)
Definition parse_id (s : string) : option UUID :=
  match s with
  | EmptyString => None
  | _ => hex_value s 0%N
  end.

Definition libraries : Libraries := {|
  uuid_Parse := parse_id;
  time_Parse := fun _ _ => None;
  driver_text := fun e =>
    match e with
    | UniqueViolation _ => "pq: duplicate key value violates unique constraint"
    | ForeignKeyViolation _ => "pq: insert or update violates foreign key constraint"
    | UndefinedColumn _ => "pq: column does not exist"
    | _ => "sql: error"
    end;
  rand_text := "rand: read failed"
|}.

Definition byte_of (n : nat) : Byte.byte :=
  match Byte.of_nat (n mod 256) with
  | Some b => b
  | None => Byte.x00
  end.

(** A store that answers, in [year], handing rows over in table order. *)
Definition oracle_in (year : Z) : Oracle :=
  mkOracle (fun _ => false)
           (fun n => mkTime year (Z.of_nat n))
           (fun n => N.of_nat (100 + n))
           (fun n => Some (fun i => byte_of (n + i)))
           (fun _ => O).

(** The same, with the round trip of tick [k] lost. *)
Definition oracle_down_at (year : Z) (k : nat) : Oracle :=
  mkOracle (fun n => (n =? k)%nat)
           (clock (oracle_in year)) (fresh_uuid (oracle_in year))
           (entropy (oracle_in year)) (scan_order (oracle_in year)).

(** The same as [oracle_in], with every scan handed over in its second
    arrangement. *)
Definition oracle_reordered (year : Z) : Oracle :=
  mkOracle (upstream_down (oracle_in year))
           (clock (oracle_in year)) (fresh_uuid (oracle_in year))
           (entropy (oracle_in year)) (fun _ => 1%nat).

Definition operator : User.t := User.mk 7%N "Operator".
Definition ani : Student.t := Student.mk 1%N "1234567890" "Ani" "Bandung" "XII-A".
Definition budi : Student.t := Student.mk 2%N "0987654321" "Budi" "Medan" "XI-B".

Definition olimpiade : Achievement.t :=
  Achievement.mk 11%N 1%N "Olimpiade Sains" "Kemdikbud" "Juara 1" 2024 (mkTime 2024 10).
Definition debat : Achievement.t :=
  Achievement.mk 12%N 1%N "Lomba Debat" "Dinas Pendidikan" "Juara 2" 2024 (mkTime 2024 20).
Definition catur : Achievement.t :=
  Achievement.mk 13%N 2%N "Turnamen Catur" "Percasi" "Juara 3" 2023 (mkTime 2023 5).

(** Two students, three achievements, no certificate yet. *)
Definition school : DB :=
  mkDB [operator] [ani; budi] [olimpiade; debat; catur] [] [] [].

(** [school] with a user whose identifier is all zero. *)
Definition school_with_nil_user : DB :=
  mkDB [operator; User.mk uuid_Nil "nobody"] [ani; budi]
       [olimpiade; debat; catur] [] [] [].

(** Ani, two achievements (identifiers [b] and [c] in hexadecimal). *)
Definition request : CreateCertificateRequest.t :=
  CreateCertificateRequest.mk "1" ["b"; "c"] "" "".

(** Ani, with an achievement of Budi ([d]). *)
Definition request_foreign : CreateCertificateRequest.t :=
  CreateCertificateRequest.mk "1" ["d"] "" "".

Definition world_2024 : World := mkWorld school (oracle_in 2024) 0.

(** A certificate of Ani with the given identifier, token and status. *)
Definition certificate (id : UUID) (token status : string) : Certificate.t :=
  Certificate.mk id 1%N "421.2/SKP/2024/0001" (mkTime 2024 0) (Some 7%N) None
                 token None status "" (mkTime 2024 1) None None None.

Definition school_with (c : Certificate.t) : DB :=
  mkDB [operator] [ani; budi] [olimpiade; debat; catur] []
       [c] [(Certificate.ID c, 11%N); (Certificate.ID c, 12%N)].

(** The clock passes from 2023 to 2024 at tick [k]. *)
Definition oracle_new_year (k : nat) : Oracle :=
  mkOracle (fun _ => false)
           (fun n => mkTime (if (n <? k)%nat then 2023 else 2024) (Z.of_nat n))
           (fresh_uuid (oracle_in 2024)) (entropy (oracle_in 2024))
           (scan_order (oracle_in 2024)).



(** Forty two-byte characters (U+00E9) and forty one-byte ones. *)
Definition e_acute : string :=
  String (ascii_of_nat 195) (String (ascii_of_nat 169) EmptyString).
Definition forty_accented : string := repeat_string 40 e_acute.
Definition forty_plain : string := "Lomba Karya Tulis Ilmiah Remaja Nasional".

End Scenario.

(** ** Students and achievements: the deletes that reach the certificates

    [certificates.student_id] references [students] with no action, so a
    student who holds a certificate cannot be deleted; [achievements],
    [achievement_attachments] and [certificate_achievements] are declared
    [ON DELETE CASCADE]. *)

Module cascade.

(** [DELETE FROM achievements WHERE id = $1] *)
Definition delete_achievement (id : UUID) (d : DB) : Result DB :=
  if negb (pg.has_achievement d id) then Ok d
  else
    Ok (mkDB (users d) (students d)
          (filter (fun a => negb (Achievement.ID a =? id)%N) (achievements d))
          (filter (fun r => negb (AchievementAttachment.AchievementID r =? id)%N)
             (achievement_attachments d))
          (certificates d)
          (filter (fun ca => negb (snd ca =? id)%N) (certificate_achievements d))).

(** The achievement rows [DELETE FROM students WHERE id = $1] takes with it
    have one of these identifiers. *)
Definition deleted_with_student (id : UUID) (d : DB) (aid : UUID) : bool :=
  existsb (fun a => (Achievement.ID a =? aid)%N
                    && (Achievement.StudentID a =? id)%N)
          (achievements d).

(** [DELETE FROM students WHERE id = $1] *)
Definition delete_student (id : UUID) (d : DB) : Result DB :=
  if negb (pg.has_student d id) then Ok d
  else if existsb (fun c => (Certificate.StudentID c =? id)%N) (certificates d)
  then pg.sqlfail (ForeignKeyViolation certificates_student_id_fkey)
  else
    Ok (mkDB (users d)
          (filter (fun s => negb (Student.ID s =? id)%N) (students d))
          (filter (fun a => negb (Achievement.StudentID a =? id)%N)
             (achievements d))
          (filter (fun r =>
                     negb (deleted_with_student id d
                             (AchievementAttachment.AchievementID r)))
             (achievement_attachments d))
          (certificates d)
          (filter (fun ca => negb (deleted_with_student id d (snd ca)))
             (certificate_achievements d))).

End cascade.

(** ** package repository: [studentRepository], [achievementRepository] *)

Module student_repository.

Definition FindByID (id : UUID) : M (option Student.t) :=
  try (student <- db_query (fun _ => pg.select_student id) ;; ret (Some student))
      (fun err =>
         if errors_Is err (sql_err ErrNoRows) then ret None else raise err).

Definition Delete (id : UUID) : M unit :=
  db_exec (fun _ => cascade.delete_student id).

End student_repository.

Module achievement_repository.

Definition Delete (id : UUID) : M unit :=
  db_exec (fun _ => cascade.delete_achievement id).

End achievement_repository.

(** ** package service: [studentService] *)

Module student_service.
Section WithLibraries.
Context {L : Libraries}.

Definition GetByID (id : string) : M Student.t :=
  match uuid_Parse id with
  | None => raise (errors_New "ID tidak valid")
  | Some uid =>
      student <- student_repository.FindByID uid ;;
      match student with
      | None => raise ErrStudentNotFound
      | Some student => ret student
      end
  end.

Definition Delete (id : string) : M unit :=
  GetByID id ;;;
  let uid :=
    match uuid_Parse id with
    | Some u => u
    | None => uuid_Nil
    end in
  student_repository.Delete uid.

End WithLibraries.
End student_service.

(** ** package service: [certificateService.GetAll]

    The service is written against the [CertificateRepository] interface;
    [FindAll] is the implementation it is given. *)

Module CertificateFilter.
Record t := mk {
  StudentID : string;
  Status : string;
  Page : Z;
  PerPage : Z
}.
End CertificateFilter.

Module Pagination.
Record t := mk {
  Page : Z;
  PerPage : Z;
  TotalItems : Z;
  TotalPages : Z
}.
End Pagination.

(** [x / y] and [x % y] on [int]: the quotient is truncated toward zero,
    and a zero divisor panics. *)
Definition int_quo (x y : Z) : option Z :=
  if (y =? 0)%Z then None else Some (GoInt.wrap (Z.quot x y)).

Definition int_rem (x y : Z) : option Z :=
  if (y =? 0)%Z then None else Some (Z.rem x y).

Module certificate_service.
Section WithRepository.
Variable FindAll : CertificateFilter.t -> M (list Certificate.t * Z).

Definition GetAll (filter : CertificateFilter.t)
  : M (list Certificate.t * Pagination.t) :=
  let filter :=
    if (CertificateFilter.Page filter <=? 0)%Z
    then CertificateFilter.mk (CertificateFilter.StudentID filter)
           (CertificateFilter.Status filter) 1
           (CertificateFilter.PerPage filter)
    else filter in
  let filter :=
    if (CertificateFilter.PerPage filter <=? 0)%Z
    then CertificateFilter.mk (CertificateFilter.StudentID filter)
           (CertificateFilter.Status filter)
           (CertificateFilter.Page filter) 10
    else filter in
  found <- FindAll filter ;;
  let (certs, total) := found in
  match int_quo total (CertificateFilter.PerPage filter),
        int_rem total (CertificateFilter.PerPage filter) with
  | Some totalPages, Some r =>
      let totalPages :=
        if (r >? 0)%Z then GoInt.add totalPages 1 else totalPages in
      ret (certs,
           Pagination.mk (CertificateFilter.Page filter)
             (CertificateFilter.PerPage filter) total totalPages)
  | _, _ => raise (runtime_panic "integer divide by zero")
  end.

End WithRepository.
End certificate_service.

(** ** package handler: [GetByID] of [CertificateHandler], [StudentHandler] *)

Module certificate_handler.
Section WithLibraries.
Context {L : Libraries}.

Definition GetByID (id : string) : M handler.Response :=
  handler.respond (service.GetByID id)
    (fun _ =>
       handler.mkResponse handler.StatusOK true
         "Data sertifikat berhasil diambil")
    (fun err =>
       if errors_Is err ErrCertificateNotFound
       then handler.mkResponse handler.StatusNotFound false (handler.Error err)
       else handler.mkResponse handler.StatusInternalServerError false
              "Gagal mengambil data sertifikat").

End WithLibraries.
End certificate_handler.

Module student_handler.
Section WithLibraries.
Context {L : Libraries}.

Definition GetByID (id : string) : M handler.Response :=
  handler.respond (student_service.GetByID id)
    (fun _ =>
       handler.mkResponse handler.StatusOK true "Data siswa berhasil diambil")
    (fun err =>
       if errors_Is err ErrStudentNotFound
       then handler.mkResponse handler.StatusNotFound false (handler.Error err)
       else handler.mkResponse handler.StatusInternalServerError false
              "Gagal mengambil data siswa").

Definition Delete (id : string) : M handler.Response :=
  handler.respond (student_service.Delete id)
    (fun _ =>
       handler.mkResponse handler.StatusOK true "Data siswa berhasil dihapus")
    (fun err =>
       if errors_Is err ErrStudentNotFound
       then handler.mkResponse handler.StatusNotFound false (handler.Error err)
       else handler.mkResponse handler.StatusInternalServerError false
              "Gagal menghapus data siswa").

End WithLibraries.
End student_handler.

(** ** package utils: the achievement table of [GenerateCertificatePDF] *)

Module PDFAchievement.
Record t := mk {
  No : Z;
  CompetitionName : string;
  Organizer : string;
  Category : string;
  Rank : string;
  Level : string;
  Year : Z
}.
End PDFAchievement.

Module utils_pdf.

(** The texts of the seven cells of one table row, left to right; [None]
    when one of the [truncate] calls panics. *)
Definition achievement_row (a : PDFAchievement.t) : option (list string) :=
  let no := fmt.verb_d (PDFAchievement.No a) in
  match utils.truncate (PDFAchievement.CompetitionName a) 30 with
  | None => None
  | Some name =>
      match utils.truncate (PDFAchievement.Organizer a) 22 with
      | None => None
      | Some organizer =>
          match utils.truncate (PDFAchievement.Category a) 14 with
          | None => None
          | Some category =>
              match utils.truncate (PDFAchievement.Level a) 14 with
              | None => None
              | Some level =>
                  Some [no; name; organizer; category; PDFAchievement.Rank a;
                        level; fmt.verb_d (PDFAchievement.Year a)]
              end
          end
      end
  end.

End utils_pdf.

(** ** Notions used for the further properties *)

(** A lower-case hexadecimal digit. *)
Definition is_hex_digit (c : ascii) : bool :=
  let n := N_of_ascii c in
  (((48 <=? n) && (n <=? 57)) || ((97 <=? n) && (n <=? 102)))%N.

Fixpoint all_hex (s : string) : bool :=
  match s with
  | EmptyString => true
  | String c rest => is_hex_digit c && all_hex rest
  end.

(** The references between the tables the model holds: every achievement
    has its student, every attachment its achievement, and every
    [certificate_achievements] row its certificate and its achievement. *)
Definition references_hold (d : DB) : bool :=
  forallb (fun a => pg.has_student d (Achievement.StudentID a)) (achievements d)
  && forallb (fun r => pg.has_achievement d (AchievementAttachment.AchievementID r))
       (achievement_attachments d)
  && forallb (fun ca => pg.has_certificate d (fst ca) && pg.has_achievement d (snd ca))
       (certificate_achievements d).

(** The mutating operations of the workflow together with the two deletes. *)
Section Maintenance.
Context {L : Libraries}.

Inductive maintenance :=
| workflow (o : operation)
| delete_student (id : string)
| delete_achievement (id : UUID).

Definition maintain (o : maintenance) (w : World) : World :=
  match o with
  | workflow o => perform o w
  | delete_student id => snd (student_service.Delete id w)
  | delete_achievement id => snd (achievement_repository.Delete id w)
  end.

Definition maintained (ops : list maintenance) (w : World) : World :=
  fold_left (fun w o => maintain o w) ops w.
End Maintenance.

(** Every error [m] can return satisfies [P]. *)
Definition raises {A} (P : error -> Prop) (m : M A) : Prop :=
  forall w e, fst (m w) = Err e -> P e.

(** The errors [certificateService.Create] is written to return: a
    message made with [errors.New], an error of the driver, or the failure
    of [crypto/rand]. *)
Definition creation_error (e : error) : Prop :=
  match e with
  | errors_New _ | sql_err _ | rand_err => True
  | ErrCertificateNotFound | ErrCertificateRevoked | ErrStudentNotFound
  | runtime_panic _ => False
  end.

(** The schema constraints the model holds, together. *)
Definition consistent (d : DB) : Prop :=
  constraints_hold d = true /\ references_hold d = true.

(** One step of the store: what a single operation of [maintenance] can do
    to it. Nothing; the rows of one issuance; one [pdf_url]; the delete of
    a student with its cascade; the delete of an achievement with its
    cascade. *)
Inductive change (d : DB) : DB -> Prop :=
| change_none : change d d
| change_issue (cert : Certificate.t) (now : Time) (ids : list UUID) :
    pg.insert_certificate cert now d
    = Ok (with_certificates (certificates d ++ [pg.inserted_row cert now]) d) ->
    distinct ids = true ->
    forallb (pg.has_achievement d) ids = true ->
    change d
      (with_certificate_achievements
         (certificate_achievements d ++ map (fun a => (Certificate.ID cert, a)) ids)
         (with_certificates (certificates d ++ [pg.inserted_row cert now]) d))
| change_pdf_url (id : UUID) (url : string) :
    change d
      (with_certificates
         (map (fun c => if (Certificate.ID c =? id)%N
                        then Certificate.with_PDFURL (Some url) c else c)
              (certificates d))
         d)
| change_delete_student (uid : UUID) (d' : DB) :
    pg.has_student d uid = true ->
    cascade.delete_student uid d = Ok d' ->
    change d d'
| change_delete_achievement (id : UUID) (d' : DB) :
    cascade.delete_achievement id d = Ok d' ->
    change d d'.

(** The certificates of [d] were all issued in year [Y] and carry the
    numbers of [Y] in sequence from one, in table order. *)
Definition numbered (Y : Z) (d : DB) : Prop :=
  map (fun c => (Certificate.CertificateNumber c, Year (Certificate.IssuedAt c)))
      (certificates d)
  = map (fun k => (number_for Y (Z.of_nat k), Y))
        (seq 1 (List.length (certificates d))).

(** Every operation but the repository's [Create] called with a
    certificate made elsewhere. *)
Definition through_service (o : maintenance) : Prop :=
  match o with
  | workflow (repo_Create _ _) => False
  | _ => True
  end.

(** Further cases on which the properties are exercised. *)
Module Cases.

(** An attachment of the achievement [olimpiade]. *)
Definition piagam : AchievementAttachment.t :=
  AchievementAttachment.mk 21%N 11%N "https://cdn/piagam.jpg".

(** [school_with c], with that attachment. *)
Definition school_with_attachment (c : Certificate.t) : DB :=
  mkDB [Scenario.operator] [Scenario.ani; Scenario.budi]
       [Scenario.olimpiade; Scenario.debat; Scenario.catur] [piagam]
       [c] [(Certificate.ID c, 11%N); (Certificate.ID c, 12%N)].

(** A repository whose [FindAll] reports [total] certificates and returns
    none of them. *)
Definition FindAll_reporting (total : Z)
  : CertificateFilter.t -> M (list Certificate.t * Z) :=
  fun _ => ret ([], total).

End Cases.

(* ================================================================== *)
(** * Part II: properties                                              *)
(* ================================================================== *)

(** ** Strings *)

Lemma length_append (s t : string) :
  String.length (s ++ t)%string = (String.length s + String.length t)%nat.
Proof. induction s as [|c s IH]; simpl; [reflexivity | now rewrite IH]. Qed.

Lemma length_substring_0 (n : nat) (s : string) :
  (n <= String.length s)%nat -> String.length (substring 0 n s) = n.
Proof.
  revert n; induction s as [|c s IH]; intros [|n] H; simpl in *;
    try reflexivity; try lia.
  rewrite IH; lia.
Qed.

Lemma single_byte_not_continuation (c : ascii) :
  (N_of_ascii c <? 128)%N = true -> is_continuation_byte c = false.
Proof.
  unfold is_continuation_byte; intros H.
  apply N.ltb_lt in H.
  destruct (128 <=? N_of_ascii c)%N eqn:E; [apply N.leb_le in E; lia | reflexivity].
Qed.

Lemma single_byte_characters (s : string) :
  single_byte s = true -> characters s = String.length s.
Proof.
  induction s as [|c s IH]; simpl; [reflexivity|].
  intros H; apply andb_prop in H as [Hc Hs].
  now rewrite (single_byte_not_continuation c Hc), IH.
Qed.

Lemma single_byte_first_characters (s : string) (n : nat) :
  single_byte s = true -> first_characters n s = substring 0 n s.
Proof.
  revert n; induction s as [|c s IH]; intros n H; simpl.
  - now destruct n.
  - apply andb_prop in H as [Hc Hs].
    rewrite (single_byte_not_continuation c Hc).
    destruct n; [reflexivity | now rewrite IH].
Qed.

Lemma wrap_in_range (z : Z) : GoInt.in_range z -> GoInt.wrap z = z.
Proof.
  unfold GoInt.in_range, GoInt.min_int, GoInt.max_int, GoInt.wrap; intros H.
  rewrite Z.mod_small; lia.
Qed.

(** ** C4: truncation *)

(** C4, as amended. For every string [s] and width [max >= 3] (the call
    sites pass 30, 22 and 14): when [s] is longer than [max] bytes,
    [truncate(s, max)] does not panic and returns the first [max - 3] bytes
    of [s] followed by ["..."], which is [max] bytes long. When every
    character of [s] is a single byte, these bytes are the first [max - 3]
    characters of [s]. *)
Theorem truncate_cuts_bytes (s : string) (max : Z) :
  (3 <= max <= GoInt.max_int)%Z ->
  (max < len s)%Z ->
  utils.truncate s max
  = Some (substring 0 (Z.to_nat (max - 3)) s ++ "...")%string
  /\ len (substring 0 (Z.to_nat (max - 3)) s ++ "...")%string = max
  /\ (single_byte s = true ->
      Z.of_nat (characters s) = len s
      /\ utils.truncate s max
         = Some (first_characters (Z.to_nat (max - 3)) s ++ "...")%string).
Proof.
  intros Hmax Hlen.
  assert (Hsub : GoInt.sub max 3 = (max - 3)%Z).
  { unfold GoInt.sub. apply wrap_in_range.
    unfold GoInt.in_range, GoInt.min_int, GoInt.max_int in *. lia. }
  assert (Htr : utils.truncate s max
                = Some (substring 0 (Z.to_nat (max - 3)) s ++ "...")%string).
  { unfold utils.truncate, slice_to.
    destruct (len s <=? max)%Z eqn:E; [apply Z.leb_le in E; lia|].
    rewrite Hsub.
    destruct (0 <=? max - 3)%Z eqn:E1; [|apply Z.leb_gt in E1; lia].
    destruct (max - 3 <=? len s)%Z eqn:E2; [|apply Z.leb_gt in E2; lia].
    reflexivity. }
  split; [exact Htr|]. split.
  - unfold len in *. rewrite length_append, length_substring_0 by lia.
    simpl. lia.
  - intros Hs. split.
    + unfold len. now rewrite single_byte_characters.
    + now rewrite single_byte_first_characters.
Qed.

(** A 40-character name in a 30-character column: its first 27 characters
    and the ellipsis. *)
Lemma truncate_cuts_bytes_witness :
  utils.truncate Scenario.forty_plain 30
  = Some "Lomba Karya Tulis Ilmiah Re..."
  /\ utils.truncate Scenario.forty_plain 30
     = Some (first_characters 27 Scenario.forty_plain ++ "...")%string.
Proof.
  destruct (truncate_cuts_bytes Scenario.forty_plain 30) as (H1 & _ & H3).
  - unfold GoInt.max_int; lia.
  - vm_compute; reflexivity.
  - split; [exact H1|]. apply H3. reflexivity.
Defined.

(** C4, as stated, fails on multi-byte content: forty two-byte characters
    are longer than a 30-character column, and the result is not their
    first 27 characters plus the ellipsis (the cut is made after 27 bytes,
    in the middle of the fourteenth character). *)
Lemma truncate_splits_characters :
  ~ (forall (s : string) (max : Z),
        (max < Z.of_nat (characters s))%Z ->
        utils.truncate s max
        = Some (first_characters (Z.to_nat (max - 3)) s ++ "...")%string).
Proof.
  intros H.
  specialize (H Scenario.forty_accented 30%Z).
  assert (Hc : (30 < Z.of_nat (characters Scenario.forty_accented))%Z)
    by (vm_compute; reflexivity).
  specialize (H Hc).
  vm_compute in H. discriminate H.
Qed.

(** ** What a computation leaves in place *)

Lemma kept_refl (strict : bool) (w : World) : kept strict w w.
Proof. split; auto. Qed.

Lemma kept_trans (strict : bool) (a b c : World) :
  kept strict a b -> kept strict b c -> kept strict a c.
Proof.
  intros [H1 H2] [H3 H4]; split.
  - congruence.
  - intros E. rewrite (H4 E). auto.
Qed.

Lemma kept_weaken (w w' : World) : kept true w w' -> kept false w w'.
Proof. intros [H _]; split; [exact H | discriminate]. Qed.

Lemma keeps_weaken {A} (m : M A) : keeps true m -> keeps false m.
Proof. intros H w; apply kept_weaken, H. Qed.

Lemma kept_db (w w' : World) : kept true w w' -> db w' = db w.
Proof. intros [_ H]; auto. Qed.

Lemma keeps_ret {A} (strict : bool) (a : A) : keeps strict (ret a).
Proof. intros w; apply kept_refl. Qed.

Lemma keeps_raise {A} (strict : bool) (e : error) : keeps strict (@raise A e).
Proof. intros w; apply kept_refl. Qed.

Lemma keeps_lift {A} (strict : bool) (r : Result A) : keeps strict (lift r).
Proof. intros w; apply kept_refl. Qed.

Lemma keeps_get_db (strict : bool) : keeps strict get_db.
Proof. intros w; apply kept_refl. Qed.

Lemma keeps_put_db (d : DB) : keeps false (put_db d).
Proof. intros w; split; [reflexivity | discriminate]. Qed.

Lemma keeps_next {A} (strict : bool) (f : Oracle -> nat -> A) :
  keeps strict (next f).
Proof. intros w; split; auto. Qed.

Lemma keeps_round_trip {A} (strict : bool) (stmt : Ctx -> Result A) :
  keeps strict (round_trip stmt).
Proof.
  intros w; unfold round_trip.
  destruct (upstream_down (oracle w) (tick w)); split; auto.
Qed.

Lemma keeps_bind {A B} (strict : bool) (m : M A) (k : A -> M B) :
  keeps strict m -> (forall a, keeps strict (k a)) -> keeps strict (bind m k).
Proof.
  intros Hm Hk w; unfold bind.
  specialize (Hm w). destruct (m w) as [[a|e] w1]; simpl in *.
  - eapply kept_trans; [exact Hm | apply Hk].
  - exact Hm.
Qed.

Lemma keeps_try {A} (strict : bool) (m : M A) (h : error -> M A) :
  keeps strict m -> (forall e, keeps strict (h e)) -> keeps strict (try m h).
Proof.
  intros Hm Hh w; unfold try.
  specialize (Hm w). destruct (m w) as [[a|e] w1]; simpl in *.
  - exact Hm.
  - eapply kept_trans; [exact Hm | apply Hh].
Qed.

Lemma keeps_ignore_err {A} (strict : bool) (m : M A) :
  keeps strict m -> keeps strict (ignore_err m).
Proof.
  intros Hm w; unfold ignore_err.
  specialize (Hm w). destruct (m w) as [[a|e] w1]; exact Hm.
Qed.

Lemma keeps_defer {A} (strict : bool) (cleanup : M unit) (body : M A) :
  keeps strict cleanup -> keeps strict body -> keeps strict (defer cleanup body).
Proof.
  intros Hc Hb w; unfold defer.
  specialize (Hb w). destruct (body w) as [r w1]; simpl in *.
  eapply kept_trans; [exact Hb | apply Hc].
Qed.

Lemma keeps_mapM {A B} (strict : bool) (f : A -> M B) (l : list A) :
  (forall a, keeps strict (f a)) -> keeps strict (mapM f l).
Proof.
  intros Hf; induction l as [|a l IH]; simpl.
  - apply keeps_ret.
  - apply keeps_bind; [apply Hf|]. intros b.
    apply keeps_bind; [exact IH|]. intros bs. apply keeps_ret.
Qed.

Lemma keeps_db_query {A} (strict : bool) (q : Ctx -> DB -> Result A) :
  keeps strict (db_query q).
Proof. intros w; unfold db_query; apply keeps_round_trip. Qed.

Lemma keeps_db_exec (s : Ctx -> DB -> Result DB) : keeps false (db_exec s).
Proof.
  unfold db_exec. apply keeps_bind; [apply keeps_db_query|].
  intros d; apply keeps_put_db.
Qed.

Create HintDb keeps.
#[local] Hint Resolve keeps_ret keeps_raise keeps_lift keeps_get_db keeps_next
  keeps_round_trip keeps_db_query keeps_put_db keeps_db_exec : keeps.

(** Decompose a computation along its binds and case analyses. *)
Ltac keeps_step :=
  match goal with
  | |- forall _, _ => intro
  | |- keeps _ (bind _ _) => apply keeps_bind
  | |- keeps _ (try _ _) => apply keeps_try
  | |- keeps _ (ignore_err _) => apply keeps_ignore_err
  | |- keeps _ (defer _ _) => apply keeps_defer
  | |- keeps _ (mapM _ _) => apply keeps_mapM
  | |- keeps _ (match ?x with _ => _ end) => destruct x
  | |- keeps _ (if ?x then _ else _) => destruct x
  | |- keeps _ (let (_, _) := ?x in _) => destruct x
  end.

Ltac keeps_tac := repeat keeps_step; auto with keeps.

(** *** The reads of the repository and the service *)

Lemma keeps_FindByID (strict : bool) (id : UUID) :
  keeps strict (repository.FindByID id).
Proof. unfold repository.FindByID; keeps_tac. Qed.

Lemma keeps_FindByQRToken (strict : bool) (token : string) :
  keeps strict (repository.FindByQRToken token).
Proof. unfold repository.FindByQRToken; keeps_tac. Qed.

Lemma keeps_FindByIDWithDetail (strict : bool) (id : UUID) :
  keeps strict (repository.FindByIDWithDetail id).
Proof.
  unfold repository.FindByIDWithDetail.
  apply keeps_bind; [apply keeps_FindByID|]. keeps_tac.
Qed.

Lemma keeps_CountByYear (strict : bool) (year : Z) :
  keeps strict (repository.CountByYear year).
Proof. unfold repository.CountByYear; keeps_tac. Qed.

Lemma keeps_insert_relations (strict : bool) (cid : UUID) (ids : list UUID) :
  forall tx, keeps strict (repository.insert_relations cid ids tx).
Proof.
  induction ids as [|a ids IH]; intros tx; simpl.
  - apply keeps_ret.
  - apply keeps_bind; [unfold tx_exec; apply keeps_round_trip | intros; apply IH].
Qed.

Lemma keeps_repo_Create (cert : Certificate.t) (ids : list UUID) :
  keeps false (repository.Create cert ids).
Proof.
  unfold repository.Create, BeginTxx, Rollback, Commit, tx_exec.
  keeps_tac. apply keeps_insert_relations.
Qed.

Lemma keeps_UpdatePDFURL (id : UUID) (url : string) :
  keeps false (repository.UpdatePDFURL id url).
Proof. unfold repository.UpdatePDFURL; keeps_tac. Qed.

Lemma keeps_repo_Revoke (id : UUID) : keeps false (repository.Revoke id).
Proof. unfold repository.Revoke, time_Now; keeps_tac. Qed.

Section ServiceKeeps.
Context {L : Libraries}.

Lemma keeps_parse_achievement_ids (strict : bool) (ids : list string) :
  keeps strict (service.parse_achievement_ids ids).
Proof.
  induction ids as [|a ids IH]; simpl; [apply keeps_ret|].
  destruct (uuid_Parse a); [|apply keeps_raise].
  apply keeps_bind; [exact IH | intros; apply keeps_ret].
Qed.

Lemma keeps_Create_build (strict : bool) req issuedBy :
  keeps strict (service.Create_build req issuedBy).
Proof.
  unfold service.Create_build, utils.GenerateCertificateNumber,
    utils.GenerateQRToken, rand_Read, time_Now, uuid_New.
  destruct (uuid_Parse (CreateCertificateRequest.StudentID req));
    [|apply keeps_raise].
  destruct (_ =? 0)%nat; [apply keeps_raise|].
  apply keeps_bind; [apply keeps_parse_achievement_ids|]. intros ids.
  apply keeps_bind; [apply keeps_next|]. intros now.
  apply keeps_bind; [apply keeps_CountByYear|]. intros count.
  keeps_tac.
Qed.

Lemma keeps_Create_store built : keeps false (service.Create_store built).
Proof.
  unfold service.Create_store. destruct built as [cert ids].
  apply keeps_bind; [apply keeps_repo_Create|]. intros _.
  apply keeps_bind; [apply keeps_weaken, keeps_FindByIDWithDetail|].
  intros; apply keeps_ret.
Qed.
End ServiceKeeps.

(** ** C2: the transaction of [repository.Create] *)

Lemma with_certificate_achievements_id (d : DB) :
  with_certificate_achievements (certificate_achievements d) d = d.
Proof. now destruct d. Qed.

Lemma insert_certificate_achievement_Ok (cid aid : UUID) (d d' : DB) :
  pg.insert_certificate_achievement cid aid d = Ok d' ->
  d' = with_certificate_achievements (certificate_achievements d ++ [(cid, aid)]) d.
Proof.
  unfold pg.insert_certificate_achievement, pg.sqlfail.
  repeat match goal with |- context [if ?b then _ else _] => destruct b end;
    intros H; inversion H; reflexivity.
Qed.

Lemma insert_certificate_Ok (c : Certificate.t) (now : Time) (d d' : DB) :
  pg.insert_certificate c now d = Ok d' ->
  d' = with_certificates (certificates d ++ [pg.inserted_row c now]) d
  /\ pg.has_certificate d (Certificate.ID c) = false
  /\ pg.has_student d (Certificate.StudentID c) = true
  /\ (forall u, Certificate.IssuedBy c = Some u -> pg.has_user d u = true).
Proof.
  unfold pg.insert_certificate, pg.sqlfail.
  destruct (pg.has_certificate d (Certificate.ID c)); [discriminate|].
  destruct (existsb _ _); [discriminate|].
  destruct (existsb _ _); [discriminate|].
  destruct (pg.has_student d (Certificate.StudentID c)); [|discriminate].
  simpl. destruct (Certificate.IssuedBy c) as [u|].
  - destruct (pg.has_user d u) eqn:E; simpl; [|discriminate].
    intros H; inversion H; repeat split; auto.
    intros u' Hu; inversion Hu; subst; exact E.
  - intros H; inversion H; repeat split; auto. discriminate.
Qed.

Lemma insert_relations_Ok (cid : UUID) (ids : list UUID) :
  forall (tx tx' : Tx) (w : World),
    fst (repository.insert_relations cid ids tx w) = Ok tx' ->
    tx' = with_certificate_achievements
            (certificate_achievements tx ++ map (fun a => (cid, a)) ids) tx.
Proof.
  induction ids as [|a ids IH]; intros tx tx' w; simpl.
  - unfold ret; simpl. intros H; inversion H.
    now rewrite app_nil_r, with_certificate_achievements_id.
  - unfold bind, tx_exec, round_trip.
    destruct (upstream_down (oracle w) (tick w)); [discriminate|].
    destruct (pg.insert_certificate_achievement cid a tx) as [tx1|e] eqn:E;
      [|discriminate].
    intros H. apply IH in H. subst tx'.
    apply insert_certificate_achievement_Ok in E. subst tx1.
    destruct tx; simpl. now rewrite <- app_assoc.
Qed.

(** The outcome of [repository.Create]: an error with the store as it was,
    or success with the store of the working copy after every insert. *)
Lemma repo_Create_outcome (cert : Certificate.t) (ids : list UUID) (w : World) :
  (exists e, fst (repository.Create cert ids w) = Err e
             /\ db (snd (repository.Create cert ids w)) = db w)
  \/ (fst (repository.Create cert ids w) = Ok tt
      /\ exists now,
          pg.insert_certificate cert now (db w)
          = Ok (with_certificates
                  (certificates (db w) ++ [pg.inserted_row cert now]) (db w))
          /\ db (snd (repository.Create cert ids w))
             = with_certificate_achievements
                 (certificate_achievements (db w)
                  ++ map (fun a => (Certificate.ID cert, a)) ids)
                 (with_certificates
                    (certificates (db w) ++ [pg.inserted_row cert now]) (db w))).
Proof.
  destruct (repository.Create cert ids w) as [r w'] eqn:E; simpl.
  unfold repository.Create, BeginTxx, db_query, defer, Rollback, bind in E.
  unfold round_trip at 1 in E.
  destruct (upstream_down (oracle w) (tick w)).
  { inversion E; subst. left; eexists; split; reflexivity. }
  set (w1 := mkWorld (db w) (oracle w) (S (tick w))) in *.
  unfold tx_exec at 1, round_trip at 1 in E.
  destruct (upstream_down (oracle w1) (tick w1)).
  { inversion E; subst. left; eexists; split; reflexivity. }
  set (now := clock (oracle w1) (tick w1)) in *.
  simpl server_now in E.
  destruct (pg.insert_certificate cert now (db w)) as [tx1|e] eqn:E1.
  2:{ inversion E; subst. left; exists e; split; reflexivity. }
  set (w2 := mkWorld (db w1) (oracle w1) (S (tick w1))) in *.
  pose proof (keeps_insert_relations true (Certificate.ID cert) ids tx1 w2) as K.
  pose proof (insert_relations_Ok (Certificate.ID cert) ids tx1) as R.
  destruct (repository.insert_relations (Certificate.ID cert) ids tx1 w2)
    as [[tx2|e] w3] eqn:E2; simpl in K.
  2:{ inversion E; subst. left; exists e; split; [reflexivity|].
      now rewrite (kept_db _ _ K). }
  unfold Commit, bind, round_trip in E.
  destruct (upstream_down (oracle w3) (tick w3)).
  { inversion E; subst. left; eexists; split; [reflexivity|].
    simpl. now rewrite (kept_db _ _ K). }
  inversion E; subst r w'; clear E.
  right. split; [reflexivity|]. exists now.
  pose proof (insert_certificate_Ok _ _ _ _ E1) as (Htx1 & _).
  split; [now rewrite E1, Htx1|].
  simpl. specialize (R tx2 w2). rewrite E2 in R.
  rewrite (R eq_refl), Htx1. reflexivity.
Qed.

(** What a successful loop of join-row inserts has checked. *)
Lemma insert_relations_checked (cid : UUID) (ids : list UUID) :
  forall (tx tx' : Tx) (w : World),
    fst (repository.insert_relations cid ids tx w) = Ok tx' ->
    distinct ids = true
    /\ forallb (pg.has_achievement tx) ids = true
    /\ forallb (fun a => negb (existsb (fun p => (fst p =? cid)%N && (snd p =? a)%N)
                                       (certificate_achievements tx))) ids = true.
Proof.
  induction ids as [|a ids IH]; intros tx tx' w; simpl; [auto|].
  unfold bind, tx_exec, round_trip.
  destruct (upstream_down (oracle w) (tick w)); [discriminate|].
  destruct (pg.insert_certificate_achievement cid a tx) as [tx1|e] eqn:E;
    [|discriminate].
  intros H. apply IH in H as (Hd & Ha & Hn).
  pose proof (insert_certificate_achievement_Ok _ _ _ _ E) as Htx1.
  revert E. unfold pg.insert_certificate_achievement, pg.sqlfail.
  match goal with
  | |- context [if ?b then _ else _] => destruct b eqn:Ex; [discriminate|]
  end.
  destruct (pg.has_certificate tx cid); [|discriminate].
  destruct (pg.has_achievement tx a) eqn:Eha; [|discriminate].
  intros _. subst tx1. simpl.
  assert (Hrest : forall r, In r ids ->
            (a =? r)%N = false
            /\ existsb (fun p => (fst p =? cid)%N && (snd p =? r)%N)
                       (certificate_achievements tx) = false).
  { intros r Hr. rewrite forallb_forall in Hn. specialize (Hn r Hr).
    apply negb_true_iff in Hn. simpl in Hn.
    rewrite existsb_app in Hn. apply orb_false_iff in Hn as [Hn1 Hn2].
    split; [|exact Hn1]. simpl in Hn2. rewrite N.eqb_refl in Hn2.
    rewrite orb_false_r in Hn2. simpl in Hn2. exact Hn2. }
  repeat split.
  - rewrite Hd, andb_true_r. apply negb_true_iff.
    destruct (existsb (N.eqb a) ids) eqn:Ee; [|reflexivity].
    apply existsb_exists in Ee as (r & Hr & Hra).
    destruct (Hrest r Hr) as [Hne _]. congruence.
  - exact Ha.
  - apply forallb_forall. intros r Hr. apply negb_true_iff.
    now destruct (Hrest r Hr).
Qed.

Lemma insert_relations_accepted (cid : UUID) (ids : list UUID) :
  forall (tx : Tx) (w : World),
    (forall i, (i < List.length ids)%nat ->
               upstream_down (oracle w) (tick w + i) = false) ->
    pg.has_certificate tx cid = true ->
    distinct ids = true ->
    forallb (pg.has_achievement tx) ids = true ->
    forallb (fun a => negb (existsb (fun p => (fst p =? cid)%N && (snd p =? a)%N)
                                    (certificate_achievements tx))) ids = true ->
    repository.insert_relations cid ids tx w
    = (Ok (with_certificate_achievements
             (certificate_achievements tx ++ map (fun a => (cid, a)) ids) tx),
       mkWorld (db w) (oracle w) (tick w + List.length ids)).
Proof.
  induction ids as [|a ids IH]; intros tx w Hup Hc Hd Ha Hn; simpl.
  - unfold ret. rewrite app_nil_r, with_certificate_achievements_id, Nat.add_0_r.
    now destruct w.
  - simpl in Hd, Ha, Hn.
    apply andb_true_iff in Hd as [Hda Hd].
    apply andb_true_iff in Ha as [Haa Ha].
    apply andb_true_iff in Hn as [Hna Hn].
    apply negb_true_iff in Hna. apply negb_true_iff in Hda.
    unfold bind, tx_exec, round_trip.
    pose proof (Hup O ltac:(simpl; lia)) as H0. rewrite Nat.add_0_r in H0.
    rewrite H0.
    unfold pg.insert_certificate_achievement. rewrite Hna, Hc, Haa. simpl negb.
    cbv iota.
    rewrite IH.
    + simpl. f_equal.
      * f_equal. destruct tx; simpl. now rewrite <- app_assoc.
      * f_equal. lia.
    + intros i Hi. simpl. rewrite <- Nat.add_succ_r. apply Hup. simpl. lia.
    + exact Hc.
    + exact Hd.
    + exact Ha.
    + apply forallb_forall. intros r Hr. rewrite forallb_forall in Hn.
      specialize (Hn r Hr). apply negb_true_iff in Hn. apply negb_true_iff.
      unfold with_certificate_achievements. cbn [certificate_achievements].
      rewrite existsb_app. apply orb_false_iff. split; [exact Hn|].
      cbn [existsb fst snd]. rewrite N.eqb_refl, orb_false_r. cbn [andb].
      destruct (a =? r)%N eqn:E; [|reflexivity].
      exfalso. assert (existsb (N.eqb a) ids = true); [|congruence].
      apply existsb_exists. exists r. split; [exact Hr | exact E].
Qed.

Lemma insert_relations_reached (cid : UUID) (ids : list UUID) :
  forall (tx tx' : Tx) (w w' : World),
    repository.insert_relations cid ids tx w = (Ok tx', w') ->
    (forall i, (i < List.length ids)%nat ->
               upstream_down (oracle w) (tick w + i) = false)
    /\ w' = mkWorld (db w) (oracle w) (tick w + List.length ids).
Proof.
  induction ids as [|a ids IH]; intros tx tx' w w'; simpl.
  - unfold ret. intros E; inversion E; subst. split; [intros i Hi; lia|].
    rewrite Nat.add_0_r. now destruct w'.
  - unfold bind, tx_exec, round_trip.
    destruct (upstream_down (oracle w) (tick w)) eqn:E0; [discriminate|].
    destruct (pg.insert_certificate_achievement cid a tx) as [tx1|e];
      [|discriminate].
    intros E. apply IH in E as [Hup ->]. simpl in *. split.
    + intros [|i] Hi; [now rewrite Nat.add_0_r|].
      rewrite Nat.add_succ_r. apply Hup. lia.
    + f_equal. lia.
Qed.

(** When the transaction goes through, [Create] returns no error and the
    store is the working copy after every insert. *)
Lemma repo_Create_accepted (cert : Certificate.t) (ids : list UUID) (w : World) :
  accepted cert ids w ->
  repository.Create cert ids w
  = (Ok tt,
     mkWorld
       (with_certificate_achievements
          (certificate_achievements (db w)
           ++ map (fun a => (Certificate.ID cert, a)) ids)
          (with_certificates
             (certificates (db w)
              ++ [pg.inserted_row cert (clock (oracle w) (S (tick w)))]) (db w)))
       (oracle w) (tick w + List.length ids + 3)).
Proof.
  intros (Hup & (d & Hins) & Hd & Ha & Hn).
  pose proof (insert_certificate_Ok _ _ _ _ Hins) as (-> & Hno & _).
  unfold repository.Create, BeginTxx, db_query, defer, Rollback, bind.
  unfold round_trip at 1.
  pose proof (Hup 0%nat ltac:(lia)) as H0. rewrite Nat.add_0_r in H0. rewrite H0.
  unfold tx_exec at 1, round_trip at 1. simpl oracle. simpl tick. simpl db.
  pose proof (Hup 1%nat ltac:(lia)) as H1. rewrite Nat.add_1_r in H1. rewrite H1.
  simpl server_now. rewrite Hins.
  rewrite insert_relations_accepted; simpl oracle; simpl tick; simpl db.
  - unfold Commit, bind, round_trip, put_db, ret. simpl oracle. simpl tick.
    pose proof (Hup (List.length ids + 2)%nat ltac:(lia)) as H2.
    match goal with
    | |- context [upstream_down (oracle w) ?n] =>
        replace n with (tick w + (List.length ids + 2))%nat by lia
    end.
    rewrite H2. simpl. f_equal. f_equal. lia.
  - intros i Hi. replace (S (S (tick w)) + i)%nat with (tick w + (i + 2))%nat by lia.
    apply Hup. lia.
  - unfold pg.has_certificate. simpl. rewrite existsb_app. simpl.
    rewrite N.eqb_refl. now rewrite orb_true_r.
  - exact Hd.
  - exact Ha.
  - exact Hn.
Qed.

(** Conversely, [Create] returns no error only when the transaction went
    through. *)
Lemma repo_Create_reached (cert : Certificate.t) (ids : list UUID) (w : World) :
  fst (repository.Create cert ids w) = Ok tt -> accepted cert ids w.
Proof.
  destruct (repository.Create cert ids w) as [r w'] eqn:E; simpl.
  unfold repository.Create, BeginTxx, db_query, defer, Rollback, bind in E.
  unfold round_trip at 1 in E.
  destruct (upstream_down (oracle w) (tick w)) eqn:E0.
  { inversion E; subst. discriminate. }
  unfold tx_exec at 1, round_trip at 1 in E.
  simpl oracle in E. simpl tick in E. simpl db in E.
  destruct (upstream_down (oracle w) (S (tick w))) eqn:E1.
  { inversion E; subst. discriminate. }
  simpl server_now in E.
  destruct (pg.insert_certificate cert (clock (oracle w) (S (tick w))) (db w))
    as [tx1|e] eqn:Eins.
  2:{ inversion E; subst. discriminate. }
  pose proof (insert_relations_checked (Certificate.ID cert) ids tx1) as Hchk.
  pose proof (insert_relations_reached (Certificate.ID cert) ids tx1) as Hreach.
  destruct (repository.insert_relations (Certificate.ID cert) ids tx1 _)
    as [[tx2|e] w3] eqn:E2.
  2:{ inversion E; subst. discriminate. }
  assert (Hfst : fst (repository.insert_relations (Certificate.ID cert) ids tx1
                        (mkWorld (db w) (oracle w) (S (S (tick w))))) = Ok tx2)
    by now rewrite E2.
  destruct (Hchk _ _ Hfst) as (Hd & Ha & Hn).
  destruct (Hreach tx2 _ _ E2) as (Hup & ->).
  simpl oracle in *. simpl tick in *. simpl db in *.
  unfold Commit, bind, round_trip in E. simpl oracle in E. simpl tick in E.
  destruct (upstream_down (oracle w) (S (S (tick w + List.length ids)))) eqn:E3.
  { inversion E; subst. discriminate. }
  intros _.
  pose proof (insert_certificate_Ok _ _ _ _ Eins) as (Htx1 & _).
  subst tx1.
  split; [|split; [eauto | split; [exact Hd | split; [exact Ha | exact Hn]]]].
  intros k Hk.
  destruct k as [|[|k]].
  - now rewrite Nat.add_0_r.
  - now rewrite Nat.add_1_r.
  - destruct (Nat.eq_dec k (List.length ids)) as [-> | Hne].
    + replace (tick w + S (S (List.length ids)))%nat
        with (S (S (tick w + List.length ids))) by lia. exact E3.
    + replace (tick w + S (S k))%nat with (S (S (tick w)) + k)%nat by lia.
      apply Hup. lia.
Qed.

(** C2. [Create(cert, achievementIDs)] is all or nothing. It succeeds
    exactly when the transaction goes through: every one of its round
    trips reaches the store and every insert is accepted. Then the store
    holds one more certificate row, the row of [cert], and exactly one
    more join row per achievement id, in order, and the other tables are
    untouched. Whenever it returns an error (the certificate refused, a
    join row refused or lost mid-way, the commit lost) the store is
    exactly what it was. *)
Theorem Create_is_atomic (cert : Certificate.t) (achievementIDs : list UUID)
        (w : World) :
  let outcome := repository.Create cert achievementIDs w in
  let before := db w in
  let after := db (snd outcome) in
  (fst outcome = Ok tt <-> accepted cert achievementIDs w)
  /\ (fst outcome = Ok tt ->
      certificates after
      = certificates before
        ++ [pg.inserted_row cert (clock (oracle w) (S (tick w)))]
      /\ certificate_achievements after
         = certificate_achievements before
           ++ map (fun a => (Certificate.ID cert, a)) achievementIDs
      /\ List.length (certificate_achievements after)
         = (List.length (certificate_achievements before)
            + List.length achievementIDs)%nat
      /\ users after = users before
      /\ students after = students before
      /\ achievements after = achievements before
      /\ achievement_attachments after = achievement_attachments before)
  /\ (forall e, fst outcome = Err e -> after = before).
Proof.
  cbv zeta. split; [|split].
  - split; [apply repo_Create_reached|].
    intros H. now rewrite (repo_Create_accepted _ _ _ H).
  - intros H. apply repo_Create_reached in H.
    rewrite (repo_Create_accepted _ _ _ H). simpl.
    repeat split. rewrite length_app, length_map. reflexivity.
  - intros e He.
    destruct (repo_Create_outcome cert achievementIDs w)
      as [(e' & _ & Hdb) | (Hok & _)]; [exact Hdb | congruence].
Qed.

(** The transaction goes through for a certificate of Ani with her two
    achievements, and the three rows are stored. *)
Lemma Create_is_atomic_witness :
  let c := Scenario.certificate 50%N "tok" "active" in
  let out := repository.Create c [11%N; 12%N] Scenario.world_2024 in
  fst out = Ok tt
  /\ certificates (db (snd out)) = [pg.inserted_row c (mkTime 2024 1)]
  /\ certificate_achievements (db (snd out)) = [(50%N, 11%N); (50%N, 12%N)].
Proof.
  intros c out.
  destruct (Create_is_atomic c [11%N; 12%N] Scenario.world_2024)
    as ([_ Hgo] & Hrows & _).
  assert (Hok : fst out = Ok tt).
  { apply Hgo. split; [intros k _; reflexivity|].
    split; [eexists; reflexivity|]. repeat split. }
  split; [exact Hok|].
  destruct (Hrows Hok) as (Hc & Hj & _). split; [exact Hc | exact Hj].
Defined.

(** A failure injected mid-way: the store answers the first three round
    trips (begin, the certificate row, the first join row) and is lost on
    the fourth; nothing of the transaction is left. *)
Example Create_rolls_back_midway :
  let w := mkWorld Scenario.school (Scenario.oracle_down_at 2024 3) 0 in
  let c := Scenario.certificate 50%N "t" "active" in
  fst (repository.Create c [11%N; 12%N] w) = Err (sql_err ConnectionFailure)
  /\ db (snd (repository.Create c [11%N; 12%N] w)) = Scenario.school.
Proof. vm_compute. split; reflexivity. Qed.

(** A reference the store rejects is an error, not a dropped row. *)
Example Create_rejects_unknown_achievement :
  let w := Scenario.world_2024 in
  let c := Scenario.certificate 50%N "t" "active" in
  fst (repository.Create c [11%N; 99%N] w)
  = Err (sql_err (ForeignKeyViolation certificate_achievements_achievement_id_fkey))
  /\ db (snd (repository.Create c [11%N; 99%N] w)) = Scenario.school.
Proof. vm_compute. split; reflexivity. Qed.

(** ** Reading the store when it answers *)

Lemma db_query_healthy {A} (q : Ctx -> DB -> Result A) (w : World) :
  healthy w ->
  db_query q w
  = (q (mkCtx (clock (oracle w) (tick w)) (scan_order (oracle w) (tick w))) (db w),
     bump w).
Proof.
  intros H. unfold db_query, round_trip. now rewrite H.
Qed.

Lemma healthy_bump (w : World) : healthy w -> healthy (bump w).
Proof. intros H n; apply H. Qed.

Lemma kept_bump (strict : bool) (w : World) : kept strict w (bump w).
Proof. split; auto. Qed.

Lemma first_row_find {A B} (f : A -> B) (p : A -> bool) (l : list A) :
  pg.first_row (map f (filter p l))
  = match find p l with
    | Some x => Ok (f x)
    | None => pg.sqlfail ErrNoRows
    end.
Proof.
  induction l as [|x l IH]; simpl; [reflexivity|].
  destruct (p x); [reflexivity | exact IH].
Qed.

Lemma FindByID_healthy (id : UUID) (w : World) :
  healthy w ->
  repository.FindByID id w
  = (Ok (option_map (pg.joined true (db w)) (certificate_with_id (db w) id)),
     bump w).
Proof.
  intros H. unfold repository.FindByID, try, bind.
  rewrite (db_query_healthy _ w H).
  unfold pg.certificate_by_id. rewrite first_row_find.
  unfold certificate_with_id.
  destruct (find _ (certificates (db w))); reflexivity.
Qed.

Lemma FindByQRToken_healthy (token : string) (w : World) :
  healthy w ->
  repository.FindByQRToken token w
  = (Ok (option_map (pg.joined false (db w)) (certificate_with_token (db w) token)),
     bump w).
Proof.
  intros H. unfold repository.FindByQRToken, try, bind.
  rewrite (db_query_healthy _ w H).
  unfold pg.certificate_by_token. rewrite first_row_find.
  unfold certificate_with_token.
  destruct (find _ (certificates (db w))); reflexivity.
Qed.

Lemma attachments_healthy (l : list Achievement.t) :
  forall w, healthy w ->
    exists w',
      mapM (fun a =>
              attachments <-
                ignore_err
                  (db_query (fun _ => pg.select_attachments (Achievement.ID a))) ;;
              ret (AchievementWithAttachments.mk a
                     (match attachments with Some l => l | None => [] end))) l w
      = (Ok (map (fun a =>
                    AchievementWithAttachments.mk a
                      (filter (fun r => (AchievementAttachment.AchievementID r
                                         =? Achievement.ID a)%N)
                              (achievement_attachments (db w)))) l), w')
      /\ kept true w w'.
Proof.
  induction l as [|a l IH]; intros w H; simpl.
  - exists w; split; [reflexivity | apply kept_refl].
  - unfold bind at 1. unfold bind at 1. unfold ignore_err at 1.
    rewrite (db_query_healthy _ w H).
    unfold pg.select_attachments at 1. unfold ret at 1. cbv beta iota.
    destruct (IH (bump w) (healthy_bump w H)) as (w' & E & K).
    unfold bind at 1. rewrite E. simpl.
    exists w'; split; [reflexivity|].
    eapply kept_trans; [apply kept_bump | exact K].
Qed.

Lemma map_Achievement_mk (l : list Achievement.t)
      (f : Achievement.t -> list AchievementAttachment.t) :
  map AchievementWithAttachments.Achievement
      (map (fun a => AchievementWithAttachments.mk a (f a)) l) = l.
Proof.
  induction l as [|a l IH]; simpl; [reflexivity | now rewrite IH].
Qed.

Lemma joined_StudentID (b : bool) (d : DB) (c : Certificate.t) :
  Certificate.StudentID (pg.joined b d c) = Certificate.StudentID c.
Proof. reflexivity. Qed.

Lemma joined_ID (b : bool) (d : DB) (c : Certificate.t) :
  Certificate.ID (pg.joined b d c) = Certificate.ID c.
Proof. reflexivity. Qed.

Lemma joined_same_columns (b : bool) (d : DB) (c : Certificate.t) :
  same_columns c (pg.joined b d c).
Proof. reflexivity. Qed.

Lemma select_student_find (id : UUID) (d : DB) :
  pg.select_student id d
  = match pg.student_by_id d id with
    | Some s => Ok s
    | None => pg.sqlfail ErrNoRows
    end.
Proof.
  unfold pg.select_student, pg.student_by_id.
  rewrite <- (map_id (filter _ (students d))).
  apply (first_row_find (fun s => s)).
Qed.

(** [FindByIDWithDetail] on a certificate whose student is stored. *)
Lemma FindByIDWithDetail_healthy (id : UUID) (w : World) (c : Certificate.t)
      (s : Student.t) :
  healthy w ->
  certificate_with_id (db w) id = Some c ->
  pg.student_by_id (db w) (Certificate.StudentID c) = Some s ->
  exists w' withAtt,
    repository.FindByIDWithDetail id w
    = (Ok (Some (CertificateDetail.mk (pg.joined true (db w) c) (Some s) withAtt)), w')
    /\ kept true w w'
    /\ map AchievementWithAttachments.Achievement withAtt
       = pg.order_by_year_desc
           (pg.permute (scan_order (oracle w) (S (S (tick w))))
              (pg.joined_achievements id (db w))).
Proof.
  intros H Hc Hs. unfold repository.FindByIDWithDetail.
  unfold bind at 1. rewrite (FindByID_healthy id w H), Hc.
  unfold option_map. cbv iota beta.
  unfold bind at 1.
  rewrite (db_query_healthy _ (bump w) (healthy_bump w H)).
  rewrite joined_StudentID, select_student_find. simpl db. rewrite Hs.
  unfold bind at 1.
  rewrite (db_query_healthy _ (bump (bump w)) (healthy_bump _ (healthy_bump w H))).
  unfold pg.select_achievements. simpl db. simpl row_order.
  set (l := pg.order_by_year_desc _).
  destruct (attachments_healthy l (bump (bump (bump w)))
              (healthy_bump _ (healthy_bump _ (healthy_bump w H))))
    as (w' & E & K).
  unfold bind at 1. rewrite E. unfold ret. cbv beta iota.
  eexists; eexists; split; [reflexivity|]. split.
  - eapply kept_trans; [|exact K].
    eapply kept_trans; [apply kept_bump|].
    eapply kept_trans; apply kept_bump.
  - now rewrite map_Achievement_mk.
Qed.

(** ** Order and membership of the achievements of a certificate *)

Lemma insert_at_perm {A} (x : A) (l : list A) :
  forall i, Permutation (pg.insert_at i x l) (x :: l).
Proof.
  induction l as [|y l IH]; intros [|i]; simpl; try apply Permutation_refl.
  eapply perm_trans; [apply perm_skip, IH | apply perm_swap].
Qed.

Lemma permute_perm {A} (l : list A) : forall k, Permutation (pg.permute k l) l.
Proof.
  induction l as [|x l IH]; intros k; simpl; [apply perm_nil|].
  eapply perm_trans; [apply insert_at_perm | apply perm_skip, IH].
Qed.

Lemma insert_by_year_perm (a : Achievement.t) (l : list Achievement.t) :
  Permutation (pg.insert_by_year a l) (a :: l).
Proof.
  induction l as [|b l IH]; simpl; [apply Permutation_refl|].
  destruct (Achievement.Year b <=? Achievement.Year a)%Z;
    [apply Permutation_refl|].
  eapply perm_trans; [apply perm_skip, IH | apply perm_swap].
Qed.

Lemma order_by_year_desc_perm (l : list Achievement.t) :
  Permutation (pg.order_by_year_desc l) l.
Proof.
  induction l as [|a l IH]; simpl; [apply perm_nil|].
  eapply perm_trans; [apply insert_by_year_perm | apply perm_skip, IH].
Qed.

Lemma insert_by_year_sorted (a : Achievement.t) (l : list Achievement.t) :
  Sorted year_desc l -> Sorted year_desc (pg.insert_by_year a l).
Proof.
  induction l as [|b l IH]; intros Hl; simpl.
  - repeat constructor.
  - destruct (Achievement.Year b <=? Achievement.Year a)%Z eqn:E.
    + constructor; [exact Hl|]. constructor.
      unfold year_desc. now apply Z.leb_le.
    + apply Z.leb_gt in E. inversion Hl as [|? ? Hs Hh]; subst.
      constructor; [apply IH, Hs|].
      destruct l as [|c l]; simpl.
      * constructor. unfold year_desc; lia.
      * destruct (Achievement.Year c <=? Achievement.Year a)%Z.
        -- constructor. unfold year_desc; lia.
        -- inversion Hh; subst. constructor. assumption.
Qed.

Lemma order_by_year_desc_sorted (l : list Achievement.t) :
  Sorted year_desc (pg.order_by_year_desc l).
Proof.
  induction l as [|a l IH]; simpl; [constructor|].
  now apply insert_by_year_sorted.
Qed.

Lemma joined_achievements_linked (cid : UUID) (d : DB) (a : Achievement.t) :
  In a (pg.joined_achievements cid d) <-> linked d cid a.
Proof.
  unfold pg.joined_achievements, linked. rewrite in_flat_map. split.
  - intros (a' & Ha' & Hin). apply in_map_iff in Hin as (p & Hp & Hin).
    subst a'. apply filter_In in Hin as (Hin & Hb).
    apply andb_prop in Hb as (H1 & H2).
    apply N.eqb_eq in H1, H2. destruct p as [x y]; simpl in *; subst.
    split; assumption.
  - intros (Ha & Hin). exists a. split; [exact Ha|].
    apply in_map_iff. exists (cid, Achievement.ID a). split; [reflexivity|].
    apply filter_In. split; [exact Hin|]. simpl. now rewrite !N.eqb_refl.
Qed.

Lemma selected_achievements_linked (cid : UUID) (k : nat) (d : DB)
      (a : Achievement.t) :
  In a (pg.order_by_year_desc (pg.permute k (pg.joined_achievements cid d)))
  <-> linked d cid a.
Proof.
  rewrite <- joined_achievements_linked. split; intros H.
  - eapply Permutation_in; [apply permute_perm|].
    eapply Permutation_in; [apply order_by_year_desc_perm | exact H].
  - eapply Permutation_in; [apply Permutation_sym, order_by_year_desc_perm|].
    eapply Permutation_in; [apply Permutation_sym, permute_perm | exact H].
Qed.

(** ** What the constraints of the schema give *)

Lemma existsb_find {A} (p : A -> bool) (l : list A) :
  existsb p l = true -> exists x, find p l = Some x.
Proof.
  induction l as [|x l IH]; simpl; [discriminate|].
  destruct (p x); [eauto | exact IH].
Qed.

Lemma distinct_find (l : list Certificate.t) (c : Certificate.t) :
  distinct (map Certificate.ID l) = true ->
  In c l ->
  find (fun x => (Certificate.ID x =? Certificate.ID c)%N) l = Some c.
Proof.
  induction l as [|x l IH]; simpl; [contradiction|].
  intros Hd [-> | Hin].
  - now rewrite N.eqb_refl.
  - apply andb_prop in Hd as [Hx Hl].
    destruct (Certificate.ID x =? Certificate.ID c)%N eqn:E; [|now apply IH].
    apply N.eqb_eq in E. apply negb_true_iff in Hx.
    assert (Hex : existsb (N.eqb (Certificate.ID x)) (map Certificate.ID l) = true).
    { apply existsb_exists. exists (Certificate.ID c). split.
      - now apply in_map.
      - now apply N.eqb_eq. }
    congruence.
Qed.

Lemma constraints_certificate_by_id (d : DB) (c : Certificate.t) :
  constraints_hold d = true ->
  In c (certificates d) ->
  certificate_with_id d (Certificate.ID c) = Some c.
Proof.
  unfold constraints_hold, certificate_with_id. intros H Hin.
  apply andb_prop in H as [Hd _]. now apply distinct_find.
Qed.

Lemma constraints_student (d : DB) (c : Certificate.t) :
  constraints_hold d = true ->
  In c (certificates d) ->
  exists s, pg.student_by_id d (Certificate.StudentID c) = Some s
            /\ Student.ID s = Certificate.StudentID c
            /\ In s (students d).
Proof.
  unfold constraints_hold. intros H Hin.
  apply andb_prop in H as [_ Hf].
  rewrite forallb_forall in Hf. specialize (Hf c Hin).
  unfold pg.has_student in Hf. apply existsb_find in Hf as (s & Hs).
  exists s. split; [exact Hs|].
  apply find_some in Hs as (Hin' & E). apply N.eqb_eq in E. auto.
Qed.

(** ** C1: the three outcomes of [Verify] *)

(** C1. When the store answers and holds the constraints of its schema,
    [Verify(t)] returns a response, not an error, and leaves the store as it
    was. (a) No certificate carries [t]: [is_valid] is false and neither
    certificate, student nor achievements are set. (b) The certificate that
    carries [t] is revoked: [is_valid] is false, the certificate is set, the
    student and the achievements are not. (c) It is active: [is_valid] is
    true, the certificate and its student are set, and the achievements are
    exactly those on the certificate. *)
Theorem Verify_three_outcomes (w : World) (token : string) :
  healthy w ->
  constraints_hold (db w) = true ->
  exists resp w',
    service.Verify token w = (Ok resp, w')
    /\ db w' = db w
    /\ (certificate_with_token (db w) token = None ->
        VerifyResponse.IsValid resp = false
        /\ VerifyResponse.Certificate resp = None
        /\ VerifyResponse.Student resp = None
        /\ VerifyResponse.Achievements resp = [])
    /\ (forall c,
           certificate_with_token (db w) token = Some c ->
           Certificate.Status c = "revoked" ->
           VerifyResponse.IsValid resp = false
           /\ (exists c', VerifyResponse.Certificate resp = Some c'
                          /\ same_columns c c')
           /\ VerifyResponse.Student resp = None
           /\ VerifyResponse.Achievements resp = [])
    /\ (forall c,
           certificate_with_token (db w) token = Some c ->
           Certificate.Status c = "active" ->
           VerifyResponse.IsValid resp = true
           /\ (exists c', VerifyResponse.Certificate resp = Some c'
                          /\ same_columns c c')
           /\ (exists s, VerifyResponse.Student resp = Some s
                         /\ Student.ID s = Certificate.StudentID c
                         /\ In s (students (db w)))
           /\ (forall a, In a (VerifyResponse.Achievements resp)
                         <-> linked (db w) (Certificate.ID c) a)).
Proof.
  intros H Hc. unfold service.Verify. unfold bind at 1.
  rewrite (FindByQRToken_healthy token w H).
  destruct (certificate_with_token (db w) token) as [c|] eqn:Etok;
    unfold option_map; cbv beta iota.
  2:{ eexists; eexists; split; [reflexivity|]. split; [reflexivity|].
      split; [intros _; simpl; auto|]. split; intros c' Hc'; discriminate. }
  assert (Hin : In c (certificates (db w))).
  { unfold certificate_with_token in Etok. now apply find_some in Etok. }
  change (Certificate.Status (pg.joined false (db w) c)) with (Certificate.Status c).
  destruct (Certificate.Status c =? "revoked") eqn:Erev.
  - eexists; eexists; split; [reflexivity|]. split; [reflexivity|].
    split; [discriminate|]. split.
    + intros c' Hc' _. inversion Hc'; subst c'. simpl.
      split; [reflexivity|]. split; [|auto].
      eexists; split; [reflexivity | apply joined_same_columns].
    + intros c' Hc' Hact. inversion Hc'; subst c'.
      apply String.eqb_eq in Erev. rewrite Hact in Erev. discriminate.
  - destruct (constraints_student _ _ Hc Hin) as (s & Hs & Hsid & Hsin).
    pose proof (constraints_certificate_by_id _ _ Hc Hin) as Hid.
    destruct (FindByIDWithDetail_healthy (Certificate.ID c) (bump w) c s
                (healthy_bump w H) Hid Hs) as (w' & withAtt & E & K & Hach).
    unfold bind. rewrite joined_ID.
    simpl db in E. rewrite E. unfold ret. cbv beta iota.
    eexists; eexists; split; [reflexivity|]. split.
    { now rewrite (kept_db _ _ K). }
    split; [discriminate|]. split.
    + intros c' Hc' Hrev. inversion Hc'; subst c'.
      rewrite Hrev in Erev. discriminate.
    + intros c' Hc' _. inversion Hc'; subst c'. simpl.
      split; [reflexivity|]. split.
      { eexists; split; [reflexivity | apply joined_same_columns]. }
      split; [exists s; auto|].
      intros a. rewrite Hach. apply selected_achievements_linked.
Qed.

(** A response exists for each of the three cases; here the active one. *)
Lemma Verify_three_outcomes_witness :
  let w := mkWorld (Scenario.school_with (Scenario.certificate 50%N "tok" "active"))
                   (Scenario.oracle_in 2024) 0 in
  healthy w
  /\ constraints_hold (db w) = true
  /\ exists resp w',
      service.Verify "tok" w = (Ok resp, w')
      /\ db w' = db w
      /\ VerifyResponse.IsValid resp = true.
Proof.
  intros w.
  assert (Hh : healthy w) by (intros n; reflexivity).
  assert (Hc : constraints_hold (db w) = true) by reflexivity.
  split; [exact Hh|]. split; [exact Hc|].
  destruct (Verify_three_outcomes w "tok" Hh Hc)
    as (resp & w' & E & Hdb & _ & _ & Hact).
  exists resp, w'. split; [exact E|]. split; [exact Hdb|].
  apply (Hact (Scenario.certificate 50%N "tok" "active")); reflexivity.
Defined.

(** ** Reading the store, whatever it answers *)

Lemma FindByID_Ok (id : UUID) (w w' : World) (r : option Certificate.t) :
  repository.FindByID id w = (Ok r, w') ->
  r = option_map (pg.joined true (db w)) (certificate_with_id (db w) id)
  /\ kept true w w'.
Proof.
  intros E. split.
  - revert E. unfold repository.FindByID, try, bind, db_query, round_trip.
    destruct (upstream_down (oracle w) (tick w)); [discriminate|].
    unfold pg.certificate_by_id. rewrite first_row_find.
    unfold certificate_with_id.
    destruct (find _ (certificates (db w))); simpl; intros E; now inversion E.
  - pose proof (keeps_FindByID true id w) as K. now rewrite E in K.
Qed.

Lemma attachments_Achievement (l : list Achievement.t) :
  forall w w' r,
    mapM (fun a =>
            attachments <-
              ignore_err
                (db_query (fun _ => pg.select_attachments (Achievement.ID a))) ;;
            ret (AchievementWithAttachments.mk a
                   (match attachments with Some l => l | None => [] end))) l w
    = (Ok r, w') ->
    map AchievementWithAttachments.Achievement r = l.
Proof.
  induction l as [|a l IH]; intros w w' r; simpl.
  - unfold ret. intros E; now inversion E.
  - unfold bind at 1. unfold bind at 1.
    destruct (ignore_err _ w) as [[o|e] w1]; [|discriminate].
    unfold ret at 1. cbv beta iota. unfold bind at 1.
    destruct (mapM _ l w1) as [[bs|e] w2] eqn:E2; [|discriminate].
    unfold ret. intros E; inversion E; subst. simpl.
    f_equal. eapply IH. exact E2.
Qed.

(** What a successful [FindByIDWithDetail] returned. *)
Lemma FindByIDWithDetail_Ok (id : UUID) (w w' : World)
      (detail : CertificateDetail.t) :
  repository.FindByIDWithDetail id w = (Ok (Some detail), w') ->
  kept true w w'
  /\ exists c k,
      certificate_with_id (db w) id = Some c
      /\ CertificateDetail.Certificate detail = pg.joined true (db w) c
      /\ CertificateDetail.Student detail
         = pg.student_by_id (db w) (Certificate.StudentID c)
      /\ map AchievementWithAttachments.Achievement
             (CertificateDetail.Achievements detail)
         = pg.order_by_year_desc (pg.permute k (pg.joined_achievements id (db w))).
Proof.
  intros E. split.
  { pose proof (keeps_FindByIDWithDetail true id w) as K. now rewrite E in K. }
  revert E. unfold repository.FindByIDWithDetail. unfold bind at 1.
  destruct (repository.FindByID id w) as [[r|e] w1] eqn:E1; [|discriminate].
  apply FindByID_Ok in E1 as (-> & K1).
  destruct (certificate_with_id (db w) id) as [c|]; unfold option_map;
    cbv beta iota; [|unfold ret; intros E; inversion E].
  unfold bind at 1, db_query at 1, round_trip at 1.
  destruct (upstream_down (oracle w1) (tick w1)); [discriminate|].
  rewrite joined_StudentID, select_student_find, (kept_db _ _ K1).
  destruct (pg.student_by_id (db w) (Certificate.StudentID c)) as [s|] eqn:Es;
    [|discriminate].
  unfold bind at 1, db_query at 1, round_trip at 1. simpl oracle. simpl tick.
  destruct (upstream_down (oracle w1) (S (tick w1))); [discriminate|].
  unfold pg.select_achievements. simpl db. simpl row_order.
  unfold bind at 1.
  match goal with
  | |- context [mapM ?f ?l ?w0] =>
      destruct (mapM f l w0) as [[ats|e] w2] eqn:E3; [|discriminate]
  end.
  apply attachments_Achievement in E3.
  unfold ret. intros E; inversion E; subst. simpl.
  exists c. eexists. split; [reflexivity|]. split; [reflexivity|].
  split; [now rewrite Es | exact E3].
Qed.

(** ** C9: the order of the achievements of a certificate *)

(** C9, as amended. The achievements that [FindByIDWithDetail] returns
    for a certificate are exactly the achievements on it, ordered by year
    descending. (The query names no second key: achievements of the same
    year come in the order the executor produced them.) *)
Theorem detail_achievements_year_descending (id : UUID) (w : World)
        (detail : CertificateDetail.t) :
  fst (repository.FindByIDWithDetail id w) = Ok (Some detail) ->
  Sorted year_desc
    (map AchievementWithAttachments.Achievement
         (CertificateDetail.Achievements detail))
  /\ Permutation
       (map AchievementWithAttachments.Achievement
            (CertificateDetail.Achievements detail))
       (pg.joined_achievements id (db w))
  /\ (forall a,
         In a (map AchievementWithAttachments.Achievement
                   (CertificateDetail.Achievements detail))
         <-> linked (db w) id a).
Proof.
  intros E.
  destruct (repository.FindByIDWithDetail id w) as [r w'] eqn:E'.
  simpl in E; subst r.
  apply FindByIDWithDetail_Ok in E' as (_ & c & k & _ & _ & _ & Hl).
  rewrite Hl. split; [apply order_by_year_desc_sorted|]. split.
  - eapply perm_trans; [apply order_by_year_desc_perm | apply permute_perm].
  - intros a. apply selected_achievements_linked.
Qed.

Lemma detail_achievements_year_descending_witness :
  let w := mkWorld (Scenario.school_with (Scenario.certificate 50%N "tok" "active"))
                   (Scenario.oracle_in 2024) 0 in
  exists detail,
    fst (repository.FindByIDWithDetail 50%N w) = Ok (Some detail)
    /\ Sorted year_desc
         (map AchievementWithAttachments.Achievement
              (CertificateDetail.Achievements detail)).
Proof.
  intros w. eexists. split; [vm_compute; reflexivity|].
  apply (detail_achievements_year_descending 50%N w).
  vm_compute; reflexivity.
Defined.

(** C9, as stated, fails: two achievements of 2024, the first created
    before the second, are on the certificate; the executor hands the
    second over first, sorting by year keeps them so, and the list comes
    back against creation order. *)
Lemma same_year_achievements_out_of_creation_order :
  let w := mkWorld (Scenario.school_with (Scenario.certificate 50%N "tok" "active"))
                   (Scenario.oracle_reordered 2024) 0 in
  exists detail,
    fst (repository.FindByIDWithDetail 50%N w) = Ok (Some detail)
    /\ map AchievementWithAttachments.Achievement
           (CertificateDetail.Achievements detail)
       = [Scenario.debat; Scenario.olimpiade]
    /\ ~ Sorted year_desc_then_creation
           (map AchievementWithAttachments.Achievement
                (CertificateDetail.Achievements detail)).
Proof.
  intros w. eexists. split; [vm_compute; reflexivity|].
  split; [vm_compute; reflexivity|].
  simpl. intros H.
  inversion H as [|? ? _ Hh]; subst.
  inversion Hh as [|? ? Hr]; subst.
  destruct Hr as [Hr | [_ Hr]].
  - vm_compute in Hr. discriminate Hr.
  - vm_compute in Hr. discriminate Hr.
Qed.

(** ** Issuance: what [Create] builds and stores *)

Section Issuance.
Context {L : Libraries}.

Lemma parse_achievement_ids_run (ids : list string) (w : World) :
  snd (service.parse_achievement_ids ids w) = w
  /\ match fst (service.parse_achievement_ids ids w) with
     | Ok uids => Forall2 (fun s u => uuid_Parse s = Some u) ids uids
     | Err e =>
         exists bad,
           In bad ids /\ uuid_Parse bad = None
           /\ e = errors_New ("achievement_id tidak valid: " ++ bad)%string
     end.
Proof.
  induction ids as [|a ids IH]; simpl.
  - split; [reflexivity | constructor].
  - destruct (uuid_Parse a) as [u|] eqn:Ea.
    + unfold bind.
      destruct (service.parse_achievement_ids ids w) as [[uids|e] w1];
        simpl in *; destruct IH as [Hw IH]; subst w1.
      * split; [reflexivity|]. now constructor.
      * split; [reflexivity|]. destruct IH as (bad & Hin & Hp & He).
        exists bad; auto.
    + simpl. split; [reflexivity|]. exists a; auto.
Qed.

(** The certificate [Create] assembles, field by field. The clock is read
    at the first effect (the year that is counted), at the third (the
    year printed in the number) and at the sixth (the issuance time). *)
Lemma Create_build_Ok req issuedBy (w w1 : World) (cert : Certificate.t)
      (ids : list UUID) :
  service.Create_build req issuedBy w = (Ok (cert, ids), w1) ->
  let o := oracle w in
  let t := tick w in
  kept true w w1
  /\ uuid_Parse (CreateCertificateRequest.StudentID req)
     = Some (Certificate.StudentID cert)
  /\ Forall2 (fun s u => uuid_Parse s = Some u)
       (CreateCertificateRequest.AchievementIDs req) ids
  /\ CreateCertificateRequest.AchievementIDs req <> []
  /\ Certificate.CertificateNumber cert
     = ("421.2/SKP/" ++ fmt.verb_d (Year (clock o (2 + t))) ++ "/"
        ++ fmt.verb_0d 4
             (GoInt.add (issued_in_year (db w) (Year (clock o t))) 1))%string
  /\ Certificate.IssuedBy cert
     = Some (match uuid_Parse issuedBy with Some u => u | None => uuid_Nil end)
  /\ Certificate.Status cert = "active"
  /\ Certificate.ID cert = fresh_uuid o (4 + t)
  /\ Certificate.IssuedAt cert = clock o (5 + t).
Proof.
  intros E o t. split.
  { pose proof (keeps_Create_build true req issuedBy w) as K.
    now rewrite E in K. }
  subst o t. destruct w as [d o t]. simpl oracle; simpl tick; simpl db.
  revert E. unfold service.Create_build.
  destruct (uuid_Parse (CreateCertificateRequest.StudentID req)) as [sid|];
    [|discriminate].
  destruct (CreateCertificateRequest.AchievementIDs req) as [|a0 rest] eqn:Eids;
    [discriminate|].
  cbv beta iota. simpl (List.length _ =? 0)%nat. cbv iota.
  unfold bind at 1.
  pose proof (parse_achievement_ids_run (a0 :: rest) (mkWorld d o t)) as [Hw Hp].
  destruct (service.parse_achievement_ids (a0 :: rest) (mkWorld d o t))
    as [[uids|e] w0]; simpl in Hw, Hp; [subst w0|discriminate].
  cbv beta iota zeta delta
    [bind next ret raise time_Now uuid_New rand_Read
     utils.GenerateCertificateNumber utils.GenerateQRToken
     repository.CountByYear db_query round_trip pg.count_by_year
     oracle tick db].
  destruct (upstream_down o (S t)); [discriminate|].
  destruct (entropy o (S (S (S t)))) as [f|]; [|discriminate].
  unfold issued_in_year. simpl certificates.
  destruct (CreateCertificateRequest.ValidUntil req =? "").
  - intros E; inversion E; subst; clear E. simpl.
    repeat split; auto. discriminate.
  - destruct (time_Parse "2006-01-02" (CreateCertificateRequest.ValidUntil req));
      [|discriminate].
    intros E; inversion E; subst; clear E. simpl.
    repeat split; auto. discriminate.
Qed.

Lemma find_app_fresh {A} (p : A -> bool) (l : list A) (x : A) :
  existsb p l = false -> p x = true -> find p (l ++ [x]) = Some x.
Proof.
  intros Hl Hx. induction l as [|y l IH]; simpl in *.
  - now rewrite Hx.
  - destruct (p y); [discriminate | now apply IH].
Qed.

(** What a successful [Create_store] did: the working copy of the
    transaction became the store, and the detail read back is that of
    the row just inserted. *)
Lemma Create_store_Ok (cert : Certificate.t) (ids : list UUID) (w w' : World)
      (detail : CertificateDetail.t) :
  service.Create_store (cert, ids) w = (Ok (Some detail), w') ->
  exists now,
    pg.insert_certificate cert now (db w)
    = Ok (with_certificates
            (certificates (db w) ++ [pg.inserted_row cert now]) (db w))
    /\ db w'
       = with_certificate_achievements
           (certificate_achievements (db w)
            ++ map (fun a => (Certificate.ID cert, a)) ids)
           (with_certificates
              (certificates (db w) ++ [pg.inserted_row cert now]) (db w))
    /\ certificate_with_id (db w') (Certificate.ID cert)
       = Some (pg.inserted_row cert now)
    /\ CertificateDetail.Certificate detail
       = pg.joined true (db w') (pg.inserted_row cert now).
Proof.
  unfold service.Create_store. unfold bind at 1.
  pose proof (repo_Create_outcome cert ids w) as Hout.
  destruct (repository.Create cert ids w) as [[[]|e] w1] eqn:E1;
    simpl in Hout; [|discriminate].
  destruct Hout as [(e & He & _) | (_ & now & Hins & Hdb)]; [discriminate|].
  unfold bind at 1.
  destruct (repository.FindByIDWithDetail (Certificate.ID cert) w1)
    as [[[d|]|e] w2] eqn:E2; unfold ret; intros E; inversion E; subst.
  apply FindByIDWithDetail_Ok in E2 as (K & c & k & Hc & Hcert & _).
  assert (Hfresh : certificate_with_id (db w1) (Certificate.ID cert)
                   = Some (pg.inserted_row cert now)).
  { rewrite Hdb. unfold certificate_with_id. simpl.
    apply insert_certificate_Ok in Hins as (_ & Hno & _).
    apply find_app_fresh; [exact Hno | apply N.eqb_refl]. }
  exists now. rewrite (kept_db _ _ K).
  split; [exact Hins|]. split; [exact Hdb|]. split; [exact Hfresh|].
  rewrite Hfresh in Hc. inversion Hc; subst c. exact Hcert.
Qed.

Lemma attachments_total (l : list Achievement.t) :
  forall w,
    ~ exists e w',
        mapM (fun a =>
                attachments <-
                  ignore_err
                    (db_query (fun _ => pg.select_attachments (Achievement.ID a))) ;;
                ret (AchievementWithAttachments.mk a
                       (match attachments with Some l => l | None => [] end))) l w
        = (Err e, w').
Proof.
  induction l as [|a l IH]; intros w (e & w' & E); simpl in E.
  - discriminate E.
  - revert E. unfold bind at 1. unfold bind at 1.
    destruct (ignore_err _ w) as [[o|e0] w1] eqn:E0.
    + unfold ret at 1. cbv beta iota. unfold bind at 1.
      destruct (mapM _ l w1) as [[bs|e1] w2] eqn:E1.
      * unfold ret; discriminate.
      * exfalso. apply (IH w1). eauto.
    + exfalso. revert E0. unfold ignore_err.
      destruct (db_query _ w) as [[x|e2] w3]; discriminate.
Qed.

(** The errors of the read-back are those of a read. *)
Lemma FindByIDWithDetail_Err (id : UUID) (w w' : World) (e : error) :
  repository.FindByIDWithDetail id w = (Err e, w') ->
  e = sql_err ErrNoRows \/ e = sql_err ConnectionFailure.
Proof.
  unfold repository.FindByIDWithDetail. unfold bind at 1.
  destruct (repository.FindByID id w) as [[r|e1] w1] eqn:E1.
  - destruct r as [c|]; [|unfold ret; discriminate].
    unfold bind at 1, db_query at 1, round_trip at 1.
    destruct (upstream_down (oracle w1) (tick w1)).
    { intros E; inversion E; auto. }
    rewrite select_student_find.
    destruct (pg.student_by_id _ _).
    2:{ intros E; inversion E; auto. }
    unfold bind at 1, db_query at 1, round_trip at 1.
    destruct (upstream_down _ _).
    { intros E; inversion E; auto. }
    unfold pg.select_achievements. cbv beta iota. unfold bind at 1.
    match goal with
    | |- context [mapM ?f ?l ?w0] =>
        pose proof (attachments_total l w0) as T;
        destruct (mapM f l w0) as [[ats|e2] w2]
    end.
    + unfold ret; discriminate.
    + exfalso. apply T. eauto.
  - intros E; inversion E; subst e1. revert E1.
    unfold repository.FindByID, try, bind, db_query, round_trip.
    destruct (upstream_down (oracle w) (tick w)).
    + simpl. intros E1; inversion E1; auto.
    + unfold pg.certificate_by_id. rewrite first_row_find.
      destruct (find _ _); simpl; discriminate.
Qed.

End Issuance.

(** ** C3: certificate numbers *)

Lemma verb_d_decimal (z : Z) : fmt.verb_d z = decimal z.
Proof. destruct z; reflexivity. Qed.

Lemma verb_0d_zero_padded (width : nat) (n : Z) :
  (0 <= n)%Z -> fmt.verb_0d width n = zero_padded width n.
Proof.
  intros H. unfold fmt.verb_0d, zero_padded, fmt.pad_zeros.
  destruct (n <? 0)%Z eqn:E; [apply Z.ltb_lt in E; lia|].
  rewrite <- verb_d_decimal. unfold fmt.verb_d. now rewrite E.
Qed.

Lemma issued_in_year_nonneg (d : DB) (Y : Z) : (0 <= issued_in_year d Y)%Z.
Proof. unfold issued_in_year. lia. Qed.

(** Within one calendar year. An issuance whose clock readings all lie in
    [Y] and that finds [K] certificates already issued in [Y] gives the
    new certificate the number ["421.2/SKP/<Y>/<S>"], [S] being [K + 1]
    zero-padded to four digits; the row it stored carries that number. *)
Theorem Create_numbers_in_sequence {L : Libraries} (w : World)
        (req : CreateCertificateRequest.t) (issuedBy : string) (Y : Z)
        (detail : CertificateDetail.t) :
  (forall n, Year (clock (oracle w) n) = Y) ->
  (issued_in_year (db w) Y < GoInt.max_int)%Z ->
  fst (service.Create req issuedBy w) = Ok (Some detail) ->
  let issued := CertificateDetail.Certificate detail in
  Certificate.CertificateNumber issued
  = number_for Y (issued_in_year (db w) Y + 1)
  /\ exists row,
      certificate_with_id (db (snd (service.Create req issuedBy w)))
                          (Certificate.ID issued) = Some row
      /\ Certificate.CertificateNumber row
         = number_for Y (issued_in_year (db w) Y + 1).
Proof.
  intros HY HK E issued. subst issued.
  destruct (service.Create req issuedBy w) as [r w'] eqn:E'.
  simpl in E; subst r. simpl snd.
  revert E'. unfold service.Create. unfold bind at 1.
  destruct (service.Create_build req issuedBy w) as [[[cert ids]|e] w1] eqn:Eb;
    [|discriminate].
  intros Es.
  apply Create_build_Ok in Eb as (K & _ & _ & _ & Hnum & _).
  rewrite !HY in Hnum.
  apply Create_store_Ok in Es as (now & _ & _ & Hrow & Hcert).
  assert (Hn : Certificate.CertificateNumber cert
               = number_for Y (issued_in_year (db w) Y + 1)).
  { rewrite Hnum. unfold number_for.
    pose proof (issued_in_year_nonneg (db w) Y) as H0.
    unfold GoInt.add. rewrite wrap_in_range.
    - rewrite verb_d_decimal, verb_0d_zero_padded by lia. reflexivity.
    - unfold GoInt.in_range, GoInt.min_int, GoInt.max_int in *. lia. }
  rewrite Hcert. split; [exact Hn|].
  exists (pg.inserted_row cert now). split; [exact Hrow | exact Hn].
Qed.

(** The first issuance of 2024 is numbered 0001, the second 0002. *)
Lemma Create_numbers_in_sequence_witness :
  let first := service.Create (L := Scenario.libraries) Scenario.request "7"
                 Scenario.world_2024 in
  let second := service.Create (L := Scenario.libraries) Scenario.request "7"
                  (snd first) in
  (exists d, fst first = Ok (Some d)
             /\ Certificate.CertificateNumber (CertificateDetail.Certificate d)
                = "421.2/SKP/2024/0001")
  /\ (exists d, fst second = Ok (Some d)
                /\ Certificate.CertificateNumber (CertificateDetail.Certificate d)
                   = "421.2/SKP/2024/0002").
Proof.
  intros first second. split.
  - eexists. split; [vm_compute; reflexivity|].
    refine (eq_trans
              (proj1 (Create_numbers_in_sequence (L := Scenario.libraries)
                        Scenario.world_2024 Scenario.request "7" 2024 _
                        (fun n => eq_refl) _ _)) _).
    + vm_compute; reflexivity.
    + vm_compute; reflexivity.
    + vm_compute; reflexivity.
  - eexists. split; [vm_compute; reflexivity|].
    refine (eq_trans
              (proj1 (Create_numbers_in_sequence (L := Scenario.libraries)
                        (snd first) Scenario.request "7" 2024 _
                        (fun n => eq_refl) _ _)) _).
    + vm_compute; reflexivity.
    + vm_compute; reflexivity.
    + vm_compute; reflexivity.
Defined.

(** C3, evaluated where the code departs from it. [Create] reads the clock
    three times: the year whose certificates it counts (first reading),
    the year [GenerateCertificateNumber] prints (its own [time.Now()], the
    third effect), and [issued_at] (the sixth). The number of a successful
    issuance is ["421.2/SKP/<printed>/<S>"] with [S] one more than the
    count of the year read first, zero-padded to four digits; the stored
    row carries it. When the readings fall in one year this is the number
    the claim gives; across a turn of the year it is not. *)
Theorem Create_number_by_two_clock_readings {L : Libraries} (w : World)
        (req : CreateCertificateRequest.t) (issuedBy : string)
        (detail : CertificateDetail.t) :
  let counted := Year (clock (oracle w) (tick w)) in
  let printed := Year (clock (oracle w) (2 + tick w)) in
  (issued_in_year (db w) counted < GoInt.max_int)%Z ->
  fst (service.Create req issuedBy w) = Ok (Some detail) ->
  let issued := CertificateDetail.Certificate detail in
  Certificate.CertificateNumber issued
  = number_for printed (issued_in_year (db w) counted + 1)
  /\ Year (Certificate.IssuedAt issued) = Year (clock (oracle w) (5 + tick w))
  /\ (exists row,
         certificate_with_id (db (snd (service.Create req issuedBy w)))
                             (Certificate.ID issued) = Some row
         /\ Certificate.CertificateNumber row
            = number_for printed (issued_in_year (db w) counted + 1))
  /\ (counted = printed ->
      Certificate.CertificateNumber issued
      = number_for printed (issued_in_year (db w) printed + 1)).
Proof.
  intros counted printed HK E issued. subst issued counted printed.
  destruct (service.Create req issuedBy w) as [r w'] eqn:E'.
  simpl in E; subst r. simpl snd.
  revert E'. unfold service.Create. unfold bind at 1.
  destruct (service.Create_build req issuedBy w) as [[[cert ids]|e] w1] eqn:Eb;
    [|discriminate].
  intros Es.
  apply Create_build_Ok in Eb as (K & _ & _ & _ & Hnum & _ & _ & _ & Hat).
  apply Create_store_Ok in Es as (now & _ & _ & Hrow & Hcert).
  assert (Hn : Certificate.CertificateNumber cert
               = number_for (Year (clock (oracle w) (2 + tick w)))
                   (issued_in_year (db w) (Year (clock (oracle w) (tick w))) + 1)).
  { rewrite Hnum. unfold number_for.
    pose proof (issued_in_year_nonneg (db w) (Year (clock (oracle w) (tick w))))
      as H0.
    unfold GoInt.add. rewrite wrap_in_range.
    - rewrite verb_d_decimal, verb_0d_zero_padded by lia. reflexivity.
    - unfold GoInt.in_range, GoInt.min_int, GoInt.max_int in *. lia. }
  rewrite Hcert. split; [exact Hn|].
  split; [change (Year (Certificate.IssuedAt cert) = Year (clock (oracle w) (5 + tick w)));
          now rewrite Hat|].
  split.
  - exists (pg.inserted_row cert now). split; [exact Hrow | exact Hn].
  - intros Heq. change (Certificate.CertificateNumber
                          (pg.joined true (db w') (pg.inserted_row cert now)))
      with (Certificate.CertificateNumber cert).
    rewrite Hn. now rewrite Heq.
Qed.

(** The failing input. One certificate was issued in 2023; the next
    issuance counts the certificates of 2023 on December 31 and prints the
    number after midnight. It is issued in 2024, where no certificate
    exists yet, and is numbered 2024/0002, not 2024/0001. *)
Lemma Create_number_by_two_clock_readings_witness :
  let w := snd (service.Create (L := Scenario.libraries) Scenario.request "7"
                  (mkWorld Scenario.school (Scenario.oracle_new_year 18) 0)) in
  exists detail,
    fst (service.Create (L := Scenario.libraries) Scenario.request "7" w)
    = Ok (Some detail)
    /\ Year (Certificate.IssuedAt (CertificateDetail.Certificate detail)) = 2024%Z
    /\ issued_in_year (db w) 2024 = 0%Z
    /\ Certificate.CertificateNumber (CertificateDetail.Certificate detail)
       = "421.2/SKP/2024/0002"
    /\ number_for 2024 (issued_in_year (db w) 2024 + 1) = "421.2/SKP/2024/0001".
Proof.
  intros w.
  pose proof (Create_number_by_two_clock_readings (L := Scenario.libraries)
                w Scenario.request "7") as H.
  destruct (fst (service.Create (L := Scenario.libraries) Scenario.request "7" w))
    as [[detail|]|e] eqn:E;
    [ | exfalso; subst w; vm_compute in E; discriminate E
      | exfalso; subst w; vm_compute in E; discriminate E ].
  assert (HK : (issued_in_year (db w) (Year (clock (oracle w) (tick w)))
                < GoInt.max_int)%Z) by (subst w; vm_compute; reflexivity).
  destruct (H detail HK eq_refl) as (Hnum & Hat & _ & _).
  exists detail. split; [reflexivity|].
  split; [rewrite Hat; subst w; vm_compute; reflexivity|].
  split; [subst w; vm_compute; reflexivity|].
  split; [rewrite Hnum; subst w; vm_compute; reflexivity|].
  subst w; vm_compute; reflexivity.
Defined.

(** ** C5: ownership of the achievements *)

(** C5, evaluated where the code departs from it. The request names the
    student Ani and an achievement of Budi. [Create] does not look the
    achievement up: the certificate is issued to Ani, the join row is
    stored, and the detail returned lists Budi's achievement. *)
Theorem Create_accepts_achievement_of_another_student :
  exists detail w',
    service.Create (L := Scenario.libraries) Scenario.request_foreign "7"
                   Scenario.world_2024
    = (Ok (Some detail), w')
    /\ Certificate.StudentID (CertificateDetail.Certificate detail)
       = Student.ID Scenario.ani
    /\ map AchievementWithAttachments.Achievement
           (CertificateDetail.Achievements detail)
       = [Scenario.catur]
    /\ Achievement.StudentID Scenario.catur = Student.ID Scenario.budi
    /\ Student.ID Scenario.budi <> Student.ID Scenario.ani
    /\ certificate_achievements (db w')
       = [(Certificate.ID (CertificateDetail.Certificate detail),
           Achievement.ID Scenario.catur)].
Proof.
  eexists; eexists. split; [vm_compute; reflexivity|].
  repeat split; try reflexivity. discriminate.
Qed.

(** ** C10: an issuer that does not parse *)

Section Issuer.
Context {L : Libraries}.

(** [Create] failed before the store was written, or in the transaction:
    the store is as it was. *)
Lemma Create_unchanged_unless_stored req issuedBy (w : World) :
  (exists e, fst (service.Create req issuedBy w) = Err e
             /\ db (snd (service.Create req issuedBy w)) = db w)
  \/ exists cert ids w1 now,
      service.Create_build req issuedBy w = (Ok (cert, ids), w1)
      /\ pg.insert_certificate cert now (db w)
         = Ok (with_certificates
                 (certificates (db w) ++ [pg.inserted_row cert now]) (db w))
      /\ (forall e, fst (service.Create req issuedBy w) = Err e ->
          e = sql_err ErrNoRows \/ e = sql_err ConnectionFailure).
Proof.
  unfold service.Create. unfold bind.
  pose proof (keeps_Create_build true req issuedBy w) as Kb.
  destruct (service.Create_build req issuedBy w) as [[[cert ids]|e] w1] eqn:Eb;
    simpl in Kb.
  2:{ left. exists e. split; [reflexivity | apply (kept_db _ _ Kb)]. }
  unfold service.Create_store, bind.
  pose proof (repo_Create_outcome cert ids w1) as Hout.
  destruct (repository.Create cert ids w1) as [[[]|e] w2] eqn:Ec; simpl in Hout.
  - destruct Hout as [(e & He & _) | (_ & now & Hins & _)]; [discriminate|].
    right. exists cert, ids, w1, now. split; [reflexivity|].
    rewrite (kept_db _ _ Kb) in Hins. split; [exact Hins|].
    destruct (repository.FindByIDWithDetail (Certificate.ID cert) w2)
      as [[d|e] w3] eqn:Ef; simpl.
    + unfold ret; simpl. discriminate.
    + intros e' He'; inversion He'; subst e'.
      eapply FindByIDWithDetail_Err; exact Ef.
  - left. exists e. split; [reflexivity|]. simpl.
    destruct Hout as [(e' & _ & Hdb) | (Hok & _)]; [|discriminate].
    rewrite Hdb. apply (kept_db _ _ Kb).
Qed.

Lemma Create_rejects_achievement_id (w : World) req issuedBy sid e :
  uuid_Parse (CreateCertificateRequest.StudentID req) = Some sid ->
  fst (service.parse_achievement_ids
         (CreateCertificateRequest.AchievementIDs req) w) = Err e ->
  service.Create req issuedBy w = (Err e, w).
Proof.
  intros Hs Ep. unfold service.Create, service.Create_build.
  unfold bind at 1. rewrite Hs.
  destruct (CreateCertificateRequest.AchievementIDs req) as [|a0 rest];
    [discriminate Ep|].
  simpl (List.length _ =? 0)%nat. cbv iota.
  unfold bind at 1.
  pose proof (parse_achievement_ids_run (a0 :: rest) w) as [Hw _].
  destruct (service.parse_achievement_ids (a0 :: rest) w) as [[uids|e'] w0];
    simpl in Hw, Ep; subst w0; [discriminate Ep|].
  now inversion Ep.
Qed.

(** C10, as amended. An issuer string that does not parse is not a
    validation error: [Create] goes on exactly as for an issuer that
    parses to the all-zero UUID. If it issues the certificate, the detail
    and the stored row carry the all-zero UUID as [issued_by], and the
    store holds a user with that identifier; when the store holds no such
    user, [Create] returns an error and nothing is persisted. A
    [student_id] or an achievement id that does not parse is rejected
    with its validation error, nothing being persisted. *)
Theorem Create_with_unparseable_issuer (w : World)
        (req : CreateCertificateRequest.t) (issuedBy : string) :
  uuid_Parse issuedBy = None ->
  let outcome := service.Create req issuedBy w in
  (forall zero, uuid_Parse zero = Some uuid_Nil ->
                outcome = service.Create req zero w)
  /\ (forall detail,
         fst outcome = Ok (Some detail) ->
         Certificate.IssuedBy (CertificateDetail.Certificate detail)
         = Some uuid_Nil
         /\ pg.has_user (db w) uuid_Nil = true
         /\ exists row,
             certificate_with_id (db (snd outcome))
               (Certificate.ID (CertificateDetail.Certificate detail))
             = Some row
             /\ Certificate.IssuedBy row = Some uuid_Nil)
  /\ (pg.has_user (db w) uuid_Nil = false ->
      exists e, fst outcome = Err e /\ db (snd outcome) = db w)
  /\ (uuid_Parse (CreateCertificateRequest.StudentID req) = None ->
      fst outcome = Err (errors_New "student_id tidak valid")
      /\ db (snd outcome) = db w)
  /\ (forall sid,
         uuid_Parse (CreateCertificateRequest.StudentID req) = Some sid ->
         (exists bad, In bad (CreateCertificateRequest.AchievementIDs req)
                      /\ uuid_Parse bad = None) ->
         exists bad,
           In bad (CreateCertificateRequest.AchievementIDs req)
           /\ uuid_Parse bad = None
           /\ fst outcome
              = Err (errors_New ("achievement_id tidak valid: " ++ bad)%string)
           /\ db (snd outcome) = db w).
Proof.
  intros Hiss outcome. subst outcome.
  split; [|split; [|split; [|split]]].
  - intros zero Hz. unfold service.Create, service.Create_build.
    now rewrite Hiss, Hz.
  - intros detail E.
    destruct (service.Create req issuedBy w) as [r w'] eqn:E'.
    simpl in E; subst r. simpl snd.
    revert E'. unfold service.Create. unfold bind at 1.
    destruct (service.Create_build req issuedBy w) as [[[cert ids]|e] w1] eqn:Eb;
      [|discriminate].
    intros Es.
    apply Create_build_Ok in Eb as (K & _ & _ & _ & _ & Hby & _).
    rewrite Hiss in Hby.
    apply Create_store_Ok in Es as (now & Hins & _ & Hrow & Hcert).
    rewrite Hcert. split; [exact Hby|]. split.
    + apply insert_certificate_Ok in Hins as (_ & _ & _ & Hu).
      rewrite <- (kept_db _ _ K). now apply Hu.
    + exists (pg.inserted_row cert now). split; [exact Hrow | exact Hby].
  - intros Hno.
    destruct (Create_unchanged_unless_stored req issuedBy w)
      as [He | (cert & ids & w1 & now & Eb & Hins & _)]; [exact He|].
    exfalso.
    apply Create_build_Ok in Eb as (_ & _ & _ & _ & _ & Hby & _).
    rewrite Hiss in Hby.
    apply insert_certificate_Ok in Hins as (_ & _ & _ & Hu).
    rewrite (Hu _ Hby) in Hno. discriminate.
  - intros Hs. unfold service.Create, service.Create_build, bind.
    rewrite Hs. simpl. auto.
  - intros sid Hs (bad0 & Hin0 & Hbad0).
    pose proof (parse_achievement_ids_run
                  (CreateCertificateRequest.AchievementIDs req) w) as [Hw Hp].
    destruct (fst (service.parse_achievement_ids
                     (CreateCertificateRequest.AchievementIDs req) w))
      as [uids|e] eqn:Ep.
    + exfalso. clear - Hp Hin0 Hbad0.
      induction Hp as [|s u l l' Hsu Hp IH]; [contradiction|].
      destruct Hin0 as [-> | Hin0]; [congruence | auto].
    + destruct Hp as (bad & Hin & Hbad & ->).
      exists bad. split; [exact Hin|]. split; [exact Hbad|].
      rewrite (Create_rejects_achievement_id w req issuedBy sid _ Hs Ep).
      split; reflexivity.
Qed.
End Issuer.

(** With a user whose identifier is all zero in the store, the issuer [""]
    (no identity in the context) gets a certificate issued by that user. *)
Lemma Create_with_unparseable_issuer_witness :
  let w := mkWorld Scenario.school_with_nil_user (Scenario.oracle_in 2024) 0 in
  uuid_Parse (Libraries := Scenario.libraries) "" = None
  /\ exists detail,
      fst (service.Create (L := Scenario.libraries) Scenario.request "" w)
      = Ok (Some detail)
      /\ Certificate.IssuedBy (CertificateDetail.Certificate detail)
         = Some uuid_Nil.
Proof.
  intros w. split; [reflexivity|].
  eexists. split; [vm_compute; reflexivity|].
  refine (proj1 (proj1 (proj2
            (Create_with_unparseable_issuer (L := Scenario.libraries)
               w Scenario.request "" eq_refl)) _ _)).
  vm_compute; reflexivity.
Defined.

(** C10, as stated, fails: the school has no user with the all-zero
    identifier; the request that is issued for the operator ["7"] is, for
    the issuer [""], refused by the foreign key on [issued_by], and nothing
    is persisted. *)
Lemma unparseable_issuer_fails_on_foreign_key :
  let w := Scenario.world_2024 in
  let create := service.Create (L := Scenario.libraries) Scenario.request in
  uuid_Parse (Libraries := Scenario.libraries) "" = None
  /\ (exists detail, fst (create "7" w) = Ok (Some detail))
  /\ fst (create "" w)
     = Err (sql_err (ForeignKeyViolation certificates_issued_by_fkey))
  /\ db (snd (create "" w)) = db w.
Proof.
  intros w create. subst w create. split; [reflexivity|]. split.
  - eexists. vm_compute. reflexivity.
  - split; vm_compute; reflexivity.
Qed.

(** ** C6: a certificate number that is already taken *)

Section DuplicateNumber.
Context {L : Libraries}.




End DuplicateNumber.



(** ** C7: [Revoke] *)

(** The statement of [repository.Revoke] assigns [updated_at], which is
    not a column of [certificates]: the store refuses it whatever the rows
    are, and the call returns an error with the store as it was. *)
Lemma repo_Revoke_outcome (id : UUID) (w : World) :
  exists e,
    fst (repository.Revoke id w) = Err e
    /\ db (snd (repository.Revoke id w)) = db w
    /\ (upstream_down (oracle w) (S (tick w)) = false ->
        e = sql_err (UndefinedColumn "updated_at")).
Proof.
  unfold repository.Revoke, time_Now, db_exec, db_query, bind, next, round_trip.
  simpl. destruct (upstream_down (oracle w) (S (tick w))); simpl.
  - eexists; split; [reflexivity|]. split; [reflexivity | discriminate].
  - eexists; split; [reflexivity|]. split; reflexivity.
Qed.

Section Revocation.
Context {L : Libraries}.

Lemma Revoke_run (w : World) (id : string) (uid : UUID) :
  uuid_Parse id = Some uid ->
  healthy w ->
  service.Revoke id w
  = match certificate_with_id (db w) uid with
    | None => (Err ErrCertificateNotFound, bump w)
    | Some c =>
        if Certificate.Status c =? "revoked"
        then (Err (errors_New "sertifikat sudah dicabut sebelumnya"), bump w)
        else repository.Revoke uid (bump w)
    end.
Proof.
  intros Hp H. unfold service.Revoke. rewrite Hp. unfold bind at 1.
  rewrite (FindByID_healthy uid w H).
  destruct (certificate_with_id (db w) uid) as [c|]; unfold option_map;
    cbv beta iota; [|reflexivity].
  change (Certificate.Status (pg.joined true (db w) c)) with (Certificate.Status c).
  destruct (Certificate.Status c =? "revoked"); reflexivity.
Qed.

(** C7, evaluated where the code departs from it. For an id that parses,
    against a store that answers, [Revoke] leaves the store as it was in
    every case:
    - no certificate has the id: [ErrCertificateNotFound], answered 404;
    - the certificate is already revoked: an error that is not
      [ErrCertificateNotFound], answered 400;
    - the certificate is not revoked: the UPDATE is refused by the store
      ([certificates] has no column [updated_at]), the call returns that
      error, answered 400, and the certificate is stored as it was, with
      the status it had. An active certificate is not transitioned. *)
Theorem Revoke_leaves_active_certificate_active
        (w : World) (id : string) (uid : UUID) :
  uuid_Parse id = Some uid ->
  healthy w ->
  let outcome := service.Revoke id w in
  db (snd outcome) = db w
  /\ match certificate_with_id (db w) uid with
     | None =>
         fst outcome = Err ErrCertificateNotFound
         /\ fst (handler.Revoke id w)
            = Ok (handler.mkResponse handler.StatusNotFound false
                    "sertifikat tidak ditemukan")
     | Some c =>
         if Certificate.Status c =? "revoked"
         then
           fst outcome = Err (errors_New "sertifikat sudah dicabut sebelumnya")
           /\ errors_Is (errors_New "sertifikat sudah dicabut sebelumnya")
                        ErrCertificateNotFound = false
           /\ fst (handler.Revoke id w)
              = Ok (handler.mkResponse handler.StatusBadRequest false
                      "sertifikat sudah dicabut sebelumnya")
         else
           fst outcome = Err (sql_err (UndefinedColumn "updated_at"))
           /\ certificate_with_id (db (snd outcome)) uid = Some c
           /\ fst (handler.Revoke id w)
              = Ok (handler.mkResponse handler.StatusBadRequest false
                      (driver_text (UndefinedColumn "updated_at")))
     end.
Proof.
  intros Hp Hh outcome. subst outcome.
  unfold handler.Revoke, handler.respond.
  rewrite (Revoke_run w id uid Hp Hh).
  destruct (certificate_with_id (db w) uid) as [c|] eqn:Ec.
  2:{ split; [reflexivity|]. split; reflexivity. }
  destruct (Certificate.Status c =? "revoked").
  { split; [reflexivity|]. repeat split. }
  destruct (repo_Revoke_outcome uid (bump w)) as (e & He & Hdb & Hcol).
  specialize (Hcol (Hh _)). subst e.
  destruct (repository.Revoke uid (bump w)) as [r w'] eqn:Er.
  simpl in He, Hdb. subst r. simpl fst. simpl snd.
  split; [exact Hdb|]. split; [reflexivity|].
  split; [now rewrite Hdb | reflexivity].
Qed.

(** An active certificate cannot be revoked against the schema of
    [001_init.sql]: the guard lets the request through, the store refuses
    the statement, and the certificate stays active. *)
Lemma Revoke_of_active_certificate_fails (w : World) (id : string) (uid : UUID)
      (c : Certificate.t) :
  uuid_Parse id = Some uid ->
  healthy w ->
  certificate_with_id (db w) uid = Some c ->
  Certificate.Status c = "active" ->
  fst (service.Revoke id w) = Err (sql_err (UndefinedColumn "updated_at"))
  /\ db (snd (service.Revoke id w)) = db w.
Proof.
  intros Hp H Hc Ha. rewrite (Revoke_run w id uid Hp H), Hc, Ha.
  simpl (_ =? _). cbv iota.
  destruct (repo_Revoke_outcome uid (bump w)) as (e & He & Hdb & Hcol).
  rewrite He, Hdb. split; [|reflexivity].
  rewrite Hcol; [reflexivity | apply H].
Qed.

End Revocation.

(** Certificate 50 of Ani is active; revoking it is answered 400 and it is
    still active. *)
Lemma Revoke_leaves_active_certificate_active_witness :
  let c := Scenario.certificate 50%N "tok" "active" in
  let w := mkWorld (Scenario.school_with c) (Scenario.oracle_in 2024) 0 in
  fst (service.Revoke (L := Scenario.libraries) "32" w)
  = Err (sql_err (UndefinedColumn "updated_at"))
  /\ certificate_with_id
       (db (snd (service.Revoke (L := Scenario.libraries) "32" w))) 50%N
     = Some c
  /\ Certificate.Status c = "active"
  /\ fst (handler.Revoke (L := Scenario.libraries) "32" w)
     = Ok (handler.mkResponse 400 false "pq: column does not exist").
Proof.
  intros c w.
  assert (Hh : healthy w) by (intros n; reflexivity).
  destruct (Revoke_leaves_active_certificate_active (L := Scenario.libraries)
              w "32" 50%N eq_refl Hh) as (_ & H).
  change (certificate_with_id (db w) 50%N) with (Some c) in H.
  change (Certificate.Status c =? "revoked") with false in H.
  destruct H as (H1 & H2 & H3).
  split; [exact H1|]. split; [exact H2|]. split; [reflexivity | exact H3].
Defined.

(** ** C8: what no operation changes *)

Lemma carried_over_refl (c : Certificate.t) : carried_over c c.
Proof. repeat split; auto. Qed.

Lemma preserved_refl (d : DB) : preserved d d.
Proof. intros id c Hc. exists c. split; [exact Hc | apply carried_over_refl]. Qed.

Lemma preserved_eq (d d' : DB) : d' = d -> preserved d d'.
Proof. intros ->. apply preserved_refl. Qed.

Lemma preserved_trans (a b c : DB) :
  preserved a b -> preserved b c -> preserved a c.
Proof.
  intros Hab Hbc id x Hx.
  destruct (Hab id x Hx) as (y & Hy & (N1 & T1 & S1)).
  destruct (Hbc id y Hy) as (z & Hz & (N2 & T2 & S2)).
  exists z. split; [exact Hz|]. repeat split; try congruence. auto.
Qed.

Lemma find_app_found {A} (p : A -> bool) (l l' : list A) (x : A) :
  find p l = Some x -> find p (l ++ l') = Some x.
Proof.
  induction l as [|y l IH]; simpl; [discriminate|].
  destruct (p y); auto.
Qed.

Lemma preserved_inserted (d : DB) (row : Certificate.t) (joins : list (UUID * UUID)) :
  preserved d
    (with_certificate_achievements joins
       (with_certificates (certificates d ++ [row]) d)).
Proof.
  intros id c Hc. exists c. split; [|apply carried_over_refl].
  unfold certificate_with_id in *. simpl. now apply find_app_found.
Qed.

Lemma preserved_repo_Create (cert : Certificate.t) (ids : list UUID) (w : World) :
  preserved (db w) (db (snd (repository.Create cert ids w))).
Proof.
  destruct (repo_Create_outcome cert ids w)
    as [(e & _ & Hdb) | (_ & now & _ & Hdb)]; rewrite Hdb.
  - apply preserved_refl.
  - apply preserved_inserted.
Qed.

(** The one assignment of [UpdatePDFURL], row by row. *)
Lemma update_rows_pdf_url (id : UUID) (url : string) (rows : list Certificate.t) :
  pg.update_rows [("pdf_url", pg.VText url)] id rows
  = Ok (map (fun c => if (Certificate.ID c =? id)%N
                      then Certificate.with_PDFURL (Some url) c else c) rows).
Proof.
  induction rows as [|c rows IH]; simpl; [reflexivity|].
  rewrite IH. destruct (Certificate.ID c =? id)%N; [|reflexivity].
  destruct c; reflexivity.
Qed.

Lemma find_map_by_id (f : Certificate.t -> Certificate.t) (id : UUID)
      (rows : list Certificate.t) :
  (forall c, Certificate.ID (f c) = Certificate.ID c) ->
  find (fun c => (Certificate.ID c =? id)%N) (map f rows)
  = option_map f (find (fun c => (Certificate.ID c =? id)%N) rows).
Proof.
  intros Hf. induction rows as [|c rows IH]; simpl; [reflexivity|].
  rewrite Hf. destruct (Certificate.ID c =? id)%N; [reflexivity | exact IH].
Qed.

(** The store after [UpdatePDFURL]: as it was, or with the URL set on the
    rows of that id. *)
Lemma UpdatePDFURL_outcome (id : UUID) (url : string) (w : World) :
  db (snd (repository.UpdatePDFURL id url w)) = db w
  \/ db (snd (repository.UpdatePDFURL id url w))
     = with_certificates
         (map (fun c => if (Certificate.ID c =? id)%N
                        then Certificate.with_PDFURL (Some url) c else c)
              (certificates (db w)))
         (db w).
Proof.
  unfold repository.UpdatePDFURL, db_exec, db_query, bind, round_trip.
  destruct (upstream_down (oracle w) (tick w)); [left; reflexivity|].
  right. unfold pg.update_certificates.
  simpl find. cbv iota. rewrite update_rows_pdf_url. reflexivity.
Qed.

Lemma with_PDFURL_back (v : option string) (c : Certificate.t) :
  Certificate.with_PDFURL (Certificate.PDFURL c) (Certificate.with_PDFURL v c) = c.
Proof. now destruct c. Qed.

Lemma with_PDFURL_same (c : Certificate.t) :
  Certificate.with_PDFURL (Certificate.PDFURL c) c = c.
Proof. now destruct c. Qed.

Lemma with_Status_same (c : Certificate.t) :
  Certificate.with_Status (Certificate.Status c) c = c.
Proof. now destruct c. Qed.

Lemma UpdatePDFURL_found (id : UUID) (url : string) (w : World) (id' : UUID)
      (c : Certificate.t) :
  certificate_with_id (db w) id' = Some c ->
  certificate_with_id (db (snd (repository.UpdatePDFURL id url w))) id'
  = Some c
  \/ ((id' =? id)%N = true
      /\ certificate_with_id (db (snd (repository.UpdatePDFURL id url w))) id'
         = Some (Certificate.with_PDFURL (Some url) c)).
Proof.
  intros Hc.
  destruct (UpdatePDFURL_outcome id url w) as [-> | ->]; [left; exact Hc|].
  unfold certificate_with_id in *. simpl certificates.
  rewrite find_map_by_id.
  - rewrite Hc. simpl.
    apply find_some in Hc as [_ Hid]. apply N.eqb_eq in Hid.
    destruct (Certificate.ID c =? id)%N eqn:E.
    + right. split; [|reflexivity]. now rewrite <- Hid.
    + left. reflexivity.
  - intros x. destruct (Certificate.ID x =? id)%N; now destruct x.
Qed.

Lemma preserved_UpdatePDFURL (id : UUID) (url : string) (w : World) :
  preserved (db w) (db (snd (repository.UpdatePDFURL id url w))).
Proof.
  intros id' c Hc.
  destruct (UpdatePDFURL_found id url w id' c Hc) as [H | [_ H]].
  - exists c. split; [exact H | apply carried_over_refl].
  - eexists. split; [exact H|]. destruct c; repeat split; auto.
Qed.

Section Runs.
Context {L : Libraries}.

Lemma Create_store_db (built : Certificate.t * list UUID) (w : World) :
  db (snd (service.Create_store built w))
  = db (snd (repository.Create (fst built) (snd built) w)).
Proof.
  destruct built as [cert ids]. unfold service.Create_store, bind. simpl.
  destruct (repository.Create cert ids w) as [[[]|e] w1]; [|reflexivity].
  pose proof (keeps_FindByIDWithDetail true (Certificate.ID cert) w1) as K.
  destruct (repository.FindByIDWithDetail (Certificate.ID cert) w1)
    as [[d|e] w2]; simpl in *; apply (kept_db _ _ K).
Qed.

Lemma preserved_perform (o : operation) (w : World) :
  preserved (db w) (db (perform o w)).
Proof.
  destruct o as [cert ids | id url | id | req issuedBy | detail uploaded | id];
    simpl.
  - apply preserved_repo_Create.
  - apply preserved_UpdatePDFURL.
  - apply preserved_eq.
    destruct (repo_Revoke_outcome id w) as (e & _ & Hdb & _). exact Hdb.
  - unfold service.Create, bind.
    pose proof (keeps_Create_build true req issuedBy w) as K.
    destruct (service.Create_build req issuedBy w) as [[built|e] w1];
      simpl in K.
    + rewrite Create_store_db, <- (kept_db _ _ K).
      apply preserved_repo_Create.
    + apply preserved_eq, (kept_db _ _ K).
  - unfold service.generateAndUploadPDF.
    destruct uploaded as [url|]; [|apply preserved_refl].
    unfold bind, ignore_err.
    pose proof (preserved_UpdatePDFURL
                  (Certificate.ID (CertificateDetail.Certificate detail)) url w) as P.
    destruct (repository.UpdatePDFURL _ url w) as [[[]|e] w1]; exact P.
  - unfold service.Revoke.
    destruct (uuid_Parse id) as [uid|]; [|apply preserved_refl].
    unfold bind.
    pose proof (keeps_FindByID true uid w) as K.
    destruct (repository.FindByID uid w) as [[[c|]|e] w1]; simpl in K;
      try (apply preserved_eq, (kept_db _ _ K)).
    destruct (Certificate.Status c =? "revoked");
      [apply preserved_eq, (kept_db _ _ K)|].
    apply preserved_eq.
    destruct (repo_Revoke_outcome uid w1) as (e & _ & Hdb & _).
    rewrite Hdb. apply (kept_db _ _ K).
Qed.

Lemma preserved_run (ops : list operation) :
  forall w, preserved (db w) (db (run ops w)).
Proof.
  induction ops as [|o ops IH]; intros w; simpl.
  - apply preserved_refl.
  - eapply preserved_trans; [apply preserved_perform | apply IH].
Qed.

(** C8. Along every run of [Create], [UpdatePDFURL] and [Revoke] (of the
    repository or through the service), a stored certificate stays stored
    under its id with the number and the token it had, and once revoked it
    is still revoked. One [UpdatePDFURL] leaves the certificate it names
    as it was but for [pdf_url], and every other certificate as it was;
    one [Revoke] leaves the certificate as it was but for [status]. *)
Theorem number_and_token_immutable_revoked_terminal
        (ops : list operation) (w : World) (id : UUID) (c : Certificate.t) :
  certificate_with_id (db w) id = Some c ->
  (exists c',
      certificate_with_id (db (run ops w)) id = Some c'
      /\ Certificate.CertificateNumber c' = Certificate.CertificateNumber c
      /\ Certificate.QRToken c' = Certificate.QRToken c
      /\ (Certificate.Status c = "revoked" -> Certificate.Status c' = "revoked"))
  /\ (forall target url,
         exists c',
           certificate_with_id
             (db (perform (repo_UpdatePDFURL target url) w)) id = Some c'
           /\ Certificate.with_PDFURL (Certificate.PDFURL c) c' = c
           /\ (id <> target -> c' = c))
  /\ (forall target,
         exists c',
           certificate_with_id (db (perform (repo_Revoke target) w)) id = Some c'
           /\ Certificate.with_Status (Certificate.Status c) c' = c
           /\ (id <> target -> c' = c)).
Proof.
  intros Hc. split; [exact (preserved_run ops w id c Hc)|]. split.
  - intros target url. simpl.
    destruct (UpdatePDFURL_found target url w id c Hc) as [H | [E H]].
    + exists c. split; [exact H|]. split; [apply with_PDFURL_same | auto].
    + eexists. split; [exact H|]. split; [apply with_PDFURL_back|].
      intros Hne. apply N.eqb_eq in E. contradiction.
  - intros target. simpl.
    destruct (repo_Revoke_outcome target w) as (e & _ & Hdb & _).
    rewrite Hdb. exists c. split; [exact Hc|].
    split; [apply with_Status_same | auto].
Qed.

End Runs.

(** A revoked certificate, after an issuance, an upload and two attempts
    to revoke: same number, same token, still revoked. *)
Lemma number_and_token_immutable_revoked_terminal_witness :
  let revoked := Scenario.certificate 50%N "tok" "revoked" in
  let w := mkWorld (Scenario.school_with revoked) (Scenario.oracle_in 2025) 0 in
  let ops := [svc_Create Scenario.request "7"; repo_UpdatePDFURL 50%N "https://cdn/skp.pdf";
              svc_Revoke "32"; repo_Revoke 50%N] in
  exists c',
    certificate_with_id (db (run (L := Scenario.libraries) ops w)) 50%N = Some c'
    /\ Certificate.CertificateNumber c' = "421.2/SKP/2024/0001"
    /\ Certificate.QRToken c' = "tok"
    /\ Certificate.Status c' = "revoked".
Proof.
  intros revoked w ops.
  destruct (number_and_token_immutable_revoked_terminal
              (L := Scenario.libraries) ops w 50%N revoked eq_refl)
    as ((c' & Hc' & Hn & Ht & Hs) & _).
  exists c'. split; [exact Hc'|]. split; [exact Hn|]. split; [exact Ht|].
  apply Hs. reflexivity.
Defined.

(** ** Supplements *)

(** Below three columns the slice bound is negative and [truncate]
    panics; no call site passes such a width. *)
Example truncate_panics_below_three : utils.truncate "abcd" 2 = None.
Proof. reflexivity. Qed.

Example truncate_fits : utils.truncate "Juara 1" 14 = Some "Juara 1".
Proof. reflexivity. Qed.

Lemma length_zeros (k : nat) : String.length (fmt.zeros k) = k.
Proof. induction k as [|k IH]; simpl; [reflexivity | now rewrite IH]. Qed.

Lemma zeros_read_back (k : nat) (s : string) (u : Decimal.uint) :
  NilEmpty.uint_of_string s = Some u ->
  exists u', NilEmpty.uint_of_string (fmt.zeros k ++ s)%string = Some u'
             /\ N.of_uint u' = N.of_uint u.
Proof.
  intros Hs. induction k as [|k (u' & Hu' & Hn)]; simpl.
  - exists u; auto.
  - rewrite Hu'. exists (Decimal.D0 u'). split; [reflexivity | exact Hn].
Qed.

Lemma digits_read_back (m : N) :
  exists u, NilEmpty.uint_of_string (fmt.digits m) = Some u /\ N.of_uint u = m.
Proof.
  unfold fmt.digits, NilZero.string_of_uint.
  pose proof (DecimalN.Unsigned.of_to m) as Hm.
  destruct (N.to_uint m) as [|d|d|d|d|d|d|d|d|d|d] eqn:E;
    try (rewrite <- E, NilEmpty.usu; exists (N.to_uint m); split;
         [reflexivity | now rewrite E]).
  exists (Decimal.D0 Decimal.Nil). split; [reflexivity | exact Hm].
Qed.

(** [zero_padded width n] is at least [width] characters long, all of
    them decimal digits, and reads back as [n]. *)
Lemma zero_padded_reads_back (width : nat) (n : Z) :
  (0 <= n)%Z ->
  (width <= String.length (zero_padded width n))%nat
  /\ exists u, NilEmpty.uint_of_string (zero_padded width n) = Some u
               /\ Z.of_N (N.of_uint u) = n.
Proof.
  intros Hn. unfold zero_padded.
  assert (Hd : decimal n = fmt.digits (Z.to_N n)).
  { rewrite <- verb_d_decimal. unfold fmt.verb_d.
    destruct (n <? 0)%Z eqn:E; [apply Z.ltb_lt in E; lia | reflexivity]. }
  rewrite Hd. split.
  - rewrite length_append, length_zeros. lia.
  - destruct (digits_read_back (Z.to_N n)) as (u & Hu & Hm).
    destruct (zeros_read_back (width - String.length (fmt.digits (Z.to_N n)))
                _ _ Hu) as (u' & Hu' & Hn').
    exists u'. split; [exact Hu'|]. rewrite Hn', Hm. lia.
Qed.

(** The token is thirty-two characters, two per random byte. *)
Lemma hex_EncodeToString_length (src : list Byte.byte) :
  String.length (hex.EncodeToString src) = (2 * List.length src)%nat.
Proof.
  induction src as [|b src IH]; simpl; [reflexivity|]. rewrite IH. lia.
Qed.

(** Every width [GenerateCertificatePDF] passes to [truncate] is at least
    three. *)
Lemma column_widths_at_least_three :
  Forall (fun m => (3 <= m <= GoInt.max_int)%Z) utils.column_widths.
Proof.
  unfold utils.column_widths, GoInt.max_int.
  repeat constructor; lia.
Qed.

(** The assignment of [status] alone, the part of the statement of
    [Revoke] that the table can take: row by row, it sets the status of
    the rows of that id and nothing else, so the number, the token and a
    revoked status are carried over by it as well. *)
Lemma update_rows_status (id : UUID) (rows : list Certificate.t) :
  pg.update_rows [("status", pg.VText "revoked")] id rows
  = Ok (map (fun c => if (Certificate.ID c =? id)%N
                      then Certificate.with_Status "revoked" c else c) rows).
Proof.
  induction rows as [|c rows IH]; simpl; [reflexivity|].
  rewrite IH. destruct (Certificate.ID c =? id)%N; [|reflexivity].
  destruct c; reflexivity.
Qed.

Lemma status_update_carried_over (id : UUID) (d d' : DB) :
  pg.update_certificates [("status", pg.VText "revoked")] id d = Ok d' ->
  preserved d d'.
Proof.
  unfold pg.update_certificates. simpl find. cbv iota.
  rewrite update_rows_status. intros E; inversion E; subst d'; clear E.
  intros id' c Hc. unfold certificate_with_id in *. simpl certificates.
  rewrite find_map_by_id.
  - rewrite Hc. simpl. eexists. split; [reflexivity|].
    destruct (Certificate.ID c =? id)%N; destruct c; repeat split; auto.
  - intros x. destruct (Certificate.ID x =? id)%N; now destruct x.
Qed.

(* ================================================================== *)
(** * Part III: further properties of the code                        *)
(* ================================================================== *)

(** ** The errors of the reads *)

Lemma FindByID_Err (id : UUID) (w w' : World) (e : error) :
  repository.FindByID id w = (Err e, w') ->
  e = sql_err ConnectionFailure
  /\ upstream_down (oracle w) (tick w) = true
  /\ kept true w w'.
Proof.
  intros E. assert (K : kept true w w').
  { pose proof (keeps_FindByID true id w) as K. now rewrite E in K. }
  revert E. unfold repository.FindByID, try, bind, db_query, round_trip.
  destruct (upstream_down (oracle w) (tick w)).
  - simpl. intros E; inversion E; subst; repeat split; auto; apply K.
  - unfold pg.certificate_by_id. rewrite first_row_find.
    destruct (find _ _); simpl; discriminate.
Qed.

Lemma FindByQRToken_outcome (token : string) (w : World) :
  repository.FindByQRToken token w
  = (if upstream_down (oracle w) (tick w)
     then Err (sql_err ConnectionFailure)
     else Ok (option_map (pg.joined false (db w))
                (certificate_with_token (db w) token)),
     bump w).
Proof.
  unfold repository.FindByQRToken, try, bind, db_query, round_trip.
  destruct (upstream_down (oracle w) (tick w)); [reflexivity|].
  unfold pg.certificate_by_token. rewrite first_row_find.
  unfold certificate_with_token. destruct (find _ _); reflexivity.
Qed.

Lemma FindByID_outcome (id : UUID) (w : World) :
  repository.FindByID id w
  = (if upstream_down (oracle w) (tick w)
     then Err (sql_err ConnectionFailure)
     else Ok (option_map (pg.joined true (db w))
                (certificate_with_id (db w) id)),
     bump w).
Proof.
  unfold repository.FindByID, try, bind, db_query, round_trip.
  destruct (upstream_down (oracle w) (tick w)); [reflexivity|].
  unfold pg.certificate_by_id. rewrite first_row_find.
  unfold certificate_with_id. destruct (find _ _); reflexivity.
Qed.

Lemma repo_Revoke_fails (id : UUID) (w : World) :
  exists s,
    fst (repository.Revoke id w) = Err (sql_err s)
    /\ db (snd (repository.Revoke id w)) = db w.
Proof.
  unfold repository.Revoke, time_Now, db_exec, db_query, bind, next, round_trip.
  simpl. destruct (upstream_down (oracle w) (S (tick w))); simpl;
    eexists; split; reflexivity.
Qed.

(** ** Revocation as the code has it *)

Section RevokeEndpoint.
Context {L : Libraries}.

Lemma Revoke_fails (id : string) (w : World) :
  exists e w',
    service.Revoke id w = (Err e, w')
    /\ (forall msg, e <> runtime_panic msg)
    /\ db w' = db w.
Proof.
  unfold service.Revoke.
  destruct (uuid_Parse id) as [uid|].
  2:{ eexists; eexists; split; [reflexivity|]. split; [discriminate | reflexivity]. }
  unfold bind. rewrite FindByID_outcome.
  destruct (upstream_down (oracle w) (tick w)).
  { eexists; eexists; split; [reflexivity|]. split; [discriminate | reflexivity]. }
  destruct (certificate_with_id (db w) uid) as [c|]; unfold option_map;
    cbv beta iota.
  2:{ eexists; eexists; split; [reflexivity|]. split; [discriminate | reflexivity]. }
  destruct (Certificate.Status (pg.joined true (db w) c) =? "revoked").
  { eexists; eexists; split; [reflexivity|]. split; [discriminate | reflexivity]. }
  destruct (repo_Revoke_fails uid (bump w)) as (s & E & Hdb).
  destruct (repository.Revoke uid (bump w)) as [r w'] eqn:Er.
  simpl in E, Hdb. subst r.
  exists (sql_err s), w'. split; [reflexivity|]. split; [discriminate | exact Hdb].
Qed.

(** X1. Revoking never goes through. Whatever the identifier and the
    state of the store, [service.Revoke] returns an error and leaves the
    store as it was, and the handler answers with a status other than 200:
    the statement of [repository.Revoke] names the column [updated_at],
    which [certificates] does not have. *)
Theorem Revoke_never_succeeds (id : string) (w : World) :
  (exists e, fst (service.Revoke id w) = Err e)
  /\ db (snd (service.Revoke id w)) = db w
  /\ (exists resp,
         fst (handler.Revoke id w) = Ok resp
         /\ handler.Success resp = false
         /\ (handler.StatusCode resp = handler.StatusNotFound
             \/ handler.StatusCode resp = handler.StatusBadRequest))
  /\ db (snd (handler.Revoke id w)) = db w.
Proof.
  destruct (Revoke_fails id w) as (e & w' & E & Hp & Hdb).
  unfold handler.Revoke, handler.respond. rewrite E. simpl fst; simpl snd.
  split; [eauto|]. split; [exact Hdb|].
  destruct e; try (split; [eexists; split; [reflexivity|]; simpl; auto | exact Hdb]).
  exfalso; now apply (Hp msg).
Qed.

End RevokeEndpoint.

(** ** Verification as the code has it *)

Lemma keeps_Verify (strict : bool) (token : string) :
  keeps strict (service.Verify token).
Proof.
  unfold service.Verify.
  apply keeps_bind; [apply keeps_FindByQRToken|]. intros [c|]; [|apply keeps_ret].
  destruct (_ =? _); [apply keeps_ret|].
  apply keeps_bind; [apply keeps_FindByIDWithDetail|]. keeps_tac.
Qed.

Lemma find_In_same_id (l : list Certificate.t) (c : Certificate.t) :
  In c l ->
  exists c', find (fun x => (Certificate.ID x =? Certificate.ID c)%N) l = Some c'.
Proof.
  intros Hin. apply existsb_find. apply existsb_exists.
  exists c. split; [exact Hin | apply N.eqb_refl].
Qed.

Lemma FindByIDWithDetail_None (id : UUID) (w w' : World) :
  repository.FindByIDWithDetail id w = (Ok None, w') ->
  certificate_with_id (db w) id = None.
Proof.
  unfold repository.FindByIDWithDetail. unfold bind at 1.
  rewrite FindByID_outcome.
  destruct (upstream_down (oracle w) (tick w)); [discriminate|].
  destruct (certificate_with_id (db w) id) as [c|]; [|reflexivity].
  unfold option_map; cbv beta iota.
  unfold bind at 1.
  destruct (db_query _ (bump w)) as [[s|e] w1]; [|discriminate].
  unfold bind at 1.
  destruct (db_query _ w1) as [[achs|e] w2]; [|discriminate].
  unfold bind at 1.
  destruct (mapM _ achs w2) as [[ats|e] w3]; [|discriminate].
  unfold ret; discriminate.
Qed.

(** What [Verify] returns, whatever the store answers. *)
Lemma Verify_outcome (token : string) (w : World) :
  match fst (service.Verify token w) with
  | Err e => e = sql_err ErrNoRows \/ e = sql_err ConnectionFailure
  | Ok resp =>
      VerifyResponse.IsValid resp
      = match certificate_with_token (db w) token with
        | Some c => negb (Certificate.Status c =? "revoked")
        | None => false
        end
  end.
Proof.
  unfold service.Verify. unfold bind at 1. rewrite FindByQRToken_outcome.
  destruct (upstream_down (oracle w) (tick w)); [simpl; auto|].
  destruct (certificate_with_token (db w) token) as [c|] eqn:Etok;
    unfold option_map; cbv beta iota; [|reflexivity].
  change (Certificate.Status (pg.joined false (db w) c)) with (Certificate.Status c).
  destruct (Certificate.Status c =? "revoked"); [reflexivity|].
  unfold bind. rewrite joined_ID.
  destruct (repository.FindByIDWithDetail (Certificate.ID c) (bump w))
    as [[[detail|]|e] w1] eqn:E.
  - reflexivity.
  - exfalso. apply FindByIDWithDetail_None in E.
    unfold certificate_with_token in Etok. apply find_some in Etok as [Hin _].
    destruct (find_In_same_id _ _ Hin) as (c' & Hc').
    unfold certificate_with_id in E. simpl db in E. congruence.
  - simpl. eapply FindByIDWithDetail_Err; exact E.
Qed.

(** X2. [Verify] always answers. For every token and every state of the
    store and of the connection, the service does not reach the nil
    dereference after [FindByIDWithDetail], the handler returns a response
    with status 200, 422 or 500, a 200 is given only for a stored
    certificate with that token whose status is not [revoked], and the
    store is left as it was. *)
Theorem Verify_always_answers (token : string) (w : World) :
  (forall msg, fst (service.Verify token w) <> Err (runtime_panic msg))
  /\ (exists resp,
         fst (handler.Verify token w) = Ok resp
         /\ (handler.StatusCode resp = handler.StatusOK
             \/ handler.StatusCode resp = handler.StatusUnprocessableEntity
             \/ handler.StatusCode resp = handler.StatusInternalServerError)
         /\ (handler.StatusCode resp = handler.StatusOK ->
             exists c, certificate_with_token (db w) token = Some c
                       /\ Certificate.Status c <> "revoked"))
  /\ db (snd (handler.Verify token w)) = db w.
Proof.
  pose proof (Verify_outcome token w) as H.
  pose proof (keeps_Verify true token w) as K. apply kept_db in K.
  unfold handler.Verify, handler.respond.
  destruct (service.Verify token w) as [[resp|e] w'] eqn:E; simpl in H, K.
  - split; [discriminate|]. split; [|exact K].
    eexists; split; [reflexivity|].
    destruct (VerifyResponse.IsValid resp); simpl.
    + split; [auto|]. intros _.
      destruct (certificate_with_token (db w) token) as [c|]; [|discriminate].
      exists c. split; [reflexivity|]. intros Hrev. rewrite Hrev in H.
      discriminate.
    + split; [auto|]. discriminate.
  - destruct H as [-> | ->]; (split; [discriminate|]); (split; [|exact K]);
      (eexists; split; [reflexivity|]); simpl; (split; [auto | discriminate]).
Qed.

(** X3. With the store reachable and the constraints of the schema in
    place, the verification endpoint answers 200 exactly when a
    certificate with the token is stored and its status is not [revoked],
    and 422 otherwise; [valid_until] plays no part. *)
Theorem Verify_status_code (token : string) (w : World) :
  healthy w ->
  constraints_hold (db w) = true ->
  exists resp,
    fst (handler.Verify token w) = Ok resp
    /\ handler.StatusCode resp
       = match certificate_with_token (db w) token with
         | Some c =>
             if Certificate.Status c =? "revoked"
             then handler.StatusUnprocessableEntity
             else handler.StatusOK
         | None => handler.StatusUnprocessableEntity
         end
    /\ handler.Success resp
       = match certificate_with_token (db w) token with
         | Some c => negb (Certificate.Status c =? "revoked")
         | None => false
         end.
Proof.
  intros H Hc.
  pose proof (Verify_outcome token w) as Hout.
  assert (Hok : exists resp, fst (service.Verify token w) = Ok resp).
  { unfold service.Verify. unfold bind at 1.
    rewrite (FindByQRToken_healthy token w H).
    destruct (certificate_with_token (db w) token) as [c|] eqn:Etok;
      unfold option_map; cbv beta iota; [|eexists; reflexivity].
    change (Certificate.Status (pg.joined false (db w) c))
      with (Certificate.Status c).
    destruct (Certificate.Status c =? "revoked"); [eexists; reflexivity|].
    assert (Hin : In c (certificates (db w))).
    { unfold certificate_with_token in Etok. now apply find_some in Etok. }
    destruct (constraints_student _ _ Hc Hin) as (s & Hs & _).
    pose proof (constraints_certificate_by_id _ _ Hc Hin) as Hid.
    destruct (FindByIDWithDetail_healthy (Certificate.ID c) (bump w) c s
                (healthy_bump w H) Hid Hs) as (w' & withAtt & E & _).
    unfold bind. rewrite joined_ID. rewrite E. eexists; reflexivity. }
  destruct Hok as (resp & Eresp). rewrite Eresp in Hout.
  unfold handler.Verify, handler.respond.
  destruct (service.Verify token w) as [r w'] eqn:E. simpl in Eresp. subst r.
  eexists; split; [reflexivity|].
  destruct (certificate_with_token (db w) token) as [c|].
  - destruct (Certificate.Status c =? "revoked"); rewrite Hout; simpl; auto.
  - rewrite Hout; simpl; auto.
Qed.

Lemma Verify_status_code_witness :
  let w := mkWorld (Scenario.school_with (Scenario.certificate 50%N "tok" "revoked"))
                   (Scenario.oracle_in 2024) 0 in
  exists resp,
    fst (handler.Verify "tok" w) = Ok resp
    /\ handler.StatusCode resp = handler.StatusUnprocessableEntity
    /\ handler.Success resp = false.
Proof.
  intros w.
  assert (Hh : healthy w) by (intros n; reflexivity).
  assert (Hc : constraints_hold (db w) = true) by reflexivity.
  destruct (Verify_status_code "tok" w Hh Hc) as (resp & E & Hcode & Hs).
  exists resp. split; [exact E|]. split; [exact Hcode | exact Hs].
Defined.

(** ** Where errors come from *)

Lemma raises_ret {A} (P : error -> Prop) (a : A) : raises P (ret a).
Proof. intros w e; discriminate. Qed.

Lemma raises_raise {A} (P : error -> Prop) (e : error) :
  P e -> raises P (@raise A e).
Proof. intros H w e' E; simpl in E; now inversion E; subst. Qed.

Lemma raises_next {A} (P : error -> Prop) (f : Oracle -> nat -> A) :
  raises P (next f).
Proof. intros w e; discriminate. Qed.

Lemma raises_put_db (P : error -> Prop) (d : DB) : raises P (put_db d).
Proof. intros w e; discriminate. Qed.

Lemma raises_bind {A B} (P : error -> Prop) (m : M A) (k : A -> M B) :
  raises P m -> (forall a, raises P (k a)) -> raises P (bind m k).
Proof.
  intros Hm Hk w e. unfold bind.
  specialize (Hm w). destruct (m w) as [[a|e0] w1]; simpl in *.
  - apply Hk.
  - intros E; inversion E; subst; auto.
Qed.

Lemma raises_try {A} (P : error -> Prop) (m : M A) (h : error -> M A) :
  (forall e, raises P (h e)) -> raises P (try m h).
Proof.
  intros Hh w e. unfold try. destruct (m w) as [[a|e0] w1]; simpl.
  - discriminate.
  - apply Hh.
Qed.

Lemma raises_ignore_err {A} (P : error -> Prop) (m : M A) :
  raises P (ignore_err m).
Proof.
  intros w e. unfold ignore_err. destruct (m w) as [[a|e0] w1]; discriminate.
Qed.

Lemma raises_defer {A} (P : error -> Prop) (cleanup : M unit) (body : M A) :
  raises P body -> raises P (defer cleanup body).
Proof.
  intros Hb w e. unfold defer. specialize (Hb w e).
  destruct (body w) as [r w1]. exact Hb.
Qed.

Lemma raises_mapM {A B} (P : error -> Prop) (f : A -> M B) (l : list A) :
  (forall a, raises P (f a)) -> raises P (mapM f l).
Proof.
  intros Hf. induction l as [|a l IH]; simpl; [apply raises_ret|].
  apply raises_bind; [apply Hf|]. intros b.
  apply raises_bind; [exact IH|]. intros bs. apply raises_ret.
Qed.

Lemma raises_round_trip {A} (P : error -> Prop) (stmt : Ctx -> Result A) :
  P (sql_err ConnectionFailure) ->
  (forall cx e, stmt cx = Err e -> P e) ->
  raises P (round_trip stmt).
Proof.
  intros Hc Hs w e. unfold round_trip.
  destruct (upstream_down (oracle w) (tick w)); simpl.
  - intros E; inversion E; subst; exact Hc.
  - apply Hs.
Qed.

Lemma raises_db_query {A} (P : error -> Prop) (q : Ctx -> DB -> Result A) :
  P (sql_err ConnectionFailure) ->
  (forall cx d e, q cx d = Err e -> P e) ->
  raises P (db_query q).
Proof.
  intros Hc Hq w. unfold db_query. apply raises_round_trip; [exact Hc|].
  intros cx e. apply Hq.
Qed.

Lemma raises_db_exec (P : error -> Prop) (s : Ctx -> DB -> Result DB) :
  P (sql_err ConnectionFailure) ->
  (forall cx d e, s cx d = Err e -> P e) ->
  raises P (db_exec s).
Proof.
  intros Hc Hs. unfold db_exec. apply raises_bind.
  - now apply raises_db_query.
  - intros d. apply raises_put_db.
Qed.

Lemma raises_weaken {A} (P Q : error -> Prop) (m : M A) :
  (forall e, P e -> Q e) -> raises P m -> raises Q m.
Proof. intros H Hm w e E. apply H, (Hm w e E). Qed.

(** *** The errors of [Create] *)

Lemma insert_certificate_Err (c : Certificate.t) (now : Time) (d : DB) (e : error) :
  pg.insert_certificate c now d = Err e -> creation_error e.
Proof.
  unfold pg.insert_certificate, pg.sqlfail.
  repeat match goal with |- context [if ?b then _ else _] => destruct b end;
    intros H; inversion H; exact I.
Qed.

Lemma insert_certificate_achievement_Err (cid aid : UUID) (d : DB) (e : error) :
  pg.insert_certificate_achievement cid aid d = Err e -> creation_error e.
Proof.
  unfold pg.insert_certificate_achievement, pg.sqlfail.
  repeat match goal with |- context [if ?b then _ else _] => destruct b end;
    intros H; inversion H; exact I.
Qed.

Lemma raises_insert_relations (cid : UUID) (ids : list UUID) :
  forall tx, raises creation_error (repository.insert_relations cid ids tx).
Proof.
  induction ids as [|a ids IH]; intros tx; simpl; [apply raises_ret|].
  apply raises_bind; [|exact IH].
  unfold tx_exec. apply raises_round_trip; [exact I|].
  intros cx e. apply insert_certificate_achievement_Err.
Qed.

Lemma raises_repo_Create (cert : Certificate.t) (ids : list UUID) :
  raises creation_error (repository.Create cert ids).
Proof.
  unfold repository.Create, BeginTxx.
  apply raises_bind.
  { apply raises_db_query; [exact I | discriminate]. }
  intros tx. apply raises_defer.
  apply raises_bind.
  { unfold tx_exec. apply raises_round_trip; [exact I|].
    intros cx e. apply insert_certificate_Err. }
  intros tx1. apply raises_bind; [apply raises_insert_relations|].
  intros tx2. unfold Commit. apply raises_bind; [|intros; apply raises_put_db].
  apply raises_round_trip; [exact I | discriminate].
Qed.

Lemma raises_FindByIDWithDetail (id : UUID) :
  raises creation_error (repository.FindByIDWithDetail id).
Proof.
  intros w e E.
  destruct (repository.FindByIDWithDetail id w) as [r w'] eqn:Er.
  simpl in E; subst r.
  destruct (FindByIDWithDetail_Err _ _ _ _ Er) as [-> | ->]; exact I.
Qed.

Section CreateErrors.
Context {L : Libraries}.

Lemma raises_parse_achievement_ids (ids : list string) :
  raises creation_error (service.parse_achievement_ids ids).
Proof.
  induction ids as [|a ids IH]; simpl; [apply raises_ret|].
  destruct (uuid_Parse a); [|now apply raises_raise].
  apply raises_bind; [exact IH | intros; apply raises_ret].
Qed.

Lemma raises_Create_build req issuedBy :
  raises creation_error (service.Create_build req issuedBy).
Proof.
  unfold service.Create_build, utils.GenerateCertificateNumber,
    utils.GenerateQRToken, rand_Read, time_Now, uuid_New,
    repository.CountByYear.
  destruct (uuid_Parse (CreateCertificateRequest.StudentID req));
    [|now apply raises_raise].
  destruct (_ =? 0)%nat; [now apply raises_raise|].
  apply raises_bind; [apply raises_parse_achievement_ids|]. intros ids.
  apply raises_bind; [apply raises_next|]. intros now.
  apply raises_bind.
  { apply raises_db_query; [exact I | discriminate]. }
  intros count.
  apply raises_bind.
  { apply raises_bind; [apply raises_next | intros; apply raises_ret]. }
  intros number.
  apply raises_bind.
  { apply raises_bind.
    - apply raises_bind; [apply raises_next|].
      intros [f|]; [apply raises_ret | now apply raises_raise].
    - intros; apply raises_ret. }
  intros token.
  apply raises_bind; [apply raises_next|]. intros id.
  apply raises_bind; [apply raises_next|]. intros issuedAt.
  destruct (_ =? _); [apply raises_ret|].
  destruct (time_Parse _ _); [apply raises_ret | now apply raises_raise].
Qed.

Lemma raises_Create req issuedBy :
  raises creation_error (service.Create req issuedBy).
Proof.
  unfold service.Create. apply raises_bind; [apply raises_Create_build|].
  intros [cert ids]. unfold service.Create_store.
  apply raises_bind; [apply raises_repo_Create|]. intros _.
  apply raises_bind; [apply raises_FindByIDWithDetail|].
  intros; apply raises_ret.
Qed.

End CreateErrors.

(** ** Issuance, step by step *)

Lemma hex_digits_of_byte (b : Byte.byte) :
  is_hex_digit (hex.digit (N.shiftr (Byte.to_N b) 4))
  && is_hex_digit (hex.digit (N.land (Byte.to_N b) 15)) = true.
Proof. destruct b; reflexivity. Qed.

Lemma hex_EncodeToString_alphabet (src : list Byte.byte) :
  all_hex (hex.EncodeToString src) = true.
Proof.
  induction src as [|b src IH]; [reflexivity|].
  cbn [hex.EncodeToString all_hex].
  pose proof (hex_digits_of_byte b) as H. apply andb_true_iff in H as [H1 H2].
  now rewrite H1, H2, IH.
Qed.

Lemma token_of_sixteen_bytes (f : nat -> Byte.byte) :
  String.length (hex.EncodeToString (map f (seq 0 16))) = 32%nat
  /\ all_hex (hex.EncodeToString (map f (seq 0 16))) = true.
Proof.
  split; [|apply hex_EncodeToString_alphabet].
  rewrite hex_EncodeToString_length, length_map, length_seq. reflexivity.
Qed.

(** X4. [GenerateQRToken] returns 32 lower-case hexadecimal digits, or the
    error of [crypto/rand]; nothing else. *)
Theorem GenerateQRToken_is_32_hex_digits (w : World) :
  match fst (utils.GenerateQRToken w) with
  | Ok token => String.length token = 32%nat /\ all_hex token = true
  | Err e => e = rand_err
  end.
Proof.
  unfold utils.GenerateQRToken, rand_Read, bind, next, ret, raise.
  destruct (entropy (oracle w) (tick w)) as [f|]; simpl; [|reflexivity].
  apply token_of_sixteen_bytes.
Qed.

Lemma Forall2_parse_fun {A B} (f : A -> option B) (l : list A) :
  forall l1 l2,
    Forall2 (fun s u => f s = Some u) l l1 ->
    Forall2 (fun s u => f s = Some u) l l2 -> l1 = l2.
Proof.
  induction l as [|a l IH]; intros l1 l2 H1 H2; inversion H1; inversion H2; subst;
    [reflexivity|].
  f_equal; [congruence | now apply IH].
Qed.

(** A successful [Create] of the repository has checked every achievement
    id: each names an achievement, and none comes twice. *)
Lemma repo_Create_checked (cert : Certificate.t) (ids : list UUID) (w : World) :
  fst (repository.Create cert ids w) = Ok tt ->
  distinct ids = true /\ forallb (pg.has_achievement (db w)) ids = true.
Proof.
  destruct (repository.Create cert ids w) as [r w'] eqn:E; simpl.
  unfold repository.Create, BeginTxx, db_query, defer, Rollback, bind in E.
  unfold round_trip at 1 in E.
  destruct (upstream_down (oracle w) (tick w)).
  { inversion E; subst. discriminate. }
  set (w1 := mkWorld (db w) (oracle w) (S (tick w))) in *.
  unfold tx_exec at 1, round_trip at 1 in E.
  destruct (upstream_down (oracle w1) (tick w1)).
  { inversion E; subst. discriminate. }
  set (now := clock (oracle w1) (tick w1)) in *.
  simpl server_now in E.
  destruct (pg.insert_certificate cert now (db w)) as [tx1|e] eqn:E1.
  2:{ inversion E; subst. discriminate. }
  set (w2 := mkWorld (db w1) (oracle w1) (S (tick w1))) in *.
  pose proof (insert_relations_checked (Certificate.ID cert) ids tx1) as R.
  destruct (repository.insert_relations (Certificate.ID cert) ids tx1 w2)
    as [[tx2|e] w3] eqn:E2.
  2:{ inversion E; subst. discriminate. }
  intros _. specialize (R tx2 w2). rewrite E2 in R.
  destruct (R eq_refl) as (Hd & Ha & _). split; [exact Hd|].
  apply insert_certificate_Ok in E1 as (-> & _). exact Ha.
Qed.

Lemma insert_certificate_fresh (c : Certificate.t) (now : Time) (d d' : DB) :
  pg.insert_certificate c now d = Ok d' ->
  existsb (fun r => Certificate.CertificateNumber r
                    =? Certificate.CertificateNumber c) (certificates d) = false
  /\ existsb (fun r => Certificate.QRToken r =? Certificate.QRToken c)
             (certificates d) = false.
Proof.
  unfold pg.insert_certificate, pg.sqlfail.
  destruct (pg.has_certificate d (Certificate.ID c)); [discriminate|].
  destruct (existsb _ _); [discriminate|].
  destruct (existsb _ _); [discriminate|].
  auto.
Qed.

Lemma FindByIDWithDetail_ErrNoRows (id : UUID) (w w' : World) :
  repository.FindByIDWithDetail id w = (Err (sql_err ErrNoRows), w') ->
  exists c, certificate_with_id (db w) id = Some c
            /\ pg.student_by_id (db w) (Certificate.StudentID c) = None.
Proof.
  unfold repository.FindByIDWithDetail. unfold bind at 1.
  rewrite FindByID_outcome.
  destruct (upstream_down (oracle w) (tick w)); [discriminate|].
  destruct (certificate_with_id (db w) id) as [c|]; unfold option_map;
    cbv beta iota; [|unfold ret; discriminate].
  unfold bind at 1, db_query at 1, round_trip at 1.
  destruct (upstream_down _ _); [discriminate|].
  rewrite joined_StudentID, select_student_find. simpl db.
  destruct (pg.student_by_id (db w) (Certificate.StudentID c)) as [s|] eqn:Es.
  2:{ intros _. exists c. auto. }
  unfold bind at 1, db_query at 1, round_trip at 1.
  destruct (upstream_down _ _); [discriminate|].
  unfold pg.select_achievements. cbv beta iota. unfold bind at 1.
  match goal with
  | |- context [mapM ?f ?l ?w0] =>
      pose proof (attachments_total l w0) as T;
      destruct (mapM f l w0) as [[ats|e2] w2]
  end.
  - unfold ret; discriminate.
  - exfalso. apply T. eauto.
Qed.

Section IssuanceSteps.
Context {L : Libraries}.

(** [Create] is the build, the transaction and the read-back, each run
    where the one before it stopped. *)
Lemma Create_steps req issuedBy (w : World) :
  service.Create req issuedBy w
  = match service.Create_build req issuedBy w with
    | (Ok built, w1) =>
        match repository.Create (fst built) (snd built) w1 with
        | (Ok _, w2) =>
            repository.FindByIDWithDetail (Certificate.ID (fst built)) w2
        | (Err e, w2) => (Err e, w2)
        end
    | (Err e, w1) => (Err e, w1)
    end.
Proof.
  unfold service.Create, service.Create_store, bind.
  destruct (service.Create_build req issuedBy w) as [[[cert ids]|e] w1];
    [|reflexivity].
  simpl fst; simpl snd.
  destruct (repository.Create cert ids w1) as [[[]|e] w2]; [|reflexivity].
  destruct (repository.FindByIDWithDetail (Certificate.ID cert) w2)
    as [[d|e] w3]; reflexivity.
Qed.

Lemma Create_build_row req issuedBy (w w1 : World) (cert : Certificate.t)
      (ids : list UUID) :
  service.Create_build req issuedBy w = (Ok (cert, ids), w1) ->
  Certificate.PDFURL cert = None
  /\ Certificate.Notes cert = CreateCertificateRequest.Notes req
  /\ String.length (Certificate.QRToken cert) = 32%nat
  /\ all_hex (Certificate.QRToken cert) = true.
Proof.
  destruct w as [d o t].
  unfold service.Create_build.
  destruct (uuid_Parse (CreateCertificateRequest.StudentID req)) as [sid|];
    [|discriminate].
  destruct (CreateCertificateRequest.AchievementIDs req) as [|a0 rest] eqn:Eids;
    [discriminate|].
  cbv beta iota. simpl (List.length _ =? 0)%nat. cbv iota.
  unfold bind at 1.
  pose proof (parse_achievement_ids_run (a0 :: rest) (mkWorld d o t)) as [Hw Hp].
  destruct (service.parse_achievement_ids (a0 :: rest) (mkWorld d o t))
    as [[uids|e] w0]; simpl in Hw, Hp; [subst w0|discriminate].
  cbv beta iota zeta delta
    [bind next ret raise time_Now uuid_New rand_Read
     utils.GenerateCertificateNumber utils.GenerateQRToken
     repository.CountByYear db_query round_trip pg.count_by_year
     oracle tick db].
  destruct (upstream_down o (S t)); [discriminate|].
  destruct (entropy o (S (S (S t)))) as [f|]; [|discriminate].
  pose proof (token_of_sixteen_bytes f) as [Hlen Hhex].
  destruct (CreateCertificateRequest.ValidUntil req =? "").
  - intros E; inversion E; subst; clear E. simpl Certificate.PDFURL.
    simpl Certificate.Notes. simpl Certificate.QRToken. auto.
  - destruct (time_Parse "2006-01-02" (CreateCertificateRequest.ValidUntil req));
      [|discriminate].
    intros E; inversion E; subst; clear E. simpl Certificate.PDFURL.
    simpl Certificate.Notes. simpl Certificate.QRToken. auto.
Qed.

End IssuanceSteps.

Section IssuanceOutcomes.
Context {L : Libraries}.

(** The store after the transaction of [Create], for the certificate
    [cert] stamped [now] and the achievement ids [ids]. *)
Lemma stored_lookup (d : DB) (cert : Certificate.t) (now : Time) (ids : list UUID) :
  pg.insert_certificate cert now d
  = Ok (with_certificates (certificates d ++ [pg.inserted_row cert now]) d) ->
  let d' :=
    with_certificate_achievements
      (certificate_achievements d ++ map (fun a => (Certificate.ID cert, a)) ids)
      (with_certificates (certificates d ++ [pg.inserted_row cert now]) d) in
  certificate_with_id d' (Certificate.ID cert) = Some (pg.inserted_row cert now)
  /\ exists s, pg.student_by_id d' (Certificate.StudentID cert) = Some s.
Proof.
  intros Hins d'. apply insert_certificate_Ok in Hins as (_ & Hno & Hst & _).
  split.
  - unfold certificate_with_id. simpl.
    apply find_app_fresh; [exact Hno | apply N.eqb_refl].
  - unfold pg.student_by_id. simpl. apply existsb_find. exact Hst.
Qed.

Lemma Create_Ok req issuedBy (w wf : World) (r : option CertificateDetail.t) :
  service.Create req issuedBy w = (Ok r, wf) ->
  exists cert ids w1 now detail,
    service.Create_build req issuedBy w = (Ok (cert, ids), w1)
    /\ pg.insert_certificate cert now (db w)
       = Ok (with_certificates
               (certificates (db w) ++ [pg.inserted_row cert now]) (db w))
    /\ db wf
       = with_certificate_achievements
           (certificate_achievements (db w)
            ++ map (fun a => (Certificate.ID cert, a)) ids)
           (with_certificates
              (certificates (db w) ++ [pg.inserted_row cert now]) (db w))
    /\ oracle wf = oracle w
    /\ distinct ids = true
    /\ forallb (pg.has_achievement (db w)) ids = true
    /\ r = Some detail
    /\ CertificateDetail.Certificate detail
       = pg.joined true (db wf) (pg.inserted_row cert now)
    /\ CertificateDetail.Student detail
       = pg.student_by_id (db wf) (Certificate.StudentID cert)
    /\ exists k,
        map AchievementWithAttachments.Achievement
            (CertificateDetail.Achievements detail)
        = pg.order_by_year_desc
            (pg.permute k (pg.joined_achievements (Certificate.ID cert) (db wf))).
Proof.
  rewrite Create_steps.
  destruct (service.Create_build req issuedBy w) as [[[cert ids]|e] w1] eqn:Eb;
    [|discriminate].
  simpl fst; simpl snd.
  pose proof (keeps_Create_build true req issuedBy w) as Kb.
  rewrite Eb in Kb. destruct Kb as [Ko1 Kd1]. simpl in Ko1, Kd1.
  specialize (Kd1 eq_refl).
  pose proof (repo_Create_outcome cert ids w1) as Hout.
  pose proof (repo_Create_checked cert ids w1) as Hchk.
  pose proof (keeps_repo_Create cert ids w1) as [Ko2 _].
  destruct (repository.Create cert ids w1) as [[[]|e] w2] eqn:Er;
    simpl in Hout, Hchk, Ko2; [|discriminate].
  destruct Hout as [(e & He & _) | (_ & now & Hins & Hdb)]; [discriminate|].
  destruct (Hchk eq_refl) as (Hd & Ha).
  rewrite Kd1 in Hins, Hdb, Ha.
  destruct (stored_lookup (db w) cert now ids Hins) as (Hrow & s & Hs).
  rewrite <- Hdb in Hrow, Hs.
  intros E.
  pose proof (keeps_FindByIDWithDetail true (Certificate.ID cert) w2) as Kf.
  rewrite E in Kf. destruct Kf as [Ko3 Kd3]. simpl in Ko3, Kd3.
  specialize (Kd3 eq_refl).
  destruct r as [detail|].
  2:{ apply FindByIDWithDetail_None in E. congruence. }
  apply FindByIDWithDetail_Ok in E as (_ & c & k & Hc & Hcert & Hstud & Hach).
  rewrite Hrow in Hc. inversion Hc; subst c.
  exists cert, ids, w1, now, detail.
  split; [reflexivity|]. split; [exact Hins|].
  split; [now rewrite Kd3|]. split; [congruence|].
  split; [exact Hd|]. split; [exact Ha|]. split; [reflexivity|].
  rewrite Kd3. split; [exact Hcert|]. split; [exact Hstud|].
  exists k. exact Hach.
Qed.

Lemma Create_Err req issuedBy (w wf : World) (e : error) :
  service.Create req issuedBy w = (Err e, wf) ->
  db wf = db w
  \/ (e = sql_err ConnectionFailure
      /\ exists cert ids w1 now,
          service.Create_build req issuedBy w = (Ok (cert, ids), w1)
          /\ pg.insert_certificate cert now (db w)
             = Ok (with_certificates
                     (certificates (db w) ++ [pg.inserted_row cert now]) (db w))
          /\ db wf
             = with_certificate_achievements
                 (certificate_achievements (db w)
                  ++ map (fun a => (Certificate.ID cert, a)) ids)
                 (with_certificates
                    (certificates (db w) ++ [pg.inserted_row cert now]) (db w))
          /\ distinct ids = true
          /\ forallb (pg.has_achievement (db w)) ids = true).
Proof.
  rewrite Create_steps.
  pose proof (keeps_Create_build true req issuedBy w) as Kb.
  destruct (service.Create_build req issuedBy w) as [[[cert ids]|e0] w1] eqn:Eb;
    destruct Kb as [Ko1 Kd1]; simpl in Ko1, Kd1; specialize (Kd1 eq_refl).
  2:{ intros E; inversion E; subst. now left. }
  simpl fst; simpl snd.
  pose proof (repo_Create_outcome cert ids w1) as Hout.
  pose proof (repo_Create_checked cert ids w1) as Hchk.
  destruct (repository.Create cert ids w1) as [[[]|e0] w2] eqn:Er;
    simpl in Hout, Hchk.
  2:{ intros E; inversion E; subst.
      destruct Hout as [(e1 & _ & Hdb) | (Habs & _)]; [|discriminate].
      left. congruence. }
  destruct Hout as [(e1 & He & _) | (_ & now & Hins & Hdb)]; [discriminate|].
  destruct (Hchk eq_refl) as (Hd & Ha).
  rewrite Kd1 in Hins, Hdb, Ha.
  destruct (stored_lookup (db w) cert now ids Hins) as (Hrow & s & Hs).
  rewrite <- Hdb in Hrow, Hs.
  intros E.
  pose proof (keeps_FindByIDWithDetail true (Certificate.ID cert) w2) as Kf.
  rewrite E in Kf. destruct Kf as [_ Kd3]. simpl in Kd3. specialize (Kd3 eq_refl).
  right. split.
  - destruct (FindByIDWithDetail_Err _ _ _ _ E) as [-> | ->]; [|reflexivity].
    apply FindByIDWithDetail_ErrNoRows in E as (c & Hc & Hnone).
    rewrite Hrow in Hc. inversion Hc; subst c.
    change (Certificate.StudentID (pg.inserted_row cert now))
      with (Certificate.StudentID cert) in Hnone. congruence.
  - exists cert, ids, w1, now. split; [reflexivity|]. split; [exact Hins|].
    split; [now rewrite Kd3|]. split; [exact Hd | exact Ha].
Qed.

End IssuanceOutcomes.

Section IssuanceProperties.
Context {L : Libraries}.

(** X5. What a successful [Create] leaves in the store: one more
    certificate row, with status [active], no PDF URL, the student of the
    request (who exists), a token of 32 hexadecimal digits and an
    identifier no certificate had; one join row per achievement id of the
    request, in order, each naming an existing achievement and none twice;
    and nothing else changed. The detail returned is that row. *)
Theorem Create_stores_one_active_certificate
        (req : CreateCertificateRequest.t) (issuedBy : string) (w : World)
        (r : option CertificateDetail.t) :
  fst (service.Create req issuedBy w) = Ok r ->
  let after := db (snd (service.Create req issuedBy w)) in
  exists detail row ids,
    r = Some detail
    /\ same_columns row (CertificateDetail.Certificate detail)
    /\ certificates after = certificates (db w) ++ [row]
    /\ certificate_achievements after
       = certificate_achievements (db w)
         ++ map (fun a => (Certificate.ID row, a)) ids
    /\ Forall2 (fun s u => uuid_Parse s = Some u)
         (CreateCertificateRequest.AchievementIDs req) ids
    /\ distinct ids = true
    /\ forallb (pg.has_achievement (db w)) ids = true
    /\ uuid_Parse (CreateCertificateRequest.StudentID req)
       = Some (Certificate.StudentID row)
    /\ pg.has_student (db w) (Certificate.StudentID row) = true
    /\ pg.has_certificate (db w) (Certificate.ID row) = false
    /\ Certificate.Status row = "active"
    /\ Certificate.PDFURL row = None
    /\ Certificate.Notes row = CreateCertificateRequest.Notes req
    /\ String.length (Certificate.QRToken row) = 32%nat
    /\ all_hex (Certificate.QRToken row) = true
    /\ users after = users (db w)
    /\ students after = students (db w)
    /\ achievements after = achievements (db w)
    /\ achievement_attachments after = achievement_attachments (db w).
Proof.
  destruct (service.Create req issuedBy w) as [res wf] eqn:E. simpl.
  intros ->.
  destruct (Create_Ok _ _ _ _ _ E)
    as (cert & ids & w1 & now & detail & Eb & Hins & Hdb & _ & Hd & Ha & -> & Hcert & _).
  pose proof (Create_build_Ok _ _ _ _ _ _ Eb) as (_ & Hsid & Hids & _ & _ & _ & Hst & _).
  pose proof (Create_build_row _ _ _ _ _ _ Eb) as (Hpdf & Hnotes & Hlen & Hhex).
  pose proof (insert_certificate_Ok _ _ _ _ Hins) as (_ & Hno & Hstu & _).
  exists detail, (pg.inserted_row cert now), ids.
  split; [reflexivity|].
  split; [rewrite Hcert; apply joined_same_columns|].
  rewrite Hdb. simpl.
  repeat split; auto.
Qed.

(** X6. An achievement id that comes twice in the request, or that names
    no achievement, makes [Create] fail, and then nothing is stored: the
    rejection comes from the primary key and the foreign key of
    [certificate_achievements] inside the transaction, which is rolled
    back. *)
Theorem Create_refuses_repeated_or_unknown_achievement
        (req : CreateCertificateRequest.t) (issuedBy : string) (w : World)
        (uids : list UUID) :
  Forall2 (fun s u => uuid_Parse s = Some u)
    (CreateCertificateRequest.AchievementIDs req) uids ->
  distinct uids = false \/ forallb (pg.has_achievement (db w)) uids = false ->
  exists e,
    fst (service.Create req issuedBy w) = Err e
    /\ db (snd (service.Create req issuedBy w)) = db w.
Proof.
  intros Hparse Hbad.
  destruct (service.Create req issuedBy w) as [[r|e] wf] eqn:E; simpl.
  - exfalso.
    destruct (Create_Ok _ _ _ _ _ E)
      as (cert & ids & w1 & now & detail & Eb & _ & _ & _ & Hd & Ha & _).
    pose proof (Create_build_Ok _ _ _ _ _ _ Eb) as (_ & _ & Hids & _).
    rewrite (Forall2_parse_fun _ _ _ _ Hparse Hids) in Hbad.
    destruct Hbad; congruence.
  - exists e. split; [reflexivity|].
    destruct (Create_Err _ _ _ _ _ E)
      as [H | (_ & cert & ids & w1 & now & Eb & _ & _ & Hd & Ha)]; [exact H|].
    exfalso.
    pose proof (Create_build_Ok _ _ _ _ _ _ Eb) as (_ & _ & Hids & _).
    rewrite (Forall2_parse_fun _ _ _ _ Hparse Hids) in Hbad.
    destruct Hbad; congruence.
Qed.

End IssuanceProperties.

Lemma Create_stores_one_active_certificate_witness :
  exists detail row,
    fst (service.Create (L := Scenario.libraries) Scenario.request "7"
           Scenario.world_2024) = Ok (Some detail)
    /\ certificates
         (db (snd (service.Create (L := Scenario.libraries) Scenario.request "7"
                     Scenario.world_2024))) = [row]
    /\ Certificate.Status row = "active"
    /\ Certificate.PDFURL row = None.
Proof.
  pose proof (Create_stores_one_active_certificate (L := Scenario.libraries)
                Scenario.request "7" Scenario.world_2024) as H.
  destruct (fst (service.Create (L := Scenario.libraries) Scenario.request "7"
                   Scenario.world_2024)) as [r|e] eqn:E;
    [|exfalso; vm_compute in E; discriminate E].
  destruct (H r eq_refl) as (detail & row & ids & Hr & _ & Hc & _ & _ & _ & _ & _
                             & _ & _ & Hst & Hpdf & _).
  exists detail, row. split; [now rewrite Hr|]. split; [exact Hc|].
  split; [exact Hst | exact Hpdf].
Defined.

(** Ani's request with the identifier [b] twice, and with an identifier
    ([ff]) no achievement has. *)
Lemma Create_refuses_repeated_or_unknown_achievement_witness :
  let create ids :=
    service.Create (L := Scenario.libraries)
      (CreateCertificateRequest.mk "1" ids "" "") "7" Scenario.world_2024 in
  (exists e, fst (create ["b"; "b"]) = Err e
             /\ db (snd (create ["b"; "b"])) = Scenario.school)
  /\ (exists e, fst (create ["b"; "ff"]) = Err e
                /\ db (snd (create ["b"; "ff"])) = Scenario.school).
Proof.
  intros create. split.
  - apply (Create_refuses_repeated_or_unknown_achievement
             (L := Scenario.libraries)
             (CreateCertificateRequest.mk "1" ["b"; "b"] "" "") "7"
             Scenario.world_2024 [11%N; 11%N]).
    + repeat constructor.
    + left; reflexivity.
  - apply (Create_refuses_repeated_or_unknown_achievement
             (L := Scenario.libraries)
             (CreateCertificateRequest.mk "1" ["b"; "ff"] "" "") "7"
             Scenario.world_2024 [11%N; 255%N]).
    + repeat constructor.
    + right; reflexivity.
Defined.

Section IssuanceEndpoint.
Context {L : Libraries}.

(** X7. The handler of [Create] answers 201 or 400 and nothing else. The
    service returns only messages, errors of the driver and the failure
    of [crypto/rand], never [ErrStudentNotFound], so the 404 branch of
    the handler is not taken: a request for a student who does not exist
    is answered 400, with the store as it was. *)
Theorem Create_answers_201_or_400
        (req : CreateCertificateRequest.t) (issuedBy : string) (w : World) :
  (forall e, fst (service.Create req issuedBy w) = Err e -> creation_error e)
  /\ exists resp,
      fst (handler.Create req issuedBy w) = Ok resp
      /\ (handler.StatusCode resp = handler.StatusCreated
          \/ handler.StatusCode resp = handler.StatusBadRequest)
      /\ (handler.StatusCode resp = handler.StatusCreated ->
          exists r, fst (service.Create req issuedBy w) = Ok r)
      /\ (forall sid,
             uuid_Parse (CreateCertificateRequest.StudentID req) = Some sid ->
             pg.has_student (db w) sid = false ->
             handler.StatusCode resp = handler.StatusBadRequest
             /\ db (snd (handler.Create req issuedBy w)) = db w).
Proof.
  pose proof (raises_Create req issuedBy w) as Hraise.
  split; [exact Hraise|].
  unfold handler.Create.
  destruct (_ || _).
  { eexists; split; [reflexivity|]. simpl. split; [auto|].
    split; [discriminate|]. auto. }
  unfold handler.respond.
  destruct (service.Create req issuedBy w) as [[r|e] wf] eqn:E.
  - eexists; split; [reflexivity|]. simpl. split; [auto|].
    split; [eauto|]. intros sid Hsid Hno. exfalso.
    destruct (Create_Ok _ _ _ _ _ E)
      as (cert & ids & w1 & now & detail & Eb & Hins & _).
    pose proof (Create_build_Ok _ _ _ _ _ _ Eb) as (_ & Hp & _).
    apply insert_certificate_Ok in Hins as (_ & _ & Hst & _).
    congruence.
  - specialize (Hraise e eq_refl).
    assert (Hsame : forall sid,
               uuid_Parse (CreateCertificateRequest.StudentID req) = Some sid ->
               pg.has_student (db w) sid = false -> db wf = db w).
    { intros sid Hsid Hno.
      destruct (Create_Err _ _ _ _ _ E)
        as [H | (_ & cert & ids & w1 & now & Eb & Hins & _)]; [exact H|].
      exfalso.
      pose proof (Create_build_Ok _ _ _ _ _ _ Eb) as (_ & Hp & _).
      apply insert_certificate_Ok in Hins as (_ & _ & Hst & _).
      congruence. }
    destruct e; simpl in Hraise; try contradiction;
      (eexists; split; [reflexivity|]); simpl;
      (split; [auto|]); (split; [discriminate|]);
      intros sid Hsid Hno; (split; [reflexivity | eapply Hsame; eauto]).
Qed.

(** X8. [Create] can fail after it has stored. When it returns an error
    and the store is not what it was, the error is the lost connection of
    the read-back: the transaction was committed, the certificate and its
    join rows are in the store, and the caller is answered 400. *)
Theorem Create_can_fail_after_commit
        (req : CreateCertificateRequest.t) (issuedBy : string) (w : World)
        (e : error) :
  fst (service.Create req issuedBy w) = Err e ->
  db (snd (service.Create req issuedBy w)) <> db w ->
  let after := db (snd (service.Create req issuedBy w)) in
  e = sql_err ConnectionFailure
  /\ (exists row ids,
         certificates after = certificates (db w) ++ [row]
         /\ certificate_achievements after
            = certificate_achievements (db w)
              ++ map (fun a => (Certificate.ID row, a)) ids
         /\ Certificate.Status row = "active"
         /\ uuid_Parse (CreateCertificateRequest.StudentID req)
            = Some (Certificate.StudentID row))
  /\ handler.StatusCode (handler.Create_failed e) = handler.StatusBadRequest.
Proof.
  destruct (service.Create req issuedBy w) as [res wf] eqn:E. simpl.
  intros -> Hchanged.
  destruct (Create_Err _ _ _ _ _ E)
    as [H | (-> & cert & ids & w1 & now & Eb & Hins & Hdb & _)]; [contradiction|].
  pose proof (Create_build_Ok _ _ _ _ _ _ Eb) as (_ & Hsid & _ & _ & _ & _ & Hst & _).
  split; [reflexivity|]. split; [|reflexivity].
  exists (pg.inserted_row cert now), ids. rewrite Hdb. simpl. auto.
Qed.

(** X9. A certificate that [Create] has issued verifies. With the store
    reachable, [Verify] of the token of the returned certificate answers
    valid, with that certificate, its student and the achievements of the
    request's certificate, and [GetByID] of its identifier returns it. *)
Theorem Create_then_Verify
        (req : CreateCertificateRequest.t) (issuedBy : string) (w : World)
        (detail : CertificateDetail.t) :
  healthy w ->
  fst (service.Create req issuedBy w) = Ok (Some detail) ->
  let issued := CertificateDetail.Certificate detail in
  let w' := snd (service.Create req issuedBy w) in
  (exists resp,
      fst (service.Verify (Certificate.QRToken issued) w') = Ok resp
      /\ VerifyResponse.IsValid resp = true
      /\ (exists c, VerifyResponse.Certificate resp = Some c
                    /\ same_columns issued c)
      /\ VerifyResponse.Student resp = CertificateDetail.Student detail
      /\ Permutation (VerifyResponse.Achievements resp)
           (map AchievementWithAttachments.Achievement
                (CertificateDetail.Achievements detail)))
  /\ (forall id,
         uuid_Parse id = Some (Certificate.ID issued) ->
         exists again,
           fst (service.GetByID id w') = Ok again
           /\ CertificateDetail.Certificate again = issued
           /\ CertificateDetail.Student again = CertificateDetail.Student detail).
Proof.
  intros Hh.
  destruct (service.Create req issuedBy w) as [res wf] eqn:E. simpl.
  intros ->.
  destruct (Create_Ok _ _ _ _ _ E)
    as (cert & ids & w1 & now & d & Eb & Hins & Hdb & Ho & _ & _ & Hd & Hcert
        & Hstud & k & Hach).
  inversion Hd; subst d; clear Hd.
  assert (Hhf : healthy wf) by (intros n; rewrite Ho; apply Hh).
  destruct (stored_lookup (db w) cert now ids Hins) as (Hrow & s & Hs).
  rewrite <- Hdb in Hrow, Hs.
  pose proof (insert_certificate_fresh _ _ _ _ Hins) as (_ & Htok).
  assert (Hfound : certificate_with_token (db wf) (Certificate.QRToken cert)
                   = Some (pg.inserted_row cert now)).
  { rewrite Hdb. unfold certificate_with_token. simpl.
    apply find_app_fresh; [exact Htok | apply String.eqb_refl]. }
  pose proof (Create_build_Ok _ _ _ _ _ _ Eb) as (_ & _ & _ & _ & _ & _ & Hst & _).
  rewrite Hcert. simpl Certificate.QRToken. simpl Certificate.ID.
  split.
  - unfold service.Verify. unfold bind at 1.
    rewrite (FindByQRToken_healthy _ wf Hhf), Hfound.
    unfold option_map; cbv beta iota.
    change (Certificate.Status (pg.joined false (db wf) (pg.inserted_row cert now)))
      with (Certificate.Status cert).
    rewrite Hst. simpl ("active" =? "revoked"). cbv iota.
    destruct (FindByIDWithDetail_healthy (Certificate.ID cert) (bump wf)
                (pg.inserted_row cert now) s (healthy_bump wf Hhf) Hrow Hs)
      as (w2 & withAtt & Ef & _ & Hach2).
    unfold bind. rewrite joined_ID. simpl Certificate.ID. rewrite Ef.
    unfold ret. cbv beta iota.
    eexists; split; [reflexivity|]. simpl.
    split; [reflexivity|]. split.
    { eexists; split; [reflexivity|]. reflexivity. }
    split; [now rewrite Hstud, Hs|].
    rewrite Hach2, Hach. simpl db.
    etransitivity; [apply order_by_year_desc_perm|].
    etransitivity; [apply permute_perm|].
    symmetry.
    etransitivity; [apply order_by_year_desc_perm|]. apply permute_perm.
  - intros id Hid. unfold service.GetByID. rewrite Hid.
    destruct (FindByIDWithDetail_healthy (Certificate.ID cert) wf
                (pg.inserted_row cert now) s Hhf Hrow Hs)
      as (w2 & withAtt & Ef & _ & _).
    unfold bind. rewrite Ef. unfold ret.
    eexists; split; [reflexivity|]. simpl.
    split; [reflexivity | now rewrite Hstud, Hs].
Qed.

End IssuanceEndpoint.

Lemma Create_answers_201_or_400_witness :
  let req := CreateCertificateRequest.mk "63" ["b"] "" "" in
  exists resp,
    fst (handler.Create (L := Scenario.libraries) req "7" Scenario.world_2024)
    = Ok resp
    /\ handler.StatusCode resp = handler.StatusBadRequest
    /\ db (snd (handler.Create (L := Scenario.libraries) req "7"
                  Scenario.world_2024)) = Scenario.school.
Proof.
  intros req.
  destruct (Create_answers_201_or_400 (L := Scenario.libraries) req "7"
              Scenario.world_2024) as (_ & resp & E & _ & _ & H).
  destruct (H 99%N eq_refl eq_refl) as (Hcode & Hdb).
  exists resp. split; [exact E|]. split; [exact Hcode | exact Hdb].
Defined.

(** The connection is lost at tick 11, the first read after the commit. *)
Lemma Create_can_fail_after_commit_witness :
  let w := mkWorld Scenario.school (Scenario.oracle_down_at 2024 11) 0 in
  let out := service.Create (L := Scenario.libraries) Scenario.request "7" w in
  fst out = Err (sql_err ConnectionFailure)
  /\ exists row,
      certificates (db (snd out)) = [row]
      /\ Certificate.Status row = "active".
Proof.
  intros w out.
  assert (E : fst out = Err (sql_err ConnectionFailure))
    by (subst out w; vm_compute; reflexivity).
  assert (Hne : db (snd out) <> db w)
    by (subst out w; vm_compute; discriminate).
  destruct (Create_can_fail_after_commit (L := Scenario.libraries)
              Scenario.request "7" w _ E Hne)
    as (_ & (row & ids & Hc & _ & Hst & _) & _).
  split; [exact E|]. exists row. split; [exact Hc | exact Hst].
Defined.

Lemma Create_then_Verify_witness :
  let out := service.Create (L := Scenario.libraries) Scenario.request "7"
               Scenario.world_2024 in
  exists detail resp,
    fst out = Ok (Some detail)
    /\ fst (service.Verify
              (Certificate.QRToken (CertificateDetail.Certificate detail))
              (snd out)) = Ok resp
    /\ VerifyResponse.IsValid resp = true.
Proof.
  intros out.
  assert (Hh : healthy Scenario.world_2024) by (intros n; reflexivity).
  pose proof (Create_then_Verify (L := Scenario.libraries) Scenario.request "7"
                Scenario.world_2024) as H.
  fold out in H.
  destruct (fst out) as [[detail|]|e] eqn:E;
    [ | exfalso; subst out; vm_compute in E; discriminate E
      | exfalso; subst out; vm_compute in E; discriminate E ].
  destruct (H detail Hh eq_refl) as ((resp & Hv & Hvalid & _) & _).
  exists detail, resp. split; [reflexivity|]. split; [exact Hv | exact Hvalid].
Defined.

(** ** Reading one certificate *)

Section ReadOne.
Context {L : Libraries}.

(** X10. [GetByID], with the store reachable and the constraints of the
    schema in place: an identifier that does not parse is an error the
    handler answers with 500; a well-formed identifier of no certificate
    is [ErrCertificateNotFound] and 404; otherwise the stored
    certificate is returned with its student and exactly its
    achievements, and the answer is 200. The store is not written. *)
Theorem GetByID_outcomes (id : string) (w : World) :
  healthy w ->
  constraints_hold (db w) = true ->
  db (snd (service.GetByID id w)) = db w
  /\ exists resp,
      fst (certificate_handler.GetByID id w) = Ok resp
      /\ match uuid_Parse id with
         | None =>
             fst (service.GetByID id w) = Err (errors_New "ID tidak valid")
             /\ handler.StatusCode resp = handler.StatusInternalServerError
         | Some uid =>
             match certificate_with_id (db w) uid with
             | None =>
                 fst (service.GetByID id w) = Err ErrCertificateNotFound
                 /\ handler.StatusCode resp = handler.StatusNotFound
             | Some c =>
                 handler.StatusCode resp = handler.StatusOK
                 /\ exists detail,
                     fst (service.GetByID id w) = Ok detail
                     /\ same_columns c (CertificateDetail.Certificate detail)
                     /\ (exists s, CertificateDetail.Student detail = Some s
                                   /\ Student.ID s = Certificate.StudentID c)
                     /\ (forall a,
                            In a (map AchievementWithAttachments.Achievement
                                      (CertificateDetail.Achievements detail))
                            <-> linked (db w) uid a)
             end
         end.
Proof.
  intros Hh Hc.
  unfold certificate_handler.GetByID, handler.respond, service.GetByID.
  destruct (uuid_Parse id) as [uid|].
  2:{ split; [reflexivity|]. eexists; split; [reflexivity|]. simpl. auto. }
  destruct (certificate_with_id (db w) uid) as [c|] eqn:Ec.
  - assert (Hin : In c (certificates (db w))).
    { unfold certificate_with_id in Ec. now apply find_some in Ec. }
    destruct (constraints_student _ _ Hc Hin) as (s & Hs & Hsid & _).
    destruct (FindByIDWithDetail_healthy uid w c s Hh Ec Hs)
      as (w' & withAtt & E & K & Hach).
    unfold bind. rewrite E. unfold ret. simpl.
    split; [now apply kept_db|].
    eexists; split; [reflexivity|]. split; [reflexivity|].
    eexists; split; [reflexivity|]. simpl.
    split; [apply joined_same_columns|]. split; [eauto|].
    intros a. rewrite Hach. apply selected_achievements_linked.
  - assert (E : repository.FindByIDWithDetail uid w = (Ok None, bump w)).
    { unfold repository.FindByIDWithDetail, bind.
      rewrite (FindByID_healthy uid w Hh), Ec. reflexivity. }
    unfold bind. rewrite E. simpl.
    split; [reflexivity|]. eexists; split; [reflexivity|]. simpl. auto.
Qed.

End ReadOne.

Lemma GetByID_outcomes_witness :
  let w := mkWorld (Scenario.school_with (Scenario.certificate 50%N "tok" "active"))
                   (Scenario.oracle_in 2024) 0 in
  healthy w
  /\ constraints_hold (db w) = true
  /\ (exists resp,
         fst (certificate_handler.GetByID (L := Scenario.libraries) "32" w) = Ok resp
         /\ handler.StatusCode resp = handler.StatusOK)
  /\ (exists resp,
         fst (certificate_handler.GetByID (L := Scenario.libraries) "33" w) = Ok resp
         /\ handler.StatusCode resp = handler.StatusNotFound)
  /\ (exists resp,
         fst (certificate_handler.GetByID (L := Scenario.libraries) "x" w) = Ok resp
         /\ handler.StatusCode resp = handler.StatusInternalServerError).
Proof.
  intros w.
  assert (Hh : healthy w) by (intros n; reflexivity).
  assert (Hc : constraints_hold (db w) = true) by reflexivity.
  split; [exact Hh|]. split; [exact Hc|].
  pose proof (GetByID_outcomes (L := Scenario.libraries) "32" w Hh Hc)
    as (_ & r1 & E1 & H1).
  pose proof (GetByID_outcomes (L := Scenario.libraries) "33" w Hh Hc)
    as (_ & r2 & E2 & H2).
  pose proof (GetByID_outcomes (L := Scenario.libraries) "x" w Hh Hc)
    as (_ & r3 & E3 & H3).
  simpl in H1, H2, H3.
  split; [exists r1; split; [exact E1 | apply H1]|].
  split; [exists r2; split; [exact E2 | apply H2]|].
  exists r3; split; [exact E3 | apply H3].
Defined.

(** ** Deleting students and achievements *)

Lemma db_exec_outcome (s : Ctx -> DB -> Result DB) (w : World) :
  db_exec s w
  = if upstream_down (oracle w) (tick w)
    then (Err (sql_err ConnectionFailure), bump w)
    else
      match s (mkCtx (clock (oracle w) (tick w)) (scan_order (oracle w) (tick w)))
              (db w) with
      | Ok d' => (Ok tt, mkWorld d' (oracle w) (S (tick w)))
      | Err e => (Err e, bump w)
      end.
Proof.
  unfold db_exec, bind, db_query, round_trip, put_db.
  destruct (upstream_down (oracle w) (tick w)); [reflexivity|].
  destruct (s _ (db w)); reflexivity.
Qed.

Lemma student_FindByID_outcome (id : UUID) (w : World) :
  student_repository.FindByID id w
  = (if upstream_down (oracle w) (tick w)
     then Err (sql_err ConnectionFailure)
     else Ok (pg.student_by_id (db w) id),
     bump w).
Proof.
  unfold student_repository.FindByID, try, bind, db_query, round_trip.
  destruct (upstream_down (oracle w) (tick w)); [reflexivity|].
  rewrite select_student_find.
  destruct (pg.student_by_id (db w) id); reflexivity.
Qed.

Lemma has_student_by_id (d : DB) (u : UUID) :
  pg.has_student d u = match pg.student_by_id d u with Some _ => true | None => false end.
Proof.
  unfold pg.has_student, pg.student_by_id.
  induction (students d) as [|s l IH]; simpl; [reflexivity|].
  destruct (Student.ID s =? u)%N; simpl; [reflexivity | exact IH].
Qed.

Lemma existsb_filter_false {A} (p : A -> bool) (l : list A) :
  existsb p (filter (fun x => negb (p x)) l) = false.
Proof.
  induction l as [|x l IH]; simpl; [reflexivity|].
  destruct (p x) eqn:E; simpl; [exact IH | now rewrite E].
Qed.

Lemma delete_student_outcome (id : UUID) (d : DB) :
  match cascade.delete_student id d with
  | Err e =>
      e = sql_err (ForeignKeyViolation certificates_student_id_fkey)
      /\ pg.has_student d id = true
      /\ existsb (fun c => (Certificate.StudentID c =? id)%N) (certificates d) = true
  | Ok d' =>
      certificates d' = certificates d
      /\ users d' = users d
      /\ (pg.has_student d id = false -> d' = d)
      /\ (pg.has_student d id = true ->
          existsb (fun c => (Certificate.StudentID c =? id)%N) (certificates d) = false
          /\ students d' = filter (fun s => negb (Student.ID s =? id)%N) (students d)
          /\ achievements d'
             = filter (fun a => negb (Achievement.StudentID a =? id)%N) (achievements d)
          /\ achievement_attachments d'
             = filter (fun r => negb (cascade.deleted_with_student id d
                                        (AchievementAttachment.AchievementID r)))
                      (achievement_attachments d)
          /\ certificate_achievements d'
             = filter (fun ca => negb (cascade.deleted_with_student id d (snd ca)))
                      (certificate_achievements d))
  end.
Proof.
  unfold cascade.delete_student, pg.sqlfail.
  destruct (pg.has_student d id); simpl.
  - destruct (existsb _ (certificates d)); simpl.
    + auto.
    + repeat split; auto; discriminate.
  - repeat split; auto; discriminate.
Qed.

Lemma delete_achievement_outcome (id : UUID) (d : DB) :
  exists d',
    cascade.delete_achievement id d = Ok d'
    /\ users d' = users d
    /\ students d' = students d
    /\ certificates d' = certificates d
    /\ achievements d'
       = filter (fun a => negb (Achievement.ID a =? id)%N) (achievements d)
    /\ (forall ca, In ca (certificate_achievements d')
                   <-> In ca (certificate_achievements d)
                       /\ (pg.has_achievement d id = true -> snd ca <> id))
    /\ (forall r, In r (achievement_attachments d')
                  <-> In r (achievement_attachments d)
                      /\ (pg.has_achievement d id = true ->
                          AchievementAttachment.AchievementID r <> id)).
Proof.
  unfold cascade.delete_achievement.
  destruct (pg.has_achievement d id) eqn:E; simpl.
  - eexists; split; [reflexivity|]. simpl. repeat split; auto.
    + now apply filter_In in H.
    + intros _. apply filter_In in H as [_ H].
      apply negb_true_iff, N.eqb_neq in H. exact H.
    + intros [H1 H2]. apply filter_In. split; [exact H1|].
      apply negb_true_iff, N.eqb_neq. now apply H2.
    + now apply filter_In in H.
    + intros _. apply filter_In in H as [_ H].
      apply negb_true_iff, N.eqb_neq in H. exact H.
    + intros [H1 H2]. apply filter_In. split; [exact H1|].
      apply negb_true_iff, N.eqb_neq. now apply H2.
  - exists d. split; [reflexivity|]. repeat split; auto.
    + unfold pg.has_achievement in E.
      induction (achievements d) as [|a l IH]; simpl in *; [reflexivity|].
      apply orb_false_iff in E as [E1 E2]. rewrite E1. simpl. f_equal. now apply IH.
    + discriminate.
    + now intros [H _].
    + discriminate.
    + now intros [H _].
Qed.

Section StudentDelete.
Context {L : Libraries}.

Lemma student_GetByID_outcome (id : string) (uid : UUID) (w : World) :
  uuid_Parse id = Some uid ->
  student_service.GetByID id w
  = (if upstream_down (oracle w) (tick w)
     then Err (sql_err ConnectionFailure)
     else match pg.student_by_id (db w) uid with
          | Some s => Ok s
          | None => Err ErrStudentNotFound
          end,
     bump w).
Proof.
  intros Hp. unfold student_service.GetByID. rewrite Hp.
  unfold bind. rewrite student_FindByID_outcome.
  destruct (upstream_down (oracle w) (tick w)); [reflexivity|].
  destruct (pg.student_by_id (db w) uid); reflexivity.
Qed.

Lemma student_Delete_outcome (id : string) (uid : UUID) (w : World) :
  uuid_Parse id = Some uid ->
  student_service.Delete id w
  = if upstream_down (oracle w) (tick w)
    then (Err (sql_err ConnectionFailure), bump w)
    else match pg.student_by_id (db w) uid with
         | None => (Err ErrStudentNotFound, bump w)
         | Some _ =>
             if upstream_down (oracle w) (S (tick w))
             then (Err (sql_err ConnectionFailure), bump (bump w))
             else match cascade.delete_student uid (db w) with
                  | Ok d' => (Ok tt, mkWorld d' (oracle w) (S (S (tick w))))
                  | Err e => (Err e, bump (bump w))
                  end
         end.
Proof.
  intros Hp. unfold student_service.Delete. unfold bind.
  rewrite (student_GetByID_outcome id uid w Hp), Hp.
  destruct (upstream_down (oracle w) (tick w)); [reflexivity|].
  destruct (pg.student_by_id (db w) uid); [|reflexivity].
  unfold student_repository.Delete. rewrite db_exec_outcome. reflexivity.
Qed.

(** What [Delete] does to the store, whatever the identifier and the
    connection. *)
Lemma student_Delete_db (id : string) (w : World) :
  db (snd (student_service.Delete id w)) = db w
  \/ exists uid,
      pg.has_student (db w) uid = true
      /\ cascade.delete_student uid (db w)
         = Ok (db (snd (student_service.Delete id w))).
Proof.
  destruct (uuid_Parse id) as [uid|] eqn:Hp.
  2:{ left. unfold student_service.Delete, student_service.GetByID, bind.
      rewrite Hp. reflexivity. }
  rewrite (student_Delete_outcome id uid w Hp).
  destruct (upstream_down (oracle w) (tick w)); [now left|].
  destruct (pg.student_by_id (db w) uid) eqn:Es; [|now left].
  destruct (upstream_down (oracle w) (S (tick w))); [now left|].
  destruct (cascade.delete_student uid (db w)) as [d'|e] eqn:Ed; [|now left].
  right. exists uid. split; [|exact Ed].
  rewrite has_student_by_id, Es. reflexivity.
Qed.

(** X11. A student who holds a certificate cannot be deleted. Whatever
    else is the case, [Delete] then returns an error and the store is
    unchanged; when the store answers and the student exists the error is
    the violation of the foreign key [certificates.student_id], which the
    handler answers with 500. *)
Theorem student_with_certificate_is_not_deleted
        (id : string) (uid : UUID) (w : World) :
  uuid_Parse id = Some uid ->
  existsb (fun c => (Certificate.StudentID c =? uid)%N) (certificates (db w)) = true ->
  (exists e, fst (student_service.Delete id w) = Err e)
  /\ db (snd (student_service.Delete id w)) = db w
  /\ (healthy w ->
      pg.has_student (db w) uid = true ->
      fst (student_service.Delete id w)
      = Err (sql_err (ForeignKeyViolation certificates_student_id_fkey))
      /\ fst (student_handler.Delete id w)
         = Ok (handler.mkResponse handler.StatusInternalServerError false
                 "Gagal menghapus data siswa")).
Proof.
  intros Hp Hcert.
  unfold student_handler.Delete, handler.respond.
  rewrite (student_Delete_outcome id uid w Hp).
  pose proof (delete_student_outcome uid (db w)) as Hd.
  rewrite has_student_by_id.
  destruct (upstream_down (oracle w) (tick w)) eqn:E0.
  { split; [eexists; reflexivity|]. split; [reflexivity|]. intros Hh. now rewrite Hh in E0. }
  destruct (pg.student_by_id (db w) uid) as [s|] eqn:Es.
  2:{ split; [eexists; reflexivity|]. split; [reflexivity|]. discriminate. }
  destruct (upstream_down (oracle w) (S (tick w))) eqn:E1.
  { split; [eexists; reflexivity|]. split; [reflexivity|]. intros Hh. now rewrite Hh in E1. }
  destruct (cascade.delete_student uid (db w)) as [d'|e].
  - exfalso. destruct Hd as (_ & _ & _ & Hd).
    rewrite has_student_by_id, Es in Hd. destruct (Hd eq_refl) as (Hno & _).
    congruence.
  - destruct Hd as (-> & _). split; [eexists; reflexivity|]. split; [reflexivity|].
    intros _ _. split; reflexivity.
Qed.

(** X12. Deleting a student who holds no certificate, with the store
    reachable: the student row is gone, and with it the student's
    achievements, the attachments of those achievements and the join rows
    that named them; the achievements of the other students, the
    certificates and the users stay; and the student is not found
    afterwards. *)
Theorem student_delete_cascades (id : string) (uid : UUID) (w : World) :
  uuid_Parse id = Some uid ->
  healthy w ->
  pg.has_student (db w) uid = true ->
  existsb (fun c => (Certificate.StudentID c =? uid)%N) (certificates (db w)) = false ->
  let w' := snd (student_service.Delete id w) in
  fst (student_service.Delete id w) = Ok tt
  /\ fst (student_handler.Delete id w)
     = Ok (handler.mkResponse handler.StatusOK true "Data siswa berhasil dihapus")
  /\ pg.has_student (db w') uid = false
  /\ (forall s, In s (students (db w'))
                <-> In s (students (db w)) /\ Student.ID s <> uid)
  /\ (forall a, In a (achievements (db w'))
                <-> In a (achievements (db w)) /\ Achievement.StudentID a <> uid)
  /\ (forall r, In r (achievement_attachments (db w')) ->
                In r (achievement_attachments (db w))
                /\ forall a, In a (achievements (db w)) ->
                             Achievement.ID a = AchievementAttachment.AchievementID r ->
                             Achievement.StudentID a <> uid)
  /\ (forall cid a, linked (db w') cid a ->
                    linked (db w) cid a /\ Achievement.StudentID a <> uid)
  /\ certificates (db w') = certificates (db w)
  /\ users (db w') = users (db w)
  /\ fst (student_service.GetByID id w') = Err ErrStudentNotFound
  /\ (exists resp,
         fst (student_handler.GetByID id w') = Ok resp
         /\ handler.StatusCode resp = handler.StatusNotFound).
Proof.
  intros Hp Hh Hst Hno.
  unfold student_handler.Delete, student_handler.GetByID, handler.respond.
  rewrite (student_Delete_outcome id uid w Hp).
  pose proof (delete_student_outcome uid (db w)) as Hd.
  rewrite !Hh. pose proof Hst as Hst'.
  rewrite has_student_by_id in Hst'.
  destruct (pg.student_by_id (db w) uid) as [s0|]; [|discriminate].
  destruct (cascade.delete_student uid (db w)) as [d'|e].
  2:{ destruct Hd as (_ & _ & Hd). congruence. }
  destruct Hd as (Hc & Hu & _ & Hd).
  destruct (Hd Hst) as (_ & Hs & Ha & Hat & Hj).
  cbv zeta. simpl fst. simpl snd. simpl db.
  assert (Hgone : pg.has_student d' uid = false).
  { unfold pg.has_student. rewrite Hs.
    apply (existsb_filter_false (fun s => (Student.ID s =? uid)%N)). }
  assert (Hdeleted : forall aid,
             cascade.deleted_with_student uid (db w) aid = false ->
             forall a, In a (achievements (db w)) -> Achievement.ID a = aid ->
                       Achievement.StudentID a <> uid).
  { intros aid Hdel a Hin Hid Hsid.
    unfold cascade.deleted_with_student in Hdel.
    assert (existsb (fun a0 => (Achievement.ID a0 =? aid)%N
                               && (Achievement.StudentID a0 =? uid)%N)
                    (achievements (db w)) = true); [|congruence].
    apply existsb_exists. exists a. split; [exact Hin|].
    apply andb_true_iff; split; now apply N.eqb_eq. }
  split; [reflexivity|]. split; [reflexivity|]. split; [exact Hgone|].
  split.
  { intros s. rewrite Hs, filter_In, negb_true_iff, N.eqb_neq. reflexivity. }
  split.
  { intros a. rewrite Ha, filter_In, negb_true_iff, N.eqb_neq. reflexivity. }
  split.
  { intros r. rewrite Hat, filter_In, negb_true_iff. intros [Hin Hdel].
    split; [exact Hin|]. intros a Hina Hid. now apply (Hdeleted _ Hdel a). }
  split.
  { intros cid a [Hina Hinj]. rewrite Ha in Hina. rewrite Hj in Hinj.
    apply filter_In in Hina as [Hina Hsid]. apply filter_In in Hinj as [Hinj _].
    apply negb_true_iff, N.eqb_neq in Hsid.
    split; [split; assumption | exact Hsid]. }
  split; [exact Hc|]. split; [exact Hu|].
  rewrite (student_GetByID_outcome id uid _ Hp). simpl oracle. simpl tick. simpl db.
  rewrite !Hh.
  rewrite has_student_by_id in Hgone.
  destruct (pg.student_by_id d' uid); [discriminate|].
  split; [reflexivity|]. eexists; split; reflexivity.
Qed.

End StudentDelete.

Lemma student_with_certificate_is_not_deleted_witness :
  let w := mkWorld (Scenario.school_with (Scenario.certificate 50%N "tok" "active"))
                   (Scenario.oracle_in 2024) 0 in
  fst (student_service.Delete (L := Scenario.libraries) "1" w)
  = Err (sql_err (ForeignKeyViolation certificates_student_id_fkey))
  /\ db (snd (student_service.Delete (L := Scenario.libraries) "1" w)) = db w.
Proof.
  intros w.
  destruct (student_with_certificate_is_not_deleted (L := Scenario.libraries)
              "1" 1%N w eq_refl eq_refl) as (_ & Hdb & H).
  split; [|exact Hdb].
  apply H; [intros n; reflexivity | reflexivity].
Defined.

(** Budi holds no certificate; his achievement goes with him. *)
Lemma student_delete_cascades_witness :
  let w := mkWorld (Scenario.school_with (Scenario.certificate 50%N "tok" "active"))
                   (Scenario.oracle_in 2024) 0 in
  let w' := snd (student_service.Delete (L := Scenario.libraries) "2" w) in
  fst (student_service.Delete (L := Scenario.libraries) "2" w) = Ok tt
  /\ pg.has_student (db w') 2%N = false
  /\ ~ In Scenario.catur (achievements (db w'))
  /\ certificates (db w') = certificates (db w).
Proof.
  intros w w'.
  assert (Hh : healthy w) by (intros n; reflexivity).
  destruct (student_delete_cascades (L := Scenario.libraries) "2" 2%N w
              eq_refl Hh eq_refl eq_refl)
    as (Hok & _ & Hgone & _ & Ha & _ & _ & Hc & _).
  split; [exact Hok|]. split; [exact Hgone|]. split; [|exact Hc].
  intros Hin. apply Ha in Hin as [_ Hne]. now apply Hne.
Defined.

(** X13. Deleting an achievement leaves every certificate in place and
    takes the achievement off each of them: afterwards an achievement is
    on a certificate exactly when it was before and is not the deleted
    one. The only error is the lost connection, with the store
    unchanged. *)
Theorem achievement_delete_takes_it_off_certificates (id : UUID) (w : World) :
  let out := achievement_repository.Delete id w in
  certificates (db (snd out)) = certificates (db w)
  /\ students (db (snd out)) = students (db w)
  /\ (forall e, fst out = Err e ->
                e = sql_err ConnectionFailure /\ db (snd out) = db w)
  /\ (fst out = Ok tt ->
      pg.has_achievement (db (snd out)) id = false
      /\ (forall cid a,
             linked (db (snd out)) cid a
             <-> linked (db w) cid a /\ Achievement.ID a <> id)
      /\ (forall r,
             In r (achievement_attachments (db (snd out))) ->
             In r (achievement_attachments (db w))
             /\ forall a, In a (achievements (db (snd out))) ->
                          AchievementAttachment.AchievementID r = Achievement.ID a ->
                          Achievement.ID a <> id)).
Proof.
  cbv zeta. unfold achievement_repository.Delete. rewrite db_exec_outcome.
  destruct (upstream_down (oracle w) (tick w)).
  { simpl. repeat split; auto; try discriminate; now inversion H. }
  destruct (delete_achievement_outcome id (db w))
    as (d' & -> & Hu & Hs & Hc & Ha & Hj & Hat).
  simpl fst. simpl snd. simpl db.
  split; [exact Hc|]. split; [exact Hs|]. split; [discriminate|].
  intros _.
  assert (Hgone : pg.has_achievement d' id = false).
  { unfold pg.has_achievement. rewrite Ha.
    apply (existsb_filter_false (fun a => (Achievement.ID a =? id)%N)). }
  assert (Hin : forall a, In a (achievements d')
                          <-> In a (achievements (db w)) /\ Achievement.ID a <> id).
  { intros a. rewrite Ha, filter_In, negb_true_iff, N.eqb_neq. reflexivity. }
  split; [exact Hgone|]. split.
  - intros cid a. unfold linked. rewrite Hin, Hj. simpl snd.
    split.
    + intros [[H1 H2] [H3 _]]. auto.
    + intros [[H1 H3] H2]. auto.
  - intros r Hr. apply Hat in Hr as [Hr _]. split; [exact Hr|].
    intros a Hina _. now apply Hin in Hina.
Qed.

(** Both achievements of certificate 50 are deleted; the certificate still
    verifies as valid, with no achievement left on it. *)
Example certificate_left_without_achievements :
  let w := mkWorld (Scenario.school_with (Scenario.certificate 50%N "tok" "active"))
                   (Scenario.oracle_in 2024) 0 in
  let w1 := snd (achievement_repository.Delete 11%N w) in
  let w2 := snd (achievement_repository.Delete 12%N w1) in
  exists resp,
    fst (service.Verify "tok" w2) = Ok resp
    /\ VerifyResponse.IsValid resp = true
    /\ VerifyResponse.Achievements resp = [].
Proof. vm_compute. eexists. repeat split. Qed.

(** ** Steps of the store *)

Section OneStep.
Context {L : Libraries}.

Lemma perform_change (o : operation) (w : World) :
  change (db w) (db (perform o w)).
Proof.
  destruct o as [cert ids | id url | id | req issuedBy | detail uploaded | id];
    simpl.
  - pose proof (repo_Create_checked cert ids w) as Hchk.
    destruct (repo_Create_outcome cert ids w)
      as [(e & _ & ->) | (Hok & now & Hins & ->)]; [constructor|].
    destruct (Hchk Hok) as (Hd & Ha). now constructor.
  - destruct (UpdatePDFURL_outcome id url w) as [-> | ->]; constructor.
  - destruct (repo_Revoke_fails id w) as (s & _ & ->). constructor.
  - destruct (service.Create req issuedBy w) as [[r|e] wf] eqn:E; simpl.
    + destruct (Create_Ok _ _ _ _ _ E)
        as (cert & ids & w1 & now & d & _ & Hins & -> & _ & Hd & Ha & _).
      now constructor.
    + destruct (Create_Err _ _ _ _ _ E)
        as [-> | (_ & cert & ids & w1 & now & _ & Hins & -> & Hd & Ha)];
        now constructor.
  - unfold service.generateAndUploadPDF.
    destruct uploaded as [url|]; [|constructor].
    unfold bind, ignore_err.
    pose proof (UpdatePDFURL_outcome
                  (Certificate.ID (CertificateDetail.Certificate detail)) url w) as P.
    destruct (repository.UpdatePDFURL _ url w) as [[[]|e] w1]; simpl in *;
      destruct P as [-> | ->]; constructor.
  - destruct (Revoke_fails id w) as (e & w' & E & _ & Hdb).
    rewrite E. simpl. rewrite Hdb. constructor.
Qed.

Lemma maintain_change (o : maintenance) (w : World) :
  change (db w) (db (maintain o w)).
Proof.
  destruct o as [o | id | id]; simpl.
  - apply perform_change.
  - destruct (student_Delete_db id w) as [-> | (uid & Hst & Hd)];
      [constructor|].
    eapply change_delete_student; eassumption.
  - unfold achievement_repository.Delete. rewrite db_exec_outcome.
    destruct (upstream_down (oracle w) (tick w)); [constructor|].
    destruct (delete_achievement_outcome id (db w)) as (d' & Hd & _).
    rewrite Hd. simpl. eapply change_delete_achievement; exact Hd.
Qed.

End OneStep.

(** ** What every step keeps *)

Lemma constraints_hold_iff (d : DB) :
  constraints_hold d = true
  <-> distinct (map Certificate.ID (certificates d)) = true
      /\ forall c, In c (certificates d) ->
                   pg.has_student d (Certificate.StudentID c) = true.
Proof.
  unfold constraints_hold. rewrite andb_true_iff, forallb_forall. reflexivity.
Qed.

Lemma references_hold_iff (d : DB) :
  references_hold d = true
  <-> (forall a, In a (achievements d) ->
                 pg.has_student d (Achievement.StudentID a) = true)
      /\ (forall r, In r (achievement_attachments d) ->
                    pg.has_achievement d (AchievementAttachment.AchievementID r) = true)
      /\ (forall ca, In ca (certificate_achievements d) ->
                     pg.has_certificate d (fst ca) = true
                     /\ pg.has_achievement d (snd ca) = true).
Proof.
  unfold references_hold. rewrite !andb_true_iff, !forallb_forall.
  split.
  - intros [[H1 H2] H3]. repeat split; auto.
    + apply H3 in H. now apply andb_true_iff in H.
    + apply H3 in H. now apply andb_true_iff in H.
  - intros (H1 & H2 & H3). repeat split; auto.
    intros ca Hca. apply andb_true_iff. now apply H3.
Qed.

Lemma distinct_app_fresh (l : list UUID) (x : UUID) :
  distinct l = true -> existsb (fun y => (y =? x)%N) l = false ->
  distinct (l ++ [x]) = true.
Proof.
  induction l as [|y l IH]; simpl; [reflexivity|].
  intros Hd Hx. apply andb_true_iff in Hd as [Hy Hd].
  apply orb_false_iff in Hx as [Hyx Hx].
  apply andb_true_iff. split; [|now apply IH].
  rewrite existsb_app. cbn [existsb]. rewrite Hyx. cbn [orb].
  rewrite orb_false_r. exact Hy.
Qed.

Lemma existsb_map_id {A} (f : A -> UUID) (l : list A) (x : UUID) :
  existsb (fun y => (y =? x)%N) (map f l) = existsb (fun r => (f r =? x)%N) l.
Proof. induction l as [|a l IH]; simpl; [reflexivity | now rewrite IH]. Qed.

Lemma has_student_In (d : DB) (u : UUID) :
  pg.has_student d u = true <-> exists s, In s (students d) /\ Student.ID s = u.
Proof.
  unfold pg.has_student. rewrite existsb_exists.
  split; intros (s & Hs & E); exists s; (split; [exact Hs|]);
    now apply N.eqb_eq.
Qed.

Lemma has_achievement_In (d : DB) (u : UUID) :
  pg.has_achievement d u = true
  <-> exists a, In a (achievements d) /\ Achievement.ID a = u.
Proof.
  unfold pg.has_achievement. rewrite existsb_exists.
  split; intros (s & Hs & E); exists s; (split; [exact Hs|]);
    now apply N.eqb_eq.
Qed.

Lemma not_deleted_with_student (uid : UUID) (d : DB) (aid : UUID) :
  cascade.deleted_with_student uid d aid = false ->
  forall a, In a (achievements d) -> Achievement.ID a = aid ->
            Achievement.StudentID a <> uid.
Proof.
  intros Hdel a Hin Hid Hsid. unfold cascade.deleted_with_student in Hdel.
  assert (existsb (fun a0 => (Achievement.ID a0 =? aid)%N
                             && (Achievement.StudentID a0 =? uid)%N)
                  (achievements d) = true); [|congruence].
  apply existsb_exists. exists a. split; [exact Hin|].
  apply andb_true_iff; split; now apply N.eqb_eq.
Qed.

Lemma consistent_issue (d : DB) (cert : Certificate.t) (now : Time)
      (ids : list UUID) :
  pg.insert_certificate cert now d
  = Ok (with_certificates (certificates d ++ [pg.inserted_row cert now]) d) ->
  forallb (pg.has_achievement d) ids = true ->
  consistent d ->
  consistent
    (with_certificate_achievements
       (certificate_achievements d ++ map (fun a => (Certificate.ID cert, a)) ids)
       (with_certificates (certificates d ++ [pg.inserted_row cert now]) d)).
Proof.
  intros Hins Hids [Hc Hr].
  apply insert_certificate_Ok in Hins as (_ & Hno & Hst & _).
  apply constraints_hold_iff in Hc as [Hd Hs].
  apply references_hold_iff in Hr as (Ha & Hat & Hj).
  rewrite forallb_forall in Hids.
  split.
  - apply constraints_hold_iff. simpl. split.
    + rewrite map_app. simpl. apply distinct_app_fresh; [exact Hd|].
      rewrite existsb_map_id. exact Hno.
    + intros c Hin. apply in_app_or in Hin as [Hin | [<- | []]].
      * now apply Hs.
      * exact Hst.
  - apply references_hold_iff. simpl. repeat split.
    + exact Ha.
    + exact Hat.
    + unfold pg.has_certificate. simpl. rewrite existsb_app.
      apply in_app_or in H as [Hin | Hin].
      * destruct (Hj ca Hin) as [H1 _]. unfold pg.has_certificate in H1.
        now rewrite H1.
      * apply in_map_iff in Hin as (a & <- & _). simpl.
        rewrite N.eqb_refl. now rewrite orb_true_r.
    + apply in_app_or in H as [Hin | Hin].
      * now destruct (Hj ca Hin).
      * apply in_map_iff in Hin as (a & <- & Hin). simpl. now apply Hids.
Qed.

Lemma consistent_pdf_url (d : DB) (id : UUID) (url : string) :
  consistent d ->
  consistent
    (with_certificates
       (map (fun c => if (Certificate.ID c =? id)%N
                      then Certificate.with_PDFURL (Some url) c else c)
            (certificates d))
       d).
Proof.
  intros [Hc Hr].
  apply constraints_hold_iff in Hc as [Hd Hs].
  apply references_hold_iff in Hr as (Ha & Hat & Hj).
  set (f := fun c => if (Certificate.ID c =? id)%N
                     then Certificate.with_PDFURL (Some url) c else c).
  assert (Hid : forall c, Certificate.ID (f c) = Certificate.ID c).
  { intros c. unfold f. now destruct (Certificate.ID c =? id)%N. }
  assert (Hsid : forall c, Certificate.StudentID (f c) = Certificate.StudentID c).
  { intros c. unfold f. now destruct (Certificate.ID c =? id)%N. }
  split.
  - apply constraints_hold_iff. simpl. split.
    + rewrite map_map. rewrite (map_ext _ Certificate.ID Hid). exact Hd.
    + intros c Hin. apply in_map_iff in Hin as (c0 & <- & Hin).
      rewrite Hsid. now apply Hs.
  - apply references_hold_iff. simpl. repeat split; auto.
    + destruct (Hj ca H) as [H1 _]. unfold pg.has_certificate in *. simpl.
      rewrite <- H1. clear - Hid. induction (certificates d) as [|c l IH]; simpl;
        [reflexivity|]. now rewrite Hid, IH.
    + now destruct (Hj ca H).
Qed.

Lemma consistent_delete_student (d d' : DB) (uid : UUID) :
  pg.has_student d uid = true ->
  cascade.delete_student uid d = Ok d' ->
  consistent d -> consistent d'.
Proof.
  intros Hst Hdel [Hc Hr].
  pose proof (delete_student_outcome uid d) as Hd. rewrite Hdel in Hd.
  destruct Hd as (Hcerts & _ & _ & Hd).
  destruct (Hd Hst) as (Hno & Hs & Ha & Hat & Hj).
  apply constraints_hold_iff in Hc as [Hdist Hcs].
  apply references_hold_iff in Hr as (Hra & Hrat & Hrj).
  assert (Hkeep : forall u, u <> uid -> pg.has_student d u = true ->
                            pg.has_student d' u = true).
  { intros u Hne Hu. apply has_student_In in Hu as (s & Hin & E).
    apply has_student_In. exists s. split; [|exact E].
    rewrite Hs. apply filter_In. split; [exact Hin|].
    apply negb_true_iff, N.eqb_neq. congruence. }
  assert (Hkeepa : forall aid,
             cascade.deleted_with_student uid d aid = false ->
             pg.has_achievement d aid = true -> pg.has_achievement d' aid = true).
  { intros aid Hnd Hhas. apply has_achievement_In in Hhas as (a & Hin & E).
    apply has_achievement_In. exists a. split; [|exact E].
    rewrite Ha. apply filter_In. split; [exact Hin|].
    apply negb_true_iff, N.eqb_neq.
    now apply (not_deleted_with_student uid d aid Hnd). }
  split.
  - apply constraints_hold_iff. rewrite Hcerts. split; [exact Hdist|].
    intros c Hin. apply Hkeep; [|now apply Hcs].
    intros E. assert (existsb (fun c0 => (Certificate.StudentID c0 =? uid)%N)
                              (certificates d) = true); [|congruence].
    apply existsb_exists. exists c. split; [exact Hin | now apply N.eqb_eq].
  - apply references_hold_iff. repeat split.
    + intros a Hin. rewrite Ha in Hin. apply filter_In in Hin as [Hin Hne].
      apply negb_true_iff, N.eqb_neq in Hne. apply Hkeep; [exact Hne|].
      now apply Hra.
    + intros r Hin. rewrite Hat in Hin. apply filter_In in Hin as [Hin Hnd].
      apply negb_true_iff in Hnd. apply Hkeepa; [exact Hnd | now apply Hrat].
    + rewrite Hj in H. apply filter_In in H as [Hin _].
      destruct (Hrj ca Hin) as [H1 _]. unfold pg.has_certificate in *.
      now rewrite Hcerts.
    + rewrite Hj in H. apply filter_In in H as [Hin Hnd].
      apply negb_true_iff in Hnd. apply Hkeepa; [exact Hnd|].
      now destruct (Hrj ca Hin).
Qed.

Lemma consistent_delete_achievement (d d' : DB) (id : UUID) :
  cascade.delete_achievement id d = Ok d' ->
  consistent d -> consistent d'.
Proof.
  intros Hdel [Hc Hr].
  destruct (delete_achievement_outcome id d)
    as (d0 & E & Hu & Hs & Hcerts & Ha & Hj & Hat).
  rewrite Hdel in E. inversion E; subst d0; clear E.
  apply constraints_hold_iff in Hc as [Hdist Hcs].
  apply references_hold_iff in Hr as (Hra & Hrat & Hrj).
  assert (Hkeepa : forall aid,
             (pg.has_achievement d id = true -> aid <> id) ->
             pg.has_achievement d aid = true -> pg.has_achievement d' aid = true).
  { intros aid Hne Hhas.
    pose proof Hhas as Hhas'. apply has_achievement_In in Hhas' as (a & Hin & E).
    apply has_achievement_In. exists a. split; [|exact E].
    rewrite Ha. apply filter_In. split; [exact Hin|].
    apply negb_true_iff, N.eqb_neq. intros Eid.
    apply Hne; [rewrite <- Eid, E; exact Hhas | congruence]. }
  split.
  - apply constraints_hold_iff. rewrite Hcerts. split; [exact Hdist|].
    intros c Hin. unfold pg.has_student. rewrite Hs. now apply Hcs.
  - apply references_hold_iff. repeat split.
    + intros a Hin. rewrite Ha in Hin. apply filter_In in Hin as [Hin _].
      unfold pg.has_student. rewrite Hs. now apply Hra.
    + intros r Hin. apply Hat in Hin as [Hin Hne].
      apply Hkeepa; [exact Hne | now apply Hrat].
    + apply Hj in H as [Hin _]. destruct (Hrj ca Hin) as [H1 _].
      unfold pg.has_certificate in *. now rewrite Hcerts.
    + apply Hj in H as [Hin Hne]. apply Hkeepa; [exact Hne|].
      now destruct (Hrj ca Hin).
Qed.

Lemma change_consistent (d d' : DB) :
  change d d' -> consistent d -> consistent d'.
Proof.
  intros [ | cert now ids Hins _ Hids | id url | uid d1 Hst Hdel | id d1 Hdel] H.
  - exact H.
  - now apply consistent_issue.
  - now apply consistent_pdf_url.
  - now apply (consistent_delete_student d d1 uid).
  - now apply (consistent_delete_achievement d d1 id).
Qed.

Lemma change_certificates (d d' : DB) :
  change d d' ->
  forall id c,
    certificate_with_id d id = Some c ->
    exists c',
      certificate_with_id d' id = Some c'
      /\ Certificate.with_PDFURL (Certificate.PDFURL c) c' = c.
Proof.
  intros [ | cert now ids Hins _ Hids | target url | uid d1 Hst Hdel | target d1 Hdel]
         id c Hc.
  - exists c. split; [exact Hc | apply with_PDFURL_same].
  - exists c. split; [|apply with_PDFURL_same].
    unfold certificate_with_id. simpl. now apply find_app_found.
  - unfold certificate_with_id in *. simpl. rewrite find_map_by_id.
    + rewrite Hc. simpl. eexists; split; [reflexivity|].
      destruct (Certificate.ID c =? target)%N;
        [apply with_PDFURL_back | apply with_PDFURL_same].
    + intros x. now destruct (Certificate.ID x =? target)%N.
  - exists c. split; [|apply with_PDFURL_same].
    pose proof (delete_student_outcome uid d) as Hd. rewrite Hdel in Hd.
    destruct Hd as (Hcerts & _). unfold certificate_with_id. now rewrite Hcerts.
  - exists c. split; [|apply with_PDFURL_same].
    destruct (delete_achievement_outcome target d) as (d0 & E & _ & _ & Hcerts & _).
    rewrite Hdel in E. inversion E; subst d0.
    unfold certificate_with_id. now rewrite Hcerts.
Qed.

Lemma change_count (d d' : DB) :
  change d d' ->
  (List.length (certificates d) <= List.length (certificates d'))%nat.
Proof.
  intros [ | cert now ids Hins _ Hids | target url | uid d1 Hst Hdel | target d1 Hdel].
  - apply Nat.le_refl.
  - simpl. rewrite length_app. simpl. lia.
  - simpl. rewrite length_map. apply Nat.le_refl.
  - pose proof (delete_student_outcome uid d) as Hd. rewrite Hdel in Hd.
    destruct Hd as (Hcerts & _). rewrite Hcerts. apply Nat.le_refl.
  - destruct (delete_achievement_outcome target d) as (d0 & E & _ & _ & Hcerts & _).
    rewrite Hdel in E. inversion E; subst d0. rewrite Hcerts. apply Nat.le_refl.
Qed.

Section Maintained.
Context {L : Libraries}.

(** X14. The constraints of the schema are kept by everything the code
    does to the store. If certificate ids are distinct and every
    certificate, achievement, attachment and join row has the rows it
    references, the same holds after any sequence of issuances, PDF
    updates, revocation attempts, and deletes of students and
    achievements. *)
Theorem store_stays_consistent (ops : list maintenance) (w : World) :
  constraints_hold (db w) = true ->
  references_hold (db w) = true ->
  constraints_hold (db (maintained ops w)) = true
  /\ references_hold (db (maintained ops w)) = true.
Proof.
  intros Hc Hr. assert (H : consistent (db w)) by (split; assumption).
  clear Hc Hr. revert w H.
  induction ops as [|o ops IH]; intros w H; simpl; [exact H|].
  apply IH. eapply change_consistent; [apply maintain_change | exact H].
Qed.

(** X15. No operation removes a certificate or changes any of its columns
    but [pdf_url]. After any sequence of issuances, PDF updates,
    revocation attempts and deletes of students and achievements, a
    certificate that was stored is still stored under its id, equal to
    what it was up to [pdf_url] (so with the status it had), and the
    table has not shrunk. *)
Theorem certificates_only_change_in_pdf_url
        (ops : list maintenance) (w : World) (id : UUID) (c : Certificate.t) :
  certificate_with_id (db w) id = Some c ->
  (exists c',
      certificate_with_id (db (maintained ops w)) id = Some c'
      /\ Certificate.with_PDFURL (Certificate.PDFURL c) c' = c
      /\ Certificate.Status c' = Certificate.Status c)
  /\ (List.length (certificates (db w))
      <= List.length (certificates (db (maintained ops w))))%nat.
Proof.
  revert w c.
  induction ops as [|o ops IH]; intros w c Hc; simpl.
  - split; [|apply Nat.le_refl]. exists c.
    split; [exact Hc|]. split; [apply with_PDFURL_same | reflexivity].
  - destruct (change_certificates _ _ (maintain_change o w) id c Hc)
      as (c1 & Hc1 & Hback).
    destruct (IH (maintain o w) c1 Hc1) as ((c' & Hc' & Hback' & Hst) & Hlen).
    split.
    + exists c'. split; [exact Hc'|].
      assert (Heq : Certificate.with_PDFURL (Certificate.PDFURL c) c' = c).
      { rewrite <- Hback at 2. rewrite <- Hback'.
        now destruct c', c1, c. }
      split; [exact Heq|].
      transitivity (Certificate.Status
                      (Certificate.with_PDFURL (Certificate.PDFURL c) c'));
        [now destruct c' | now rewrite Heq].
    + eapply Nat.le_trans; [|exact Hlen].
      apply change_count, maintain_change.
Qed.

End Maintained.

Lemma store_stays_consistent_witness :
  let w := mkWorld (Scenario.school_with (Scenario.certificate 50%N "tok" "active"))
                   (Scenario.oracle_in 2025) 0 in
  let ops := [workflow (svc_Create Scenario.request "7");
              delete_achievement 11%N;
              delete_student "2";
              workflow (repo_UpdatePDFURL 50%N "https://cdn/skp.pdf")] in
  let after := db (maintained (L := Scenario.libraries) ops w) in
  constraints_hold after = true
  /\ references_hold after = true
  /\ List.length (certificates after) = 2%nat
  /\ List.length (achievements after) = 1%nat.
Proof.
  intros w ops after.
  destruct (store_stays_consistent (L := Scenario.libraries) ops w eq_refl eq_refl)
    as [Hc Hr].
  split; [exact Hc|]. split; [exact Hr|].
  subst after ops w. vm_compute. split; reflexivity.
Defined.

Lemma certificates_only_change_in_pdf_url_witness :
  let c := Scenario.certificate 50%N "tok" "active" in
  let w := mkWorld (Scenario.school_with c) (Scenario.oracle_in 2025) 0 in
  let ops := [workflow (svc_Revoke "32");
              workflow (repo_Revoke 50%N);
              delete_student "1";
              delete_achievement 11%N;
              workflow (repo_UpdatePDFURL 50%N "https://cdn/skp.pdf")] in
  exists c',
    certificate_with_id (db (maintained (L := Scenario.libraries) ops w)) 50%N
    = Some c'
    /\ Certificate.with_PDFURL None c' = c
    /\ Certificate.Status c' = "active".
Proof.
  intros c w ops.
  destruct (certificates_only_change_in_pdf_url (L := Scenario.libraries)
              ops w 50%N c eq_refl) as ((c' & Hc & Hback & Hst) & _).
  exists c'. split; [exact Hc|]. split; [exact Hback | exact Hst].
Defined.

(** ** Numbers in sequence *)

Lemma append_same_head (p x y : string) :
  (p ++ x)%string = (p ++ y)%string -> x = y.
Proof.
  induction p as [|c p IH]; simpl; [auto|]. intros H; inversion H; auto.
Qed.

Lemma number_for_injective (Y a b : Z) :
  (0 <= a)%Z -> (0 <= b)%Z -> number_for Y a = number_for Y b -> a = b.
Proof.
  intros Ha Hb H. unfold number_for in H.
  apply append_same_head in H. apply append_same_head in H.
  apply append_same_head in H.
  destruct (zero_padded_reads_back 4 a Ha) as (_ & ua & Hua & <-).
  destruct (zero_padded_reads_back 4 b Hb) as (_ & ub & Hub & <-).
  rewrite H in Hua. congruence.
Qed.

Lemma numbered_NoDup (Y : Z) (d : DB) :
  numbered Y d -> NoDup (map Certificate.CertificateNumber (certificates d)).
Proof.
  unfold numbered. intros H.
  assert (Hn : map Certificate.CertificateNumber (certificates d)
               = map (fun k => number_for Y (Z.of_nat k))
                     (seq 1 (List.length (certificates d)))).
  { apply (f_equal (map fst)) in H. rewrite !map_map in H. exact H. }
  rewrite Hn. apply Finite.Injective_map_NoDup_in; [|apply seq_NoDup].
  intros a b _ _ E. apply number_for_injective in E; lia.
Qed.

Lemma numbered_count (Y : Z) (d : DB) :
  numbered Y d -> issued_in_year d Y = Z.of_nat (List.length (certificates d)).
Proof.
  unfold numbered, issued_in_year. intros H. f_equal. f_equal.
  assert (Hy : forall c, In c (certificates d) -> Year (Certificate.IssuedAt c) = Y).
  { intros c Hin.
    apply (in_map (fun c => (Certificate.CertificateNumber c,
                             Year (Certificate.IssuedAt c)))) in Hin.
    rewrite H in Hin. apply in_map_iff in Hin as (k & E & _). now inversion E. }
  clear H. induction (certificates d) as [|c l IH]; simpl; [reflexivity|].
  rewrite (Hy c (or_introl eq_refl)), Z.eqb_refl. simpl. f_equal.
  apply IH. intros c' Hc'. apply Hy. now right.
Qed.

Lemma numbered_issue (Y : Z) (d : DB) (row : Certificate.t) (joins : list (UUID * UUID)) :
  numbered Y d ->
  Certificate.CertificateNumber row
  = number_for Y (Z.of_nat (List.length (certificates d)) + 1) ->
  Year (Certificate.IssuedAt row) = Y ->
  numbered Y (with_certificate_achievements joins
                (with_certificates (certificates d ++ [row]) d)).
Proof.
  unfold numbered. simpl. intros H Hn Hy.
  rewrite map_app, length_app. simpl List.length.
  rewrite Nat.add_1_r, seq_S, map_app, H. cbn [map]. rewrite Hn, Hy.
  replace (Z.of_nat (1 + List.length (certificates d)))
    with (Z.of_nat (List.length (certificates d)) + 1)%Z by lia.
  reflexivity.
Qed.

Section Numbering.
Context {L : Libraries}.

Lemma keeps_Create req issuedBy : keeps false (service.Create req issuedBy).
Proof.
  unfold service.Create.
  apply keeps_bind; [apply keeps_weaken, keeps_Create_build|].
  intros built. apply keeps_Create_store.
Qed.

Lemma keeps_generateAndUploadPDF detail uploaded :
  keeps false (service.generateAndUploadPDF detail uploaded).
Proof.
  unfold service.generateAndUploadPDF. destruct uploaded; [|apply keeps_ret].
  apply keeps_bind; [|intros; apply keeps_ret].
  apply keeps_ignore_err, keeps_UpdatePDFURL.
Qed.

Lemma keeps_svc_Revoke (id : string) : keeps false (service.Revoke id).
Proof.
  unfold service.Revoke. destruct (uuid_Parse id); [|apply keeps_raise].
  apply keeps_bind; [apply keeps_weaken, keeps_FindByID|].
  intros [c|]; [|apply keeps_raise].
  destruct (_ =? _); [apply keeps_raise | apply keeps_repo_Revoke].
Qed.

Lemma keeps_student_Delete (id : string) : keeps false (student_service.Delete id).
Proof.
  unfold student_service.Delete, student_service.GetByID,
    student_repository.FindByID, student_repository.Delete.
  apply keeps_bind; [|intros; apply keeps_db_exec].
  destruct (uuid_Parse id); keeps_tac.
Qed.

Lemma keeps_maintain (o : maintenance) (w : World) :
  oracle (maintain o w) = oracle w.
Proof.
  destruct o as [[cert ids | id url | id | req issuedBy | detail uploaded | id]
                | id | id]; simpl.
  - exact (proj1 (keeps_repo_Create cert ids w)).
  - exact (proj1 (keeps_UpdatePDFURL id url w)).
  - exact (proj1 (keeps_repo_Revoke id w)).
  - exact (proj1 (keeps_Create req issuedBy w)).
  - exact (proj1 (keeps_generateAndUploadPDF detail uploaded w)).
  - exact (proj1 (keeps_svc_Revoke id w)).
  - exact (proj1 (keeps_student_Delete id w)).
  - exact (proj1 (keeps_db_exec _ w)).
Qed.

(** The operations that issue nothing leave the certificates, or set one
    [pdf_url]. *)
Lemma quiet_step (o : maintenance) (w : World) :
  through_service o ->
  (forall req issuedBy, o <> workflow (svc_Create req issuedBy)) ->
  certificates (db (maintain o w)) = certificates (db w)
  \/ exists id url,
      certificates (db (maintain o w))
      = map (fun c => if (Certificate.ID c =? id)%N
                      then Certificate.with_PDFURL (Some url) c else c)
            (certificates (db w)).
Proof.
  intros Hs Hc.
  destruct o as [[cert ids | id url | id | req issuedBy | detail uploaded | id]
                | id | id]; simpl in *.
  - contradiction.
  - destruct (UpdatePDFURL_outcome id url w) as [-> | ->];
      [now left | right; exists id, url; reflexivity].
  - destruct (repo_Revoke_fails id w) as (s & _ & ->). now left.
  - exfalso. now apply (Hc req issuedBy).
  - unfold service.generateAndUploadPDF.
    destruct uploaded as [url|]; [|now left].
    unfold bind, ignore_err.
    pose proof (UpdatePDFURL_outcome
                  (Certificate.ID (CertificateDetail.Certificate detail)) url w) as P.
    destruct (repository.UpdatePDFURL _ url w) as [[[]|e] w1]; simpl in *;
      destruct P as [-> | ->];
      (now left) || (right; eexists; eexists; reflexivity).
  - destruct (Revoke_fails id w) as (e & w' & E & _ & Hdb).
    rewrite E. simpl. rewrite Hdb. now left.
  - left. destruct (student_Delete_db id w) as [-> | (uid & _ & Hd)];
      [reflexivity|].
    pose proof (delete_student_outcome uid (db w)) as Ho. rewrite Hd in Ho.
    now destruct Ho as (Hcerts & _).
  - left. unfold achievement_repository.Delete. rewrite db_exec_outcome.
    destruct (upstream_down (oracle w) (tick w)); [reflexivity|].
    destruct (delete_achievement_outcome id (db w)) as (d' & -> & _ & _ & Hcerts & _).
    exact Hcerts.
Qed.

Lemma numbered_quiet (Y : Z) (d d' : DB) :
  numbered Y d ->
  certificates d' = certificates d
  \/ (exists id url,
         certificates d'
         = map (fun c => if (Certificate.ID c =? id)%N
                         then Certificate.with_PDFURL (Some url) c else c)
               (certificates d)) ->
  numbered Y d' /\ List.length (certificates d') = List.length (certificates d).
Proof.
  unfold numbered. intros H [-> | (id & url & ->)]; [auto|].
  rewrite length_map, map_map. split; [|reflexivity].
  rewrite <- H. apply map_ext. intros c.
  now destruct (Certificate.ID c =? id)%N.
Qed.

(** The number [Create] prints when the certificates of the store are
    numbered in sequence. *)
Lemma built_number (Y : Z) req issuedBy (w w1 : World) (cert : Certificate.t)
      (ids : list UUID) :
  (forall n, Year (clock (oracle w) n) = Y) ->
  numbered Y (db w) ->
  (Z.of_nat (List.length (certificates (db w))) < GoInt.max_int)%Z ->
  service.Create_build req issuedBy w = (Ok (cert, ids), w1) ->
  Certificate.CertificateNumber cert
  = number_for Y (Z.of_nat (List.length (certificates (db w))) + 1)
  /\ Year (Certificate.IssuedAt cert) = Y.
Proof.
  intros HY Hn Hlt Eb.
  apply Create_build_Ok in Eb as (_ & _ & _ & _ & Hnum & _ & _ & _ & Hat).
  rewrite !HY in Hnum. rewrite (numbered_count Y _ Hn) in Hnum.
  split; [|now rewrite Hat, HY].
  rewrite Hnum. unfold number_for, GoInt.add. rewrite wrap_in_range.
  - rewrite verb_d_decimal, verb_0d_zero_padded by lia. reflexivity.
  - unfold GoInt.in_range, GoInt.min_int, GoInt.max_int in *. lia.
Qed.

Lemma numbered_step (Y : Z) (o : maintenance) (w : World) :
  (forall n, Year (clock (oracle w) n) = Y) ->
  through_service o ->
  numbered Y (db w) ->
  (Z.of_nat (List.length (certificates (db w))) < GoInt.max_int)%Z ->
  numbered Y (db (maintain o w))
  /\ (List.length (certificates (db (maintain o w)))
      <= S (List.length (certificates (db w))))%nat.
Proof.
  intros HY Hs Hn Hlt.
  destruct o as [[cert ids | id url | id | req issuedBy | detail uploaded | id]
                | id | id];
    try (destruct (numbered_quiet Y (db w) _ Hn
                     (quiet_step _ w Hs ltac:(discriminate))) as [H1 H2];
         split; [exact H1 | rewrite H2; auto]).
  simpl.
  destruct (service.Create req issuedBy w) as [[r|e] wf] eqn:E; simpl.
  - destruct (Create_Ok _ _ _ _ _ E)
      as (cert & ids & w1 & now & d & Eb & _ & -> & _).
    destruct (built_number Y _ _ _ _ _ _ HY Hn Hlt Eb) as [Hnum Hy].
    split; [now apply numbered_issue|].
    simpl. rewrite length_app. simpl. lia.
  - destruct (Create_Err _ _ _ _ _ E)
      as [-> | (_ & cert & ids & w1 & now & Eb & _ & -> & _)]; [auto|].
    destruct (built_number Y _ _ _ _ _ _ HY Hn Hlt Eb) as [Hnum Hy].
    split; [now apply numbered_issue|].
    simpl. rewrite length_app. simpl. lia.
Qed.

(** X16. Numbers stay in sequence. In one calendar year, starting from
    certificates numbered 0001, 0002, ... in the order they were stored
    (or from none), after any sequence of operations that issue only
    through the service, one after the other, the certificates are still
    numbered in sequence, so no two carry the same number: nothing
    deletes a certificate, and each issuance takes the count plus one. *)
Theorem numbers_stay_in_sequence (Y : Z) (ops : list maintenance) (w : World) :
  (forall n, Year (clock (oracle w) n) = Y) ->
  Forall through_service ops ->
  numbered Y (db w) ->
  (Z.of_nat (List.length (certificates (db w)) + List.length ops)
   < GoInt.max_int)%Z ->
  numbered Y (db (maintained ops w))
  /\ NoDup (map Certificate.CertificateNumber
                (certificates (db (maintained ops w)))).
Proof.
  intros HY Hs Hn Hlt.
  assert (H : numbered Y (db (maintained ops w)));
    [|split; [exact H | exact (numbered_NoDup Y _ H)]].
  revert w HY Hn Hlt.
  induction Hs as [|o ops Ho Hs IH]; intros w HY Hn Hlt; simpl; [exact Hn|].
  simpl List.length in Hlt.
  destruct (numbered_step Y o w HY Ho Hn ltac:(lia)) as [Hn' Hlen].
  apply IH; [|exact Hn'|lia].
  intros n. rewrite keeps_maintain. apply HY.
Qed.

End Numbering.

Lemma numbers_stay_in_sequence_witness :
  let ops := [workflow (svc_Create Scenario.request "7");
              workflow (svc_Revoke "64");
              delete_achievement 12%N;
              workflow (svc_Create Scenario.request_foreign "7")] in
  map Certificate.CertificateNumber
      (certificates (db (maintained (L := Scenario.libraries) ops Scenario.world_2024)))
  = ["421.2/SKP/2024/0001"; "421.2/SKP/2024/0002"]
  /\ NoDup (map Certificate.CertificateNumber
                (certificates
                   (db (maintained (L := Scenario.libraries) ops
                          Scenario.world_2024)))).
Proof.
  intros ops. split; [subst ops; vm_compute; reflexivity|].
  refine (proj2 (numbers_stay_in_sequence (L := Scenario.libraries) 2024 ops
                   Scenario.world_2024 _ _ _ _)).
  - intros n; reflexivity.
  - subst ops. repeat constructor.
  - reflexivity.
  - subst ops. vm_compute. reflexivity.
Defined.

(** ** Attachments in a detail *)

Lemma attachments_each (l : list Achievement.t) :
  forall (w w' : World) (r : list AchievementWithAttachments.t),
    mapM (fun a =>
            attachments <-
              ignore_err
                (db_query (fun _ => pg.select_attachments (Achievement.ID a))) ;;
            ret (AchievementWithAttachments.mk a
                   (match attachments with Some l => l | None => [] end))) l w
    = (Ok r, w') ->
    Forall (fun x =>
              AchievementWithAttachments.Attachments x
              = filter (fun r => (AchievementAttachment.AchievementID r
                                  =? Achievement.ID
                                       (AchievementWithAttachments.Achievement x))%N)
                       (achievement_attachments (db w))
              \/ AchievementWithAttachments.Attachments x = []) r.
Proof.
  induction l as [|a l IH]; intros w w' r; simpl.
  - unfold ret. intros E; inversion E. constructor.
  - unfold bind at 1. unfold bind at 1.
    unfold ignore_err, db_query, round_trip.
    destruct (upstream_down (oracle w) (tick w)).
    + unfold ret at 1. cbv beta iota. unfold bind at 1.
      match goal with
      | |- context [mapM ?f l ?w0] =>
          destruct (mapM f l w0) as [[bs|e] w2] eqn:E1; [|discriminate]
      end.
      unfold ret. intros E; inversion E; subst. constructor.
      * right. reflexivity.
      * apply IH in E1. exact E1.
    + unfold pg.select_attachments. unfold ret at 1. cbv beta iota.
      unfold bind at 1.
      match goal with
      | |- context [mapM ?f l ?w0] =>
          destruct (mapM f l w0) as [[bs|e] w2] eqn:E1; [|discriminate]
      end.
      unfold ret. intros E; inversion E; subst. constructor.
      * left. reflexivity.
      * apply IH in E1. exact E1.
Qed.

(** X17. A detail lists, for each achievement, either all of its
    attachments or none: [FindByIDWithDetail] drops the error of an
    attachment query, so a lost connection while the attachments are read
    gives a detail without error in which that achievement has no
    attachment. With the store reachable every achievement has exactly
    its attachments. *)
Theorem detail_attachments_all_or_none (id : UUID) (w : World)
        (detail : CertificateDetail.t) :
  fst (repository.FindByIDWithDetail id w) = Ok (Some detail) ->
  Forall (fun x =>
            let own :=
              filter (fun r => (AchievementAttachment.AchievementID r
                                =? Achievement.ID
                                     (AchievementWithAttachments.Achievement x))%N)
                     (achievement_attachments (db w)) in
            (AchievementWithAttachments.Attachments x = own
             \/ AchievementWithAttachments.Attachments x = [])
            /\ (healthy w -> AchievementWithAttachments.Attachments x = own))
         (CertificateDetail.Achievements detail).
Proof.
  destruct (repository.FindByIDWithDetail id w) as [r w'] eqn:E. simpl.
  intros ->. cbv zeta.
  assert (Hany : Forall (fun x =>
             AchievementWithAttachments.Attachments x
             = filter (fun r => (AchievementAttachment.AchievementID r
                                 =? Achievement.ID
                                      (AchievementWithAttachments.Achievement x))%N)
                      (achievement_attachments (db w))
             \/ AchievementWithAttachments.Attachments x = [])
            (CertificateDetail.Achievements detail)).
  { revert E. unfold repository.FindByIDWithDetail. unfold bind at 1.
    rewrite FindByID_outcome.
    destruct (upstream_down (oracle w) (tick w)); [discriminate|].
    destruct (certificate_with_id (db w) id) as [c|]; unfold option_map;
      cbv beta iota; [|unfold ret; discriminate].
    unfold bind at 1, db_query at 1, round_trip at 1.
    destruct (upstream_down _ _); [discriminate|].
    destruct (pg.select_student _ _) as [s|e]; [|discriminate].
    unfold bind at 1, db_query at 1, round_trip at 1.
    destruct (upstream_down _ _); [discriminate|].
    unfold pg.select_achievements. cbv beta iota. unfold bind at 1.
    match goal with
    | |- context [mapM ?f ?l ?w0] =>
        destruct (mapM f l w0) as [[ats|e2] w2] eqn:E3; [|discriminate]
    end.
    apply attachments_each in E3. simpl db in E3.
    unfold ret. intros E; inversion E; subst. exact E3. }
  assert (Hall : healthy w ->
            Forall (fun x =>
              AchievementWithAttachments.Attachments x
              = filter (fun r => (AchievementAttachment.AchievementID r
                                  =? Achievement.ID
                                       (AchievementWithAttachments.Achievement x))%N)
                       (achievement_attachments (db w)))
            (CertificateDetail.Achievements detail)).
  { intros Hh.
    pose proof (FindByIDWithDetail_Ok _ _ _ _ E) as (_ & c & k & Hc & _ & Hst & _).
    destruct (pg.student_by_id (db w) (Certificate.StudentID c)) as [s|] eqn:Es.
    2:{ exfalso. revert E. unfold repository.FindByIDWithDetail. unfold bind at 1.
        rewrite (FindByID_healthy id w Hh), Hc. unfold option_map; cbv beta iota.
        unfold bind at 1. rewrite (db_query_healthy _ _ (healthy_bump w Hh)).
        rewrite joined_StudentID, select_student_find. simpl db. rewrite Es.
        discriminate. }
    revert E. unfold repository.FindByIDWithDetail. unfold bind at 1.
    rewrite (FindByID_healthy id w Hh), Hc. unfold option_map; cbv beta iota.
    unfold bind at 1. rewrite (db_query_healthy _ _ (healthy_bump w Hh)).
    rewrite joined_StudentID, select_student_find. simpl db. rewrite Es.
    unfold bind at 1.
    rewrite (db_query_healthy _ _ (healthy_bump _ (healthy_bump w Hh))).
    unfold pg.select_achievements. cbv beta iota. unfold bind at 1.
    match goal with
    | |- context [mapM ?f ?l ?w0] =>
        destruct (attachments_healthy l w0) as (w3 & E3 & _);
          [repeat apply healthy_bump; exact Hh|]
    end.
    rewrite E3. unfold ret. intros E; inversion E; subst. simpl.
    apply Forall_forall. intros x Hx. apply in_map_iff in Hx as (a & <- & _).
    reflexivity. }
  apply Forall_forall. intros x Hx. split.
  - rewrite Forall_forall in Hany. now apply Hany.
  - intros Hh. specialize (Hall Hh). rewrite Forall_forall in Hall. now apply Hall.
Qed.

(** The connection is lost at tick 3, while the attachments of the first
    achievement are read. *)
Lemma detail_attachments_all_or_none_witness :
  let c := Scenario.certificate 50%N "tok" "active" in
  let w := mkWorld (Cases.school_with_attachment c)
                   (Scenario.oracle_down_at 2024 3) 0 in
  exists detail,
    fst (repository.FindByIDWithDetail 50%N w) = Ok (Some detail)
    /\ map AchievementWithAttachments.Attachments
           (CertificateDetail.Achievements detail) = [[]; []]
    /\ Forall (fun x =>
                 AchievementWithAttachments.Attachments x = []
                 \/ AchievementWithAttachments.Attachments x = [Cases.piagam])
              (CertificateDetail.Achievements detail).
Proof.
  intros c w.
  pose proof (detail_attachments_all_or_none 50%N w) as H.
  destruct (fst (repository.FindByIDWithDetail 50%N w)) as [[detail|]|e] eqn:E;
    [ | exfalso; subst w c; vm_compute in E; discriminate E
      | exfalso; subst w c; vm_compute in E; discriminate E ].
  exists detail. split; [reflexivity|].
  specialize (H detail eq_refl).
  assert (Hd : map AchievementWithAttachments.Achievement
                   (CertificateDetail.Achievements detail)
               = [Scenario.olimpiade; Scenario.debat]
               /\ map AchievementWithAttachments.Attachments
                      (CertificateDetail.Achievements detail) = [[]; []]).
  { subst w c. vm_compute in E. inversion E. split; reflexivity. }
  destruct Hd as [Hach Hatt]. split; [exact Hatt|].
  apply Forall_forall. intros x Hx.
  rewrite Forall_forall in H. destruct (H x Hx) as [[Hown | Hnone] _];
    [|now left].
  assert (Hin : In (AchievementWithAttachments.Achievement x)
                   [Scenario.olimpiade; Scenario.debat]).
  { rewrite <- Hach. now apply in_map. }
  rewrite Hown. destruct Hin as [<- | [<- | []]]; [right | left]; reflexivity.
Defined.

(** ** The page count of [GetAll] *)

(** X18. [certificateService.GetAll], over any repository: page and page
    size below one are replaced by 1 and 10 before the repository is
    asked, the division by the page size never panics, the error of the
    repository is passed on, and for a count of zero or more the
    reported number of pages is the least number of pages of that size
    that hold the count. *)
Theorem GetAll_counts_pages
        (FindAll : CertificateFilter.t -> M (list Certificate.t * Z))
        (filter : CertificateFilter.t) (w : World) :
  let page :=
    if (CertificateFilter.Page filter <=? 0)%Z
    then 1%Z else CertificateFilter.Page filter in
  let perPage :=
    if (CertificateFilter.PerPage filter <=? 0)%Z
    then 10%Z else CertificateFilter.PerPage filter in
  let asked :=
    CertificateFilter.mk (CertificateFilter.StudentID filter)
      (CertificateFilter.Status filter) page perPage in
  (1 <= page)%Z /\ (1 <= perPage)%Z
  /\ match FindAll asked w with
     | (Err e, w') => certificate_service.GetAll FindAll filter w = (Err e, w')
     | (Ok (certs, total), w') =>
         exists p,
           certificate_service.GetAll FindAll filter w = (Ok (certs, p), w')
           /\ Pagination.Page p = page
           /\ Pagination.PerPage p = perPage
           /\ Pagination.TotalItems p = total
           /\ ((0 <= total <= GoInt.max_int)%Z ->
               (0 <= Pagination.TotalPages p)%Z
               /\ (total <= Pagination.TotalPages p * perPage)%Z
               /\ ((Pagination.TotalPages p - 1) * perPage < total)%Z)
     end.
Proof.
  cbv zeta.
  destruct filter as [sid st pg pp]. simpl.
  assert (Hpage : (1 <= (if (pg <=? 0)%Z then 1 else pg))%Z).
  { destruct (pg <=? 0)%Z eqn:E; [lia | apply Z.leb_gt in E; lia]. }
  assert (Hper : (1 <= (if (pp <=? 0)%Z then 10 else pp))%Z).
  { destruct (pp <=? 0)%Z eqn:E; [lia | apply Z.leb_gt in E; lia]. }
  split; [exact Hpage|]. split; [exact Hper|].
  unfold certificate_service.GetAll. simpl.
  assert (Easked :
            (if (CertificateFilter.PerPage
                   (if (pg <=? 0)%Z
                    then CertificateFilter.mk sid st 1 pp
                    else CertificateFilter.mk sid st pg pp) <=? 0)%Z
             then CertificateFilter.mk
                    (CertificateFilter.StudentID
                       (if (pg <=? 0)%Z
                        then CertificateFilter.mk sid st 1 pp
                        else CertificateFilter.mk sid st pg pp))
                    (CertificateFilter.Status
                       (if (pg <=? 0)%Z
                        then CertificateFilter.mk sid st 1 pp
                        else CertificateFilter.mk sid st pg pp))
                    (CertificateFilter.Page
                       (if (pg <=? 0)%Z
                        then CertificateFilter.mk sid st 1 pp
                        else CertificateFilter.mk sid st pg pp)) 10
             else if (pg <=? 0)%Z
                  then CertificateFilter.mk sid st 1 pp
                  else CertificateFilter.mk sid st pg pp)
            = CertificateFilter.mk sid st (if (pg <=? 0)%Z then 1%Z else pg)
                (if (pp <=? 0)%Z then 10%Z else pp)).
  { destruct (pg <=? 0)%Z; simpl; destruct (pp <=? 0)%Z; reflexivity. }
  rewrite Easked. clear Easked.
  set (page := if (pg <=? 0)%Z then 1%Z else pg) in *.
  set (perPage := if (pp <=? 0)%Z then 10%Z else pp) in *.
  unfold bind.
  destruct (FindAll (CertificateFilter.mk sid st page perPage) w)
    as [[[certs total]|e] w']; [|reflexivity].
  unfold int_quo, int_rem.
  cbn [CertificateFilter.PerPage CertificateFilter.Page].
  destruct (perPage =? 0)%Z eqn:E0; [apply Z.eqb_eq in E0; lia|].
  unfold ret. eexists. split; [reflexivity|]. simpl.
  split; [reflexivity|]. split; [reflexivity|]. split; [reflexivity|].
  intros Htotal.
  rewrite Z.quot_div_nonneg by lia. rewrite Z.rem_mod_nonneg by lia.
  pose proof (Z.div_mod total perPage ltac:(lia)) as Hdm.
  pose proof (Z.mod_pos_bound total perPage ltac:(lia)) as Hmod.
  pose proof (Z.div_pos total perPage ltac:(lia) ltac:(lia)) as Hq.
  assert (Hqle : (total / perPage <= total)%Z).
  { apply Z.div_le_upper_bound; [lia | nia]. }
  assert (Hwrap : GoInt.wrap (total / perPage) = (total / perPage)%Z).
  { apply wrap_in_range.
    unfold GoInt.in_range, GoInt.min_int, GoInt.max_int in *. lia. }
  rewrite Hwrap.
  destruct (total mod perPage >? 0)%Z eqn:Er.
  - assert (Hr : (0 < total mod perPage)%Z) by lia.
    unfold GoInt.add. rewrite wrap_in_range.
    + nia.
    + unfold GoInt.in_range, GoInt.min_int, GoInt.max_int in *. nia.
  - assert (Hr : (total mod perPage = 0)%Z) by lia. nia.
Qed.

(** Twenty-five certificates in pages of ten are three pages; none is no
    page; a page size of zero is taken as ten. *)
Example GetAll_counts_pages_examples :
  let pages total perPage :=
    match fst (certificate_service.GetAll (Cases.FindAll_reporting total)
                 (CertificateFilter.mk "" "" 1 perPage) Scenario.world_2024) with
    | Ok (_, p) => Some (Pagination.PerPage p, Pagination.TotalPages p)
    | Err _ => None
    end in
  pages 25%Z 10%Z = Some (10%Z, 3%Z)
  /\ pages 30%Z 10%Z = Some (10%Z, 3%Z)
  /\ pages 0%Z 10%Z = Some (10%Z, 0%Z)
  /\ pages 25%Z 0%Z = Some (10%Z, 3%Z).
Proof. vm_compute. repeat split. Qed.

(** ** The cells of the achievement table *)

Lemma truncate_some (s : string) (max : Z) :
  (3 <= max <= GoInt.max_int)%Z ->
  exists r,
    utils.truncate s max = Some r
    /\ (len r <= max)%Z
    /\ ((len s <= max)%Z -> r = s)
    /\ ((max < len s)%Z ->
        r = (substring 0 (Z.to_nat (max - 3)) s ++ "...")%string
        /\ len r = max).
Proof.
  intros Hmax.
  assert (Hsub : GoInt.sub max 3 = (max - 3)%Z).
  { unfold GoInt.sub. apply wrap_in_range.
    unfold GoInt.in_range, GoInt.min_int, GoInt.max_int in *. lia. }
  unfold utils.truncate, slice_to.
  destruct (len s <=? max)%Z eqn:E.
  - apply Z.leb_le in E. exists s. repeat split; auto; lia.
  - apply Z.leb_gt in E. rewrite Hsub.
    destruct (0 <=? max - 3)%Z eqn:E1; [|apply Z.leb_gt in E1; lia].
    destruct (max - 3 <=? len s)%Z eqn:E2; [|apply Z.leb_gt in E2; lia].
    simpl. eexists. split; [reflexivity|].
    assert (Hlen : len (substring 0 (Z.to_nat (max - 3)) s ++ "...")%string = max).
    { unfold len in *. rewrite length_append, length_substring_0 by lia.
      simpl. lia. }
    repeat split; auto; lia.
Qed.

(** X19. [truncate(s, max)] for [max >= 3] never panics and returns a
    string of at most [max] bytes: [s] itself when it fits, otherwise
    exactly [max] bytes ending in the ellipsis; truncating the result
    again changes nothing. For [max < 3] it panics on every string longer
    than [max]. *)
Theorem truncate_fits_the_column (s : string) (max : Z) :
  ((3 <= max <= GoInt.max_int)%Z ->
   exists r,
     utils.truncate s max = Some r
     /\ (len r <= max)%Z
     /\ ((len s <= max)%Z -> r = s)
     /\ ((max < len s)%Z ->
         len r = max
         /\ exists head, r = (head ++ "...")%string
                         /\ head = substring 0 (String.length head) s)
     /\ utils.truncate r max = Some r)
  /\ ((0 <= max < 3)%Z -> (max < len s)%Z -> utils.truncate s max = None).
Proof.
  split.
  - intros Hmax.
    destruct (truncate_some s max Hmax) as (r & Hr & Hle & Hfit & Hcut).
    exists r. split; [exact Hr|]. split; [exact Hle|]. split; [exact Hfit|].
    split.
    + intros Hlong. destruct (Hcut Hlong) as [Hrs Hlen]. split; [exact Hlen|].
      exists (substring 0 (Z.to_nat (max - 3)) s). split; [exact Hrs|].
      unfold len in *. rewrite length_substring_0 by lia. reflexivity.
    + destruct (truncate_some r max Hmax) as (r' & Hr' & _ & Hfit' & _).
      rewrite Hr'. f_equal. now apply Hfit'.
  - intros Hmax Hlong. unfold utils.truncate, slice_to.
    destruct (len s <=? max)%Z eqn:E; [apply Z.leb_le in E; lia|].
    assert (Hsub : GoInt.sub max 3 = (max - 3)%Z).
    { unfold GoInt.sub. apply wrap_in_range.
      unfold GoInt.in_range, GoInt.min_int, GoInt.max_int in *. lia. }
    rewrite Hsub.
    destruct (0 <=? max - 3)%Z eqn:E1; [apply Z.leb_le in E1; lia|].
    reflexivity.
Qed.

(** X20. A row of the achievement table of [GenerateCertificatePDF] is
    made for every achievement, without panic: the competition name, the
    organizer, the category and the level are cut to at most 30, 22, 14
    and 14 bytes (and printed as they are when they fit), the number and
    the year are printed in decimal, and the rank is printed as it is,
    whatever its length. *)
Theorem achievement_row_fits (a : PDFAchievement.t) :
  exists name organizer category level,
    utils_pdf.achievement_row a
    = Some [fmt.verb_d (PDFAchievement.No a); name; organizer; category;
            PDFAchievement.Rank a; level; fmt.verb_d (PDFAchievement.Year a)]
    /\ (len name <= 30)%Z /\ (len organizer <= 22)%Z
    /\ (len category <= 14)%Z /\ (len level <= 14)%Z
    /\ ((len (PDFAchievement.CompetitionName a) <= 30)%Z ->
        name = PDFAchievement.CompetitionName a)
    /\ ((len (PDFAchievement.Organizer a) <= 22)%Z ->
        organizer = PDFAchievement.Organizer a)
    /\ ((len (PDFAchievement.Category a) <= 14)%Z ->
        category = PDFAchievement.Category a)
    /\ ((len (PDFAchievement.Level a) <= 14)%Z ->
        level = PDFAchievement.Level a).
Proof.
  assert (H30 : (3 <= 30 <= GoInt.max_int)%Z) by (unfold GoInt.max_int; lia).
  assert (H22 : (3 <= 22 <= GoInt.max_int)%Z) by (unfold GoInt.max_int; lia).
  assert (H14 : (3 <= 14 <= GoInt.max_int)%Z) by (unfold GoInt.max_int; lia).
  destruct (truncate_some (PDFAchievement.CompetitionName a) 30 H30)
    as (name & E1 & L1 & F1 & _).
  destruct (truncate_some (PDFAchievement.Organizer a) 22 H22)
    as (organizer & E2 & L2 & F2 & _).
  destruct (truncate_some (PDFAchievement.Category a) 14 H14)
    as (category & E3 & L3 & F3 & _).
  destruct (truncate_some (PDFAchievement.Level a) 14 H14)
    as (level & E4 & L4 & F4 & _).
  exists name, organizer, category, level.
  unfold utils_pdf.achievement_row. rewrite E1, E2, E3, E4.
  repeat split; auto.
Qed.

Lemma truncate_fits_the_column_witness :
  utils.truncate Scenario.forty_accented 30
  = Some (substring 0 27 Scenario.forty_accented ++ "...")%string
  /\ utils.truncate "abcd" 2 = None.
Proof.
  destruct (truncate_fits_the_column Scenario.forty_accented 30) as [H _].
  destruct (truncate_fits_the_column "abcd" 2) as [_ H2].
  split; [|apply H2; [lia | vm_compute; reflexivity]].
  destruct H as (r & Hr & _ & _ & _ & _);
    [unfold GoInt.max_int; lia|].
  rewrite Hr. f_equal. vm_compute in Hr. now inversion Hr.
Defined.

